(** * AI-ChatBot: the MCP manager and the chat session of [mcp.py]

    A shallow embedding of [MCPServer], [MCPManager] and
    [LMStudioMCPChatbot] together with the parts of the Python runtime
    they rely on ([str], exceptions, [json], text files, child
    processes), followed by the properties of the specification that are
    checked against it. *)

From Stdlib Require Import NArith ZArith Lia Ascii Bool.
From stdpp Require Import base option list gmap strings pretty.

Set Warnings "-register-all".

Local Open Scope N_scope.

(** ** Python strings and exceptions *)

Module Py.

(** A Python [str] is a sequence of code points.  Python admits every
    code point below [0x110000], lone surrogates included. *)
Definition pystr := list N.

(** The [str] of an ASCII literal. *)
Definition py (s : string) : pystr :=
  (λ a, N_of_ascii a) <$> String.list_ascii_of_string s.

Arguments py : simpl never.

(** [py] with every apostrophe read as a double quote, to write JSON
    texts. *)
Definition pyq (s : string) : pystr :=
  (λ c, if c =? 39 then 34 else c) <$> py s.

Definition is_code_point (c : N) : bool := c <? 0x110000.
Definition is_surrogate (c : N) : bool := (0xD800 <=? c) && (c <=? 0xDFFF).
Definition is_str (s : pystr) : bool := forallb is_code_point s.

Definition str_eqb (a b : pystr) : bool := bool_decide (a = b).

(** The truth value of a [str]: [if s:] *)
Definition truthy (s : pystr) : bool :=
  match s with [] => false | _ :: _ => true end.

(** [s.startswith(p)] *)
Fixpoint startswith (p s : pystr) : bool :=
  match p, s with
  | [], _ => true
  | a :: p', b :: s' => (a =? b) && startswith p' s'
  | _ :: _, [] => false
  end.

(** [p in s] for two strings: substring test. *)
Fixpoint str_contains (p s : pystr) : bool :=
  startswith p s || match s with [] => false | _ :: s' => str_contains p s' end.

(** [str.isspace] on one code point. *)
Definition isspace (c : N) : bool :=
  ((9 <=? c) && (c <=? 13)) || ((28 <=? c) && (c <=? 32)) || (c =? 0x85)
  || (c =? 0xA0) || (c =? 0x1680) || ((0x2000 <=? c) && (c <=? 0x200A))
  || (c =? 0x2028) || (c =? 0x2029) || (c =? 0x202F) || (c =? 0x205F)
  || (c =? 0x3000).

Fixpoint lstrip (s : pystr) : pystr :=
  match s with
  | c :: r => if isspace c then lstrip r else s
  | [] => []
  end.

(** [s.strip()] *)
Definition strip (s : pystr) : pystr := rev (lstrip (rev (lstrip s))).

(** [TextIO.readline] on the text still to come: the next line with its
    newline, the unterminated rest at end of stream, [""] once the stream
    is exhausted. *)
Fixpoint readline (s : pystr) : pystr * pystr :=
  match s with
  | [] => ([], [])
  | c :: r =>
      if c =? 10 then ([c], r)
      else let '(l, t) := readline r in (c :: l, t)
  end.

Inductive exn_class :=
| Exception | TypeError | KeyError | AttributeError | RuntimeError | OSError
| FileNotFoundError | BrokenPipeError | JSONDecodeError | RecursionError
| UnicodeEncodeError | UnicodeDecodeError.

(** An exception: its class and [str(exc)]. *)
Record exn := Exn { exn_class_of : exn_class; exn_str : pystr }.

Inductive result (A : Type) :=
| Ok (a : A)
| Raise (e : exn).
Arguments Ok {A} a.
Arguments Raise {A} e.

#[global] Instance result_ret : MRet result := λ A a, Ok a.
#[global] Instance result_bind : MBind result := λ A B f r,
  match r with Ok a => f a | Raise e => Raise e end.

#[global] Instance result_fmap : FMap result := λ A B f r,
  match r with Ok a => Ok (f a) | Raise e => Raise e end.

Definition is_raise {A} (r : result A) : bool :=
  match r with Raise _ => true | Ok _ => false end.

(** A [dict] with [str] keys: insertion ordered, keys unique. *)
Definition pydict (V : Type) := list (pystr * V).

Fixpoint dict_get {V} (k : pystr) (d : pydict V) : option V :=
  match d with
  | [] => None
  | (k', v) :: d' => if str_eqb k k' then Some v else dict_get k d'
  end.

(** [d[k] = v]: the value is replaced in place when the key is there and
    appended otherwise. *)
Fixpoint dict_set {V} (k : pystr) (v : V) (d : pydict V) : pydict V :=
  match d with
  | [] => [(k, v)]
  | (k', v') :: d' =>
      if str_eqb k k' then (k', v) :: d' else (k', v') :: dict_set k v d'
  end.

Definition dict_has {V} (k : pystr) (d : pydict V) : bool :=
  match dict_get k d with Some _ => true | None => false end.

End Py.
Export Py.

(** ** The [json] module *)

Module Json.

Inductive jvalue :=
| JNull
| JBool (b : bool)
| JInt (z : Z)
| JFloat (lit : pystr)   (* a float, kept as the literal it was read from *)
| JStr (s : pystr)
| JArr (l : list jvalue)
| JObj (d : list (pystr * jvalue)).

Definition decode_error (msg : string) : exn := Exn JSONDecodeError (py msg).

(** *** [json.decoder] *)

Definition is_ws (c : N) : bool :=
  (c =? 32) || (c =? 9) || (c =? 10) || (c =? 13).

Fixpoint skip_ws (s : pystr) : pystr :=
  match s with
  | c :: r => if is_ws c then skip_ws r else s
  | [] => []
  end.

Definition hexval (c : N) : option N :=
  if (48 <=? c) && (c <=? 57) then Some (c - 48)
  else if (97 <=? c) && (c <=? 102) then Some (c - 87)
  else if (65 <=? c) && (c <=? 70) then Some (c - 55)
  else None.

Definition decode_uXXXX (h1 h2 h3 h4 : N) : option N :=
  a ← hexval h1; b ← hexval h2; c ← hexval h3; d ← hexval h4;
  Some (((a * 16 + b) * 16 + c) * 16 + d).

(** The [BACKSLASH] table of [json.decoder]. *)
Definition backslash (e : N) : option N :=
  if e =? 34 then Some 34
  else if e =? 92 then Some 92
  else if e =? 47 then Some 47
  else if e =? 98 then Some 8
  else if e =? 102 then Some 12
  else if e =? 110 then Some 10
  else if e =? 114 then Some 13
  else if e =? 116 then Some 9
  else None.

Definition is_high (u : N) : bool := (0xD800 <=? u) && (u <=? 0xDBFF).
Definition is_low (u : N) : bool := (0xDC00 <=? u) && (u <=? 0xDFFF).
Definition join_surrogates (hi lo : N) : N :=
  0x10000 + ((hi - 0xD800) * 1024 + (lo - 0xDC00)).

Definition push (c : N) (r : result (pystr * pystr)) : result (pystr * pystr) :=
  '(s, t) ← r; Ok (c :: s, t).

(** [scanstring(s, end, strict=True)], entered after the opening quote:
    the decoded string and the text after the closing quote. *)
Fixpoint scanstring (s : pystr) : result (pystr * pystr) :=
  match s with
  | [] => Raise (decode_error "Unterminated string starting at")
  | c :: r =>
    if c =? 34 then Ok ([], r)
    else if c =? 92 then
      match r with
      | [] => Raise (decode_error "Unterminated string starting at")
      | e :: r1 =>
        if e =? 117 then
          match r1 with
          | h1 :: h2 :: h3 :: h4 :: r2 =>
            match decode_uXXXX h1 h2 h3 h4 with
            | None => Raise (decode_error "Invalid \uXXXX escape")
            | Some uni =>
              if is_high uni then
                match r2 with
                | b :: u :: r2' =>
                  if (b =? 92) && (u =? 117) then
                    match r2' with
                    | g1 :: g2 :: g3 :: g4 :: r3 =>
                      match decode_uXXXX g1 g2 g3 g4 with
                      | None => Raise (decode_error "Invalid \uXXXX escape")
                      | Some uni2 =>
                        if is_low uni2
                        then push (join_surrogates uni uni2) (scanstring r3)
                        else push uni (scanstring r2)
                      end
                    | _ => Raise (decode_error "Invalid \uXXXX escape")
                    end
                  else push uni (scanstring r2)
                | _ => push uni (scanstring r2)
                end
              else push uni (scanstring r2)
            end
          | _ => Raise (decode_error "Invalid \uXXXX escape")
          end
        else
          match backslash e with
          | Some ch => push ch (scanstring r1)
          | None => Raise (decode_error "Invalid \escape")
          end
      end
    else if c <? 32 then Raise (decode_error "Invalid control character at")
    else push c (scanstring r)
  end.

Definition is_digit (c : N) : bool := (48 <=? c) && (c <=? 57).

Fixpoint span_digits (s : pystr) : pystr * pystr :=
  match s with
  | c :: r =>
      if is_digit c then let '(d, t) := span_digits r in (c :: d, t)
      else ([], s)
  | [] => ([], [])
  end.

Definition digits_value (d : pystr) : Z :=
  fold_left (λ acc c, acc * 10 + Z.of_N (c - 48))%Z d 0%Z.

(** [int(lit)] for a literal matched by the integer group. *)
Definition int_of_lit (lit : pystr) : Z :=
  match lit with
  | c :: d => if c =? 45 then (- digits_value d)%Z else digits_value lit
  | [] => 0%Z
  end.

(** The three groups of [NUMBER_RE]: an optional minus sign and either a
    single zero or a digit run that starts with a nonzero digit; a fraction
    (a dot and digits); an exponent (e or E, an optional sign, digits). *)
Definition match_integer (s : pystr) : option (pystr * pystr) :=
  let '(sign, s1) :=
    match s with
    | c :: r => if c =? 45 then ([c], r) else ([], s)
    | [] => ([], s)
    end in
  match s1 with
  | c :: r =>
      if c =? 48 then Some (sign ++ [c], r)
      else if is_digit c then
        let '(d, t) := span_digits r in Some (sign ++ c :: d, t)
      else None
  | [] => None
  end.

Definition match_frac (s : pystr) : pystr * pystr :=
  match s with
  | c :: r =>
      if c =? 46 then
        match span_digits r with
        | ([], _) => ([], s)
        | (d, t) => (c :: d, t)
        end
      else ([], s)
  | [] => ([], s)
  end.

Definition match_exp (s : pystr) : pystr * pystr :=
  match s with
  | c :: r =>
      if (c =? 101) || (c =? 69) then
        let '(sign, r1) :=
          match r with
          | g :: r' => if (g =? 45) || (g =? 43) then ([g], r') else ([], r)
          | [] => ([], r)
          end in
        match span_digits r1 with
        | ([], _) => ([], s)
        | (d, t) => (c :: sign ++ d, t)
        end
      else ([], s)
  | [] => ([], s)
  end.

Definition match_number (s : pystr) : option (jvalue * pystr) :=
  '(i, s1) ← match_integer s;
  let '(f, s2) := match_frac s1 in
  let '(e, s3) := match_exp s2 in
  match f, e with
  | [], [] => Some (JInt (int_of_lit i), s3)
  | _, _ => Some (JFloat (i ++ f ++ e), s3)
  end.

(** The outcome of a scanner call that is given [fuel] for its nesting. *)
Inductive scan (A : Type) :=
| Scanned (a : A) (rest : pystr)
| ScanError (e : exn)
| OutOfFuel.
Arguments Scanned {A} a rest.
Arguments ScanError {A} e.
Arguments OutOfFuel {A}.

Definition expecting_value : exn := decode_error "Expecting value".
Definition expecting_comma : exn := decode_error "Expecting ',' delimiter".
Definition expecting_colon : exn := decode_error "Expecting ':' delimiter".
Definition expecting_name : exn :=
  decode_error "Expecting property name enclosed in double quotes".

(** [scan_once] of [py_make_scanner] with [JSONArray] and [JSONObject]:
    [array_loop] and [object_loop] are their [while True] loops, the
    second entered after the opening quote of a key. *)
Fixpoint scan_once (n : nat) (s : pystr) : scan jvalue :=
  match n with
  | O => OutOfFuel
  | S n =>
    match s with
    | [] => ScanError expecting_value
    | c :: r =>
      if c =? 34 then
        match scanstring r with
        | Ok (str, t) => Scanned (JStr str) t
        | Raise e => ScanError e
        end
      else if c =? 123 then
        match skip_ws r with
        | c1 :: r1 =>
            if c1 =? 125 then Scanned (JObj []) r1
            else if c1 =? 34 then object_loop n r1 []
            else ScanError expecting_name
        | [] => ScanError expecting_name
        end
      else if c =? 91 then
        match skip_ws r with
        | c1 :: r1 =>
            if c1 =? 93 then Scanned (JArr []) r1
            else array_loop n (c1 :: r1) []
        | [] => ScanError expecting_value
        end
      else if startswith (py "null") s then Scanned JNull (drop 4 s)
      else if startswith (py "true") s then Scanned (JBool true) (drop 4 s)
      else if startswith (py "false") s then Scanned (JBool false) (drop 5 s)
      else
        match match_number s with
        | Some (v, t) => Scanned v t
        | None =>
            if startswith (py "NaN") s then
              Scanned (JFloat (py "NaN")) (drop 3 s)
            else if startswith (py "Infinity") s then
              Scanned (JFloat (py "Infinity")) (drop 8 s)
            else if startswith (py "-Infinity") s then
              Scanned (JFloat (py "-Infinity")) (drop 9 s)
            else ScanError expecting_value
        end
    end
  end
with array_loop (n : nat) (s : pystr) (values : list jvalue) : scan jvalue :=
  match n with
  | O => OutOfFuel
  | S n =>
    match scan_once n s with
    | Scanned v t =>
        match skip_ws t with
        | c :: r =>
            if c =? 93 then Scanned (JArr (values ++ [v])) r
            else if c =? 44 then array_loop n (skip_ws r) (values ++ [v])
            else ScanError expecting_comma
        | [] => ScanError expecting_comma
        end
    | ScanError e => ScanError e
    | OutOfFuel => OutOfFuel
    end
  end
with object_loop (n : nat) (s : pystr) (pairs : pydict jvalue) : scan jvalue :=
  match n with
  | O => OutOfFuel
  | S n =>
    match scanstring s with
    | Raise e => ScanError e
    | Ok (key, t) =>
      match skip_ws t with
      | c :: r =>
        if c =? 58 then
          match scan_once n (skip_ws r) with
          | Scanned v t2 =>
            match skip_ws t2 with
            | c2 :: r2 =>
                if c2 =? 125 then Scanned (JObj (dict_set key v pairs)) r2
                else if c2 =? 44 then
                  match skip_ws r2 with
                  | q :: r3 =>
                      if q =? 34 then object_loop n r3 (dict_set key v pairs)
                      else ScanError expecting_name
                  | [] => ScanError expecting_name
                  end
                else ScanError expecting_comma
            | [] => ScanError expecting_comma
            end
          | ScanError e => ScanError e
          | OutOfFuel => OutOfFuel
          end
        else ScanError expecting_colon
      | [] => ScanError expecting_colon
      end
    end
  end.

(** Fuel for a text of this length. *)
Definition scan_fuel (s : pystr) : nat := 2 * length s + 2.

(** [json.loads(s)] for a [str]: [JSONDecoder.decode].  The fuel is enough
    for every text, so the last branch is never taken: the recursion limit
    of the interpreter is not modelled. *)
Definition loads (s : pystr) : result jvalue :=
  if startswith [0xFEFF] s then
    Raise (decode_error "Unexpected UTF-8 BOM (decode using utf-8-sig)")
  else
    match scan_once (scan_fuel s) (skip_ws s) with
    | Scanned v t =>
        match skip_ws t with
        | [] => Ok v
        | _ :: _ => Raise (decode_error "Extra data")
        end
    | ScanError e => Raise e
    | OutOfFuel =>
        Raise (Exn RecursionError (py "maximum recursion depth exceeded"))
    end.

(** *** [json.encoder] *)

Definition hexdigit (d : N) : N := if d <? 10 then 48 + d else 87 + d.

(** [ESCAPE_DCT]: what [encode_basestring] writes for one code point. *)
Definition escape_char (c : N) : pystr :=
  if c =? 34 then [92; 34]
  else if c =? 92 then [92; 92]
  else if c =? 10 then [92; 110]
  else if c =? 13 then [92; 114]
  else if c =? 9 then [92; 116]
  else if c =? 8 then [92; 98]
  else if c =? 12 then [92; 102]
  else if c <? 32 then [92; 117; 48; 48; hexdigit (c / 16); hexdigit (c mod 16)]
  else [c].

(** [encode_basestring(s)], the string encoder under [ensure_ascii=False]. *)
Definition encode_basestring (s : pystr) : pystr :=
  34 :: flat_map escape_char s ++ [34].

End Json.
Export Json.


(** ** State and exceptions

    A method body is a function of the mutable state that ends in a value
    or in a raised exception; what it changed before raising stays
    changed. *)

Module StateExn.

Definition SE (S A : Type) : Type := S → result A * S.

#[global] Instance SE_ret {S} : MRet (SE S) := λ A a st, (Ok a, st).
#[global] Instance SE_bind {S} : MBind (SE S) := λ A B f m st,
  match m st with
  | (Ok a, st') => f a st'
  | (Raise e, st') => (Raise e, st')
  end.

Definition raise {S A} (e : exn) : SE S A := λ st, (Raise e, st).
Definition get {S} : SE S S := λ st, (Ok st, st).
Definition modify {S} (f : S → S) : SE S unit := λ st, (Ok tt, f st).
Definition lift {S A} (r : result A) : SE S A := λ st, (r, st).

(** An [if] without [else]. *)
Definition when {S} (b : bool) (body : SE S unit) : SE S unit :=
  if b then body else mret tt.

(** [try: body  except Exception as e: handler e] *)
Definition try {S A} (body : SE S A) (handler : exn → SE S A) : SE S A :=
  λ st,
  match body st with
  | (Ok a, st') => (Ok a, st')
  | (Raise e, st') => handler e st'
  end.

(** A body that raises from no state. *)
Definition never_raises {S A} (m : SE S A) : Prop :=
  ∀ st, ∃ a st', m st = (Ok a, st').

(** A body that keeps the state within [R] of where it started, however
    it ends. *)
Definition stable {S A} (R : relation S) (m : SE S A) : Prop :=
  ∀ st, R st (m st).2.

End StateExn.
Export StateExn.

(** ** [MCPServer] and [MCPManager] *)

Module MCP.

(** The dataclass.  [args] and [env] default to [None]. *)
Record MCPServer := {
  name : pystr;
  command : list pystr;
  args : option (list pystr);
  env : option (gmap pystr pystr);
  description : pystr
}.

Definition __post_init__ (self : MCPServer) : MCPServer :=
  let self :=
    match args self with
    | None =>
        {| name := name self; command := command self; args := Some [];
           env := env self; description := description self |}
    | Some _ => self
    end in
  match env self with
  | None =>
      {| name := name self; command := command self; args := args self;
         env := Some ∅; description := description self |}
  | Some _ => self
  end.

(** [MCPServer(name, command, args, env, description)]: the generated
    [__init__] stores the fields and calls [__post_init__]. *)
Definition MCPServer_new (name : pystr) (command : list pystr)
    (args : option (list pystr)) (env : option (gmap pystr pystr))
    (description : pystr) : MCPServer :=
  __post_init__
    {| name := name; command := command; args := args; env := env;
       description := description |}.

(** *** Python operators on decoded JSON values *)

Definition PyNone : jvalue := JNull.

Definition type_name (v : jvalue) : string :=
  match v with
  | JNull => "NoneType" | JBool _ => "bool" | JInt _ => "int"
  | JFloat _ => "float" | JStr _ => "str" | JArr _ => "list" | JObj _ => "dict"
  end.

Definition type_error (parts : list string) : exn :=
  Exn TypeError (py (String.concat "" parts)).

(** [key in v] for a [str] key. *)
Definition py_in (key : pystr) (v : jvalue) : result bool :=
  match v with
  | JObj d => Ok (dict_has key d)
  | JArr l =>
      Ok (existsb (λ x, match x with JStr s => str_eqb s key | _ => false end) l)
  | JStr s => Ok (str_contains key s)
  | _ => Raise (type_error ["argument of type '"; type_name v; "' is not iterable"])
  end.

(** [v[key]] for a [str] key. *)
Definition py_getitem (v : jvalue) (key : pystr) : result jvalue :=
  match v with
  | JObj d =>
      match dict_get key d with
      | Some x => Ok x
      | None => Raise (Exn KeyError (py "'" ++ key ++ py "'"))
      end
  | JArr _ => Raise (type_error ["list indices must be integers or slices, not str"])
  | JStr _ => Raise (type_error ["string indices must be integers, not 'str'"])
  | _ => Raise (type_error ["'"; type_name v; "' object is not subscriptable"])
  end.

(** [len(v)] *)
Definition py_len (v : jvalue) : result nat :=
  match v with
  | JObj d => Ok (length d)
  | JArr l => Ok (length l)
  | JStr s => Ok (length s)
  | _ => Raise (type_error ["object of type '"; type_name v; "' has no len()"])
  end.

(** The items [for x in v] runs over. *)
Definition py_iter (v : jvalue) : result (list jvalue) :=
  match v with
  | JArr l => Ok l
  | JObj d => Ok ((λ kv, JStr kv.1) <$> d)
  | JStr s => Ok ((λ c, JStr [c]) <$> s)
  | _ => Raise (type_error ["'"; type_name v; "' object is not iterable"])
  end.

(** [v.copy()] *)
Definition py_copy (v : jvalue) : result jvalue :=
  match v with
  | JObj d => Ok (JObj d)
  | JArr l => Ok (JArr l)
  | _ => Raise (Exn AttributeError
                  (py (String.concat "" ["'"; type_name v; "' object has no attribute 'copy'"])))
  end.

(** [v[key] = x] for a [str] key. *)
Definition py_setitem (v : jvalue) (key : pystr) (x : jvalue) : result jvalue :=
  match v with
  | JObj d => Ok (JObj (dict_set key x d))
  | JArr _ => Raise (type_error ["list indices must be integers or slices, not str"])
  | _ => Raise (type_error ["'"; type_name v; "' object does not support item assignment"])
  end.

(** *** Child processes *)

(** A child runs until it is terminated; one that exits by itself is not
    modelled. *)
Inductive pstatus := Running | Terminated.

(** What a spawned child will do: the text it writes to its stdout before
    closing it, and whether its stdin is already closed when the parent
    writes.  A read never blocks for ever: every child writes its text and
    closes its stdout. *)
Record child := { c_stdout : pystr; c_stdin_broken : bool }.

(** A [subprocess.Popen] object; the manager holds it by its index in the
    process table.  [p_stdin] is what was written to the child, one
    request per line, kept as the value that [json.dumps] was given. *)
Record process := {
  p_cmd : list pystr;
  p_env : gmap pystr pystr;
  p_status : pstatus;
  p_stdin : list jvalue;
  p_stdin_broken : bool;
  p_stdout : pystr
}.

(** The calls to [logger]. *)
Inductive log_entry :=
| AddedServer (name : pystr)
| ServerNotFound (name : pystr)
| StartedServer (name : pystr)
| FailedToStart (name : pystr) (e : exn)
| ServerInitialized (name : pystr) (data : jvalue)
| FailedToInitialize (name : pystr) (e : exn)
| GotTools (n : nat) (name : pystr)
| FailedToGetTools (name : pystr) (e : exn)
| FailedToCallTool (tool name : pystr) (e : exn)
| StoppedServer (name : pystr).

(** The three dictionaries of an [MCPManager], the processes it has
    spawned and the log. *)
Record state := {
  servers : gmap pystr MCPServer;
  active_connections : gmap pystr nat;
  available_tools : pydict jvalue;
  procs : list process;
  log : list log_entry
}.

Definition MCPManager_new : state :=
  {| servers := ∅; active_connections := ∅; available_tools := [];
     procs := []; log := [] |}.

Definition set_servers (f : gmap pystr MCPServer → gmap pystr MCPServer)
    (st : state) : state :=
  {| servers := f (servers st); active_connections := active_connections st;
     available_tools := available_tools st; procs := procs st; log := log st |}.

Definition set_active (f : gmap pystr nat → gmap pystr nat) (st : state) : state :=
  {| servers := servers st; active_connections := f (active_connections st);
     available_tools := available_tools st; procs := procs st; log := log st |}.

Definition set_tools (f : pydict jvalue → pydict jvalue) (st : state) : state :=
  {| servers := servers st; active_connections := active_connections st;
     available_tools := f (available_tools st); procs := procs st; log := log st |}.

Definition set_procs (f : list process → list process) (st : state) : state :=
  {| servers := servers st; active_connections := active_connections st;
     available_tools := available_tools st; procs := f (procs st); log := log st |}.

Definition logger (e : log_entry) : SE state unit :=
  modify (λ st,
    {| servers := servers st; active_connections := active_connections st;
       available_tools := available_tools st; procs := procs st;
       log := log st ++ [e] |}).

Definition set_status (s : pstatus) (p : process) : process :=
  {| p_cmd := p_cmd p; p_env := p_env p; p_status := s; p_stdin := p_stdin p;
     p_stdin_broken := p_stdin_broken p; p_stdout := p_stdout p |}.

Definition sent (v : jvalue) (p : process) : process :=
  {| p_cmd := p_cmd p; p_env := p_env p; p_status := p_status p;
     p_stdin := p_stdin p ++ [v]; p_stdin_broken := p_stdin_broken p;
     p_stdout := p_stdout p |}.

Definition unread (rest : pystr) (p : process) : process :=
  {| p_cmd := p_cmd p; p_env := p_env p; p_status := p_status p;
     p_stdin := p_stdin p; p_stdin_broken := p_stdin_broken p;
     p_stdout := rest |}.

(** The [Popen] object of a child that has just been started. *)
Definition spawned (cmd : list pystr) (env : gmap pystr pystr) (c : child)
    : process :=
  {| p_cmd := cmd; p_env := env; p_status := Running; p_stdin := [];
     p_stdin_broken := c_stdin_broken c; p_stdout := c_stdout c |}.

Definition no_process : exn := Exn Exception (py "no such process").

(** [process.stdin.write(json.dumps(request) + "\n"); process.stdin.flush()] *)
Definition stdin_write (pid : nat) (request : jvalue) : SE state unit :=
  st ← get;
  match procs st !! pid with
  | None => raise no_process
  | Some p =>
      if p_stdin_broken p
      then raise (Exn BrokenPipeError (py "[Errno 32] Broken pipe"))
      else modify (set_procs (alter (sent request) pid))
  end.

(** [process.stdout.readline()] *)
Definition stdout_readline (pid : nat) : SE state pystr :=
  st ← get;
  match procs st !! pid with
  | None => raise no_process
  | Some p =>
      let '(line, rest) := readline (p_stdout p) in
      modify (set_procs (alter (unread rest) pid));; mret line
  end.

(** [process.terminate()] *)
Definition terminate (pid : nat) : SE state unit :=
  modify (set_procs (alter (set_status Terminated) pid)).

(** [process.poll() is None] *)
Definition is_running (st : state) (pid : nat) : bool :=
  match procs st !! pid with
  | Some p => match p_status p with Running => true | Terminated => false end
  | None => false
  end.

(** [self.active_connections[server_name]] *)
Definition connection (server_name : pystr) : SE state nat :=
  st ← get;
  match active_connections st !! server_name with
  | Some pid => mret pid
  | None => raise (Exn KeyError (py "'" ++ server_name ++ py "'"))
  end.

Definition init_request : jvalue :=
  JObj [(py "jsonrpc", JStr (py "2.0")); (py "id", JInt 1);
        (py "method", JStr (py "initialize"));
        (py "params",
         JObj [(py "protocolVersion", JStr (py "2024-11-05"));
               (py "capabilities", JObj [(py "tools", JObj [])]);
               (py "clientInfo",
                JObj [(py "name", JStr (py "LM Studio Chatbot"));
                      (py "version", JStr (py "1.0.0"))])])].

Definition tools_request : jvalue :=
  JObj [(py "jsonrpc", JStr (py "2.0")); (py "id", JInt 2);
        (py "method", JStr (py "tools/list")); (py "params", JObj [])].

Definition tool_request (tool_name : pystr) (arguments : jvalue) : jvalue :=
  JObj [(py "jsonrpc", JStr (py "2.0")); (py "id", JInt 3);
        (py "method", JStr (py "tools/call"));
        (py "params",
         JObj [(py "name", JStr tool_name); (py "arguments", arguments)])].

Section Manager.

(** The environment of the parent and the operating system: the [n]-th
    [subprocess.Popen(cmd, env=env, ...)] either raises or starts a
    child. *)
Variable os_environ : gmap pystr pystr.
Variable popen : nat → list pystr → gmap pystr pystr → result child.

Definition add_server (server : MCPServer) : SE state unit :=
  modify (set_servers <[name server := server]>);;
  logger (AddedServer (name server)).

(** [env = os.environ.copy(); env.update(server.env)] *)
Definition child_env (server : MCPServer) : result (gmap pystr pystr) :=
  match env server with
  | Some e => Ok (e ∪ os_environ)
  | None => Raise (type_error ["'NoneType' object is not iterable"])
  end.

(** [cmd = server.command + server.args] *)
Definition child_cmd (server : MCPServer) : result (list pystr) :=
  match args server with
  | Some a => Ok (command server ++ a)
  | None => Raise (Exn TypeError (pyq "can only concatenate list (not 'NoneType') to list"))
  end.

Definition Popen (cmd : list pystr) (env : gmap pystr pystr) : SE state nat :=
  st ← get;
  c ← lift (popen (length (procs st)) cmd env);
  modify (set_procs (λ ps, ps ++ [spawned cmd env c]));;
  mret (length (procs st)).

Definition _get_tools (server_name : pystr) : SE state unit :=
  try
    (process ← connection server_name;
     stdin_write process tools_request;;
     response ← stdout_readline process;
     if truthy response then
       data ← lift (loads (strip response));
       has_result ← lift (py_in (py "result") data);
       when has_result
         (result_ ← lift (py_getitem data (py "result"));
          has_tools ← lift (py_in (py "tools") result_);
          when has_tools
            (tools ← lift (py_getitem result_ (py "tools"));
             modify (set_tools (dict_set server_name tools));;
             n ← lift (py_len tools);
             logger (GotTools n server_name)))
     else mret tt)
    (λ e, logger (FailedToGetTools server_name e)).

Definition _initialize_server (server_name : pystr) : SE state unit :=
  try
    (process ← connection server_name;
     stdin_write process init_request;;
     response ← stdout_readline process;
     if truthy response then
       data ← lift (loads (strip response));
       logger (ServerInitialized server_name data);;
       _get_tools server_name
     else mret tt)
    (λ e, logger (FailedToInitialize server_name e)).

Definition start_server (server_name : pystr) : SE state bool :=
  st ← get;
  match servers st !! server_name with
  | None => logger (ServerNotFound server_name);; mret false
  | Some server =>
      try
        (env ← lift (child_env server);
         cmd ← lift (child_cmd server);
         process ← Popen cmd env;
         modify (set_active <[server_name := process]>);;
         logger (StartedServer server_name);;
         _initialize_server server_name;;
         mret true)
        (λ e, logger (FailedToStart server_name e);; mret false)
  end.

(** A call that falls off the end of the [try] block returns [None]. *)
Definition call_tool (server_name tool_name : pystr) (arguments : jvalue)
    : SE state jvalue :=
  st ← get;
  match active_connections st !! server_name with
  | None =>
      raise (Exn Exception (py "Server " ++ server_name ++ py " not connected"))
  | Some _ =>
      try
        (process ← connection server_name;
         stdin_write process (tool_request tool_name arguments);;
         response ← stdout_readline process;
         if truthy response then
           data ← lift (loads (strip response));
           mret data
         else mret PyNone)
        (λ e, logger (FailedToCallTool tool_name server_name e);; raise e)
  end.

Definition stop_server (server_name : pystr) : SE state unit :=
  st ← get;
  match active_connections st !! server_name with
  | Some process =>
      terminate process;;
      modify (set_active (delete server_name));;
      logger (StoppedServer server_name)
  | None => mret tt
  end.

End Manager.

(** [get_server_status]: the status of every registered server. *)
Definition get_server_status (st : state) : gmap pystr pystr :=
  map_imap (λ name _,
    Some match active_connections st !! name with
         | Some process =>
             if is_running st process then py "running" else py "stopped"
         | None => py "not_started"
         end) (servers st).

(** The inner loop of [get_available_tools_list] for one server. *)
Definition tagged_tools (server_name : pystr) (tools : jvalue)
    : result (list jvalue) :=
  items ← py_iter tools;
  mapM (λ tool,
    tool_info ← py_copy tool;
    py_setitem tool_info (py "server") (JStr server_name)) items.

Definition get_available_tools_list (st : state) : result (list jvalue) :=
  all_tools ← mapM (λ '(server_name, tools), tagged_tools server_name tools)
                   (available_tools st);
  Ok (concat all_tools).

(** The processes the manager holds, and those that run but are no longer
    held: the manager can neither use nor stop them. *)
Definition held (st : state) (pid : nat) : bool :=
  bool_decide (pid ∈ (map_to_list (active_connections st)).*2).

Definition leaked (st : state) : list nat :=
  filter (λ pid, is_running st pid && negb (held st pid))
         (seq 0 (length (procs st))).

(** What a handshake logs when it ends at the reply to [initialize]:
    nothing for a missing line, the failure for a line that cannot be
    decoded. *)
Definition no_reply_log (server_name line : pystr) : list log_entry :=
  if truthy line then
    match loads (strip line) with
    | Raise e => [FailedToInitialize server_name e]
    | Ok _ => []
    end
  else [].

(** What no method but [start_server] and [stop_server] touches: the
    registered servers, the connections and the liveness of every
    process. *)
Definition same_lifecycle (st st' : state) : Prop :=
  servers st' = servers st
  ∧ active_connections st' = active_connections st
  ∧ p_status <$> procs st' = p_status <$> procs st.

End MCP.

(** ** Text files *)

Module TextFile.

(** The [utf-8] codec with the [strict] error handler. *)
Definition utf8_encode_char (c : N) : option (list N) :=
  if c <? 0x80 then Some [c]
  else if c <? 0x800 then Some [0xC0 + c / 64; 0x80 + c mod 64]
  else if is_surrogate c then None
  else if c <? 0x10000 then
    Some [0xE0 + c / 4096; 0x80 + (c / 64) mod 64; 0x80 + c mod 64]
  else if c <? 0x110000 then
    Some [0xF0 + c / 262144; 0x80 + (c / 4096) mod 64;
          0x80 + (c / 64) mod 64; 0x80 + c mod 64]
  else None.

Fixpoint utf8_encode (s : pystr) : option (list N) :=
  match s with
  | [] => Some []
  | c :: r =>
      b ← utf8_encode_char c;
      bs ← utf8_encode r;
      Some (b ++ bs)
  end.

Definition is_cont (b : N) : bool := (0x80 <=? b) && (b <? 0xC0).

Fixpoint utf8_decode (bs : list N) : option pystr :=
  match bs with
  | [] => Some []
  | b0 :: r =>
    if b0 <? 0x80 then cons b0 <$> utf8_decode r
    else if b0 <? 0xC2 then None
    else if b0 <? 0xE0 then
      match r with
      | b1 :: r1 =>
          if is_cont b1
          then cons ((b0 - 0xC0) * 64 + (b1 - 0x80)) <$> utf8_decode r1
          else None
      | _ => None
      end
    else if b0 <? 0xF0 then
      match r with
      | b1 :: b2 :: r2 =>
          let c := (b0 - 0xE0) * 4096 + (b1 - 0x80) * 64 + (b2 - 0x80) in
          if is_cont b1 && is_cont b2 && (0x800 <=? c) && negb (is_surrogate c)
          then cons c <$> utf8_decode r2
          else None
      | _ => None
      end
    else if b0 <? 0xF5 then
      match r with
      | b1 :: b2 :: b3 :: r3 =>
          let c := (b0 - 0xF0) * 262144 + (b1 - 0x80) * 4096
                   + (b2 - 0x80) * 64 + (b3 - 0x80) in
          if is_cont b1 && is_cont b2 && is_cont b3
             && (0x10000 <=? c) && (c <? 0x110000)
          then cons c <$> utf8_decode r3
          else None
      | _ => None
      end
    else None
  end.

(** The code points the codec can write: neither surrogates nor beyond
    the last code point. *)
Definition utf8_ok (c : N) : bool := is_code_point c && negb (is_surrogate c).

Definition encodable (s : pystr) : bool := forallb utf8_ok s.

(** The code points that are written and read back as they are. *)
Definition plain (c : N) : bool := utf8_ok c && negb (c =? 13).

(** Reading in text mode with [newline=None]: a carriage return, alone or
    before a line feed, is read as one line feed. *)
Fixpoint universal_newlines (s : pystr) : pystr :=
  match s with
  | [] => []
  | c :: r =>
      if c =? 13 then
        10 :: match r with
              | [] => []
              | d :: r' =>
                  if d =? 10 then universal_newlines r' else universal_newlines r
              end
      else c :: universal_newlines r
  end.

(** The files: path to bytes. *)
Abbreviation files := (gmap pystr (list N)).

(** [fp.write(chunk)] on a file opened with [encoding="utf-8"]; line feeds
    are written as they are ([os.linesep] of a POSIX system). *)
Definition write (path : pystr) (chunk : pystr) : SE files unit :=
  match utf8_encode chunk with
  | None =>
      raise (Exn UnicodeEncodeError
               (py "'utf-8' codec can't encode character: surrogates not allowed"))
  | Some bytes => modify (λ fs, <[path := default [] (fs !! path) ++ bytes]> fs)
  end.

(** [fp.read()] on [open(path, "r", encoding="utf-8")]. *)
Definition read (path : pystr) : SE files pystr :=
  fs ← get;
  match fs !! path with
  | None =>
      raise (Exn FileNotFoundError (py "[Errno 2] No such file or directory"))
  | Some bytes =>
      match utf8_decode bytes with
      | None =>
          raise (Exn UnicodeDecodeError (py "'utf-8' codec can't decode byte"))
      | Some text => mret (universal_newlines text)
      end
  end.

End TextFile.

(** ** [LMStudioMCPChatbot] *)

Module Chat.

(** A conversation turn, the dict [{"role": ..., "content": ...}]. *)
Record turn := { role : pystr; content : pystr }.

(** The model collaborator behind [self.client]: the identifiers of
    [models.list().data]; the content of the first choice of a completion;
    for a streamed completion the [delta.content] of each chunk and the
    exception that ends the iteration, if one does. *)
Record client := {
  models_list : result (list pystr);
  completion : pystr → list turn → result pystr;
  completion_stream : pystr → list turn → result (list (option pystr) * option exn)
}.

Record chatbot := {
  conversation_history : list turn;
  mcp_enabled : bool
}.

Definition LMStudioMCPChatbot_new : chatbot :=
  {| conversation_history := []; mcp_enabled := false |}.

(** [self.conversation_history.append({"role": role, "content": content})] *)
Definition append_turn (role content : pystr) : SE chatbot unit :=
  modify (λ self,
    {| conversation_history :=
         conversation_history self ++ [{| role := role; content := content |}];
       mcp_enabled := mcp_enabled self |}).

Definition clear_conversation : SE chatbot unit :=
  modify (λ self, {| conversation_history := []; mcp_enabled := mcp_enabled self |}).

(** [f"Error: {exc}"] *)
Definition error_text (exc : exn) : pystr := py "Error: " ++ exn_str exc.

(** [not model_name] for an [Optional[str]] *)
Definition no_name (model_name : option pystr) : bool :=
  match model_name with
  | None => true
  | Some s => negb (truthy s)
  end.

Definition no_models : exn :=
  Exn RuntimeError (py "No models available in LM Studio").

Definition user : pystr := py "user".
Definition assistant : pystr := py "assistant".

(** [not available or available[0].startswith("Error")] *)
Definition unavailable (available : list pystr) : bool :=
  match available with
  | [] => true
  | first :: _ => startswith (py "Error") first
  end.

Section Chatbot.

Variable cl : client.

Definition get_available_models : SE chatbot (list pystr) :=
  try (lift (models_list cl))
      (λ exc, mret [error_text exc]).

(** The [if not model_name:] block of [chat] and [stream_chat]. *)
Definition resolve_model (model_name : option pystr) : SE chatbot pystr :=
  if no_name model_name then
    available ← get_available_models;
    if unavailable available then raise no_models
    else mret (default [] (head available))
  else mret (default [] model_name).

Definition chat (message : pystr) (model_name : option pystr)
    : SE chatbot pystr :=
  append_turn user message;;
  try
    (model ← resolve_model model_name;
     self ← get;
     assistant_msg ← lift (completion cl model (conversation_history self));
     append_turn assistant assistant_msg;;
     mret assistant_msg)
    (λ exc, mret (error_text exc)).

(** *** [stream_chat], a generator

    The generator object is the point where its body is suspended:
    not yet started; at [yield delta] inside the loop, with [full] and the
    chunks still to come; at the [yield] of the [except] clause;
    finished. *)
Inductive generator :=
| Created (message : pystr) (model_name : option pystr)
| AtYieldDelta (full : pystr) (chunks : list (option pystr)) (fin : option exn)
| AtYieldError
| Finished.

(** The call [stream_chat(message, model_name)] runs nothing yet. *)
Definition stream_chat (message : pystr) (model_name : option pystr)
    : generator := Created message model_name.

(** The [for chunk in response] loop, from its head to the next [yield] or
    to the end of the body. *)
Fixpoint resume_loop (full : pystr) (chunks : list (option pystr))
    (fin : option exn) : SE chatbot (option pystr * generator) :=
  match chunks with
  | [] =>
      match fin with
      | Some exc => mret (Some (error_text exc), AtYieldError)
      | None => append_turn assistant full;; mret (None, Finished)
      end
  | delta :: rest =>
      match delta with
      | Some d =>
          if truthy d then mret (Some d, AtYieldDelta (full ++ d) rest fin)
          else resume_loop full rest fin
      | None => resume_loop full rest fin
      end
  end.

(** [next(gen)]: the fragment yielded, or [None] for [StopIteration]. *)
Definition next (gen : generator) : SE chatbot (option pystr * generator) :=
  match gen with
  | Created message model_name =>
      append_turn user message;;
      try
        (model ← resolve_model model_name;
         self ← get;
         '(chunks, fin) ← lift (completion_stream cl model (conversation_history self));
         resume_loop [] chunks fin)
        (λ exc, mret (Some (error_text exc), AtYieldError))
  | AtYieldDelta full chunks fin => resume_loop full chunks fin
  | AtYieldError => mret (None, Finished)
  | Finished => mret (None, Finished)
  end.

(** [gen.close()]: [GeneratorExit] is raised at the suspended [yield]; it
    is no [Exception], so no [except] clause of the body runs. *)
Definition close (gen : generator) : SE chatbot generator := mret Finished.

(** A consumer that asks for at most [n] fragments: [n] calls of [next],
    fewer when the generator stops. *)
Fixpoint take_fragments (n : nat) (gen : generator)
    : SE chatbot (list pystr * generator) :=
  match n with
  | O => mret ([], gen)
  | S n =>
      '(item, gen) ← next gen;
      match item with
      | None => mret ([], gen)
      | Some fragment =>
          '(more, gen) ← take_fragments n gen;
          mret (fragment :: more, gen)
      end
  end.

End Chatbot.

(** What the model listing amounts to for the callers of
    [get_available_models]: the identifiers, or the error as the one
    element of the list. *)
Definition listing (cl : client) : list pystr :=
  match models_list cl with
  | Ok ids => ids
  | Raise exc => [error_text exc]
  end.

(** The model a request goes to, when there is one: the name given, else
    the first identifier listed. *)
Definition chosen_model (cl : client) (model_name : option pystr)
    : option pystr :=
  if no_name model_name then
    if unavailable (listing cl) then None else head (listing cl)
  else model_name.

(** The text a stream carries, and the fragments a consumer is handed:
    the deltas that are neither [None] nor empty. *)
Definition stream_text (chunks : list (option pystr)) : pystr :=
  concat (omap id chunks).

Definition fragments (chunks : list (option pystr)) : list pystr :=
  filter (λ d, truthy d) (omap id chunks).

(** The chatbot once the user turn, and once the assistant turn after it,
    is appended. *)
Definition asked (message : pystr) (self : chatbot) : chatbot :=
  {| conversation_history :=
       conversation_history self ++ [{| role := user; content := message |}];
     mcp_enabled := mcp_enabled self |}.

Definition answered (message text : pystr) (self : chatbot) : chatbot :=
  {| conversation_history :=
       conversation_history self
       ++ [{| role := user; content := message |}]
       ++ [{| role := assistant; content := text |}];
     mcp_enabled := mcp_enabled self |}.

(** The chatbot with one more assistant turn. *)
Definition commit (full : pystr) (st : chatbot) : chatbot :=
  {| conversation_history :=
       conversation_history st ++ [{| role := assistant; content := full |}];
     mcp_enabled := mcp_enabled st |}.

(** *** [save_conversation] and [load_conversation] *)

(** The chunks [json.JSONEncoder(indent=2, ensure_ascii=False).iterencode]
    yields for one turn inside the list. *)
Definition turn_chunks (t : turn) : list pystr :=
  [ py "{"; 10 :: py "    ";
    encode_basestring (py "role"); py ": "; encode_basestring (role t);
    44 :: 10 :: py "    ";
    encode_basestring (py "content"); py ": "; encode_basestring (content t);
    10 :: py "  "; py "}" ].

(** [separator = _item_separator + newline_indent] inside the list. *)
Definition separator : pystr := 44 :: 10 :: py "  ".

Fixpoint items_chunks (buf : pystr) (history : list turn) : list pystr :=
  match history with
  | [] => []
  | t :: rest => buf :: turn_chunks t ++ items_chunks separator rest
  end.

(** ... and for the history, a list of such dicts. *)
Definition iterencode (history : list turn) : list pystr :=
  match history with
  | [] => [py "[]"]
  | _ :: _ => items_chunks (91 :: 10 :: py "  ") history ++ [[10]; py "]"]
  end.

(** The dict of a turn. *)
Definition turn_json (t : turn) : jvalue :=
  JObj [(py "role", JStr (role t)); (py "content", JStr (content t))].

(** A history whose strings the [utf-8] codec can write. *)
Definition history_encodable (history : list turn) : bool :=
  forallb (λ t, TextFile.encodable (role t) && TextFile.encodable (content t))
          history.

(** The turn a decoded dict stands for, when it is one. *)
Definition as_turn (v : jvalue) : option turn :=
  match v with
  | JObj [(k1, JStr r); (k2, JStr c)] =>
      if str_eqb k1 (py "role") && str_eqb k2 (py "content")
      then Some {| role := r; content := c |}
      else None
  | _ => None
  end.

Definition as_history (v : jvalue) : option (list turn) :=
  match v with
  | JArr l => mapM as_turn l
  | _ => None
  end.

(** A session: the chatbot and the files it can reach. *)
Record session := { bot : chatbot; fs : TextFile.files }.

Definition on_files {A} (m : SE TextFile.files A) : SE session A :=
  λ s, let '(r, fs') := m (fs s) in (r, {| bot := bot s; fs := fs' |}).

Section Persistence.

(** Whether [open(filename, "w")] succeeds. *)
Variable writable : pystr → bool.

(** [open(filename, "w", encoding="utf-8")] *)
Definition open_w (filename : pystr) : SE session unit :=
  if writable filename
  then on_files (modify <[filename := []]>)
  else raise (Exn OSError (py "cannot open file for writing")).

(** [for chunk in iterable: fp.write(chunk)] *)
Fixpoint write_chunks (filename : pystr) (chunks : list pystr) : SE session unit :=
  match chunks with
  | [] => mret tt
  | chunk :: rest =>
      on_files (TextFile.write filename chunk);; write_chunks filename rest
  end.

Definition save_conversation (filename : pystr) : SE session unit :=
  open_w filename;;
  self ← get;
  write_chunks filename (iterencode (conversation_history (bot self))).

(** [json.load] may return any JSON value; the chatbot of this model holds
    turns, so a value of another shape is handed back and not stored. *)
Inductive loaded :=
| Loaded
| NotAHistory (v : jvalue).

Definition load_conversation (filename : pystr) : SE session loaded :=
  text ← on_files (TextFile.read filename);
  v ← lift (loads text);
  match as_history v with
  | Some history =>
      modify (λ self,
        {| bot := {| conversation_history := history;
                     mcp_enabled := mcp_enabled (bot self) |};
           fs := fs self |});;
      mret Loaded
  | None => mret (NotAHistory v)
  end.

End Persistence.

End Chat.

(** ** Test doubles

    Children and a registry to run the manager on. *)

Module Stub.

Import MCP.

(** The three replies of a server with one tool. *)
Definition reply_initialize : pystr :=
  pyq "{'jsonrpc':'2.0','id':1,'result':{}}" ++ [10].
Definition reply_tools : pystr :=
  pyq "{'jsonrpc':'2.0','id':2,'result':{'tools':[{'name':'echo','description':'Echo'}]}}"
  ++ [10].
Definition reply_call : pystr :=
  pyq "{'jsonrpc':'2.0','id':3,'result':{'message':'hi'}}" ++ [10].

(** [good] answers the three requests; [mute] closes its stdout at once;
    [garbled] writes a line that is no JSON; [blank] answers the handshake
    and then writes an empty line; nothing else can be launched. *)
Definition popen (n : nat) (cmd : list pystr) (env : gmap pystr pystr)
    : result child :=
  if bool_decide (cmd = [py "good"]) then
    Ok {| c_stdout := reply_initialize ++ reply_tools ++ reply_call;
          c_stdin_broken := false |}
  else if bool_decide (cmd = [py "mute"]) then
    Ok {| c_stdout := []; c_stdin_broken := false |}
  else if bool_decide (cmd = [py "garbled"]) then
    Ok {| c_stdout := py "ready" ++ [10]; c_stdin_broken := false |}
  else if bool_decide (cmd = [py "blank"]) then
    Ok {| c_stdout := reply_initialize ++ reply_tools ++ [10];
          c_stdin_broken := false |}
  else Raise (Exn FileNotFoundError (py "[Errno 2] No such file or directory")).

Definition os_environ : gmap pystr pystr := {[ py "PATH" := py "/usr/bin" ]}.

Definition registry : state :=
  ((add_server (MCPServer_new (py "A") [py "good"] None None [])
    ;; add_server (MCPServer_new (py "M") [py "mute"] None None [])
    ;; add_server (MCPServer_new (py "G") [py "garbled"] None None [])
    ;; add_server (MCPServer_new (py "E") [py "blank"] None None [])
    ;; add_server (MCPServer_new (py "B") [py "missing"] None None []))
     MCPManager_new).2.

Definition start_server := MCP.start_server os_environ popen.

(** The state a run ends in. *)
Definition after {A} (m : SE state A) (st : state) : state := (m st).2.

(** A model collaborator that answers, in one piece or in chunks, and one
    that cannot be reached. *)
Definition answering : Chat.client :=
  {| Chat.models_list := Ok [py "model-1"; py "model-2"];
     Chat.completion := λ _ _, Ok (py "Hello there");
     Chat.completion_stream := λ _ _,
       Ok ([Some (py "Hel"); None; Some []; Some (py "lo "); Some (py "there")],
           None) |}.

Definition offline : Chat.client :=
  {| Chat.models_list := Raise (Exn OSError (py "Connection error."));
     Chat.completion := λ _ _, Raise (Exn OSError (py "Connection error."));
     Chat.completion_stream := λ _ _,
       Raise (Exn OSError (py "Connection error.")) |}.

(** A session with two turns (an accented letter, a quote, a backslash, a
    line break, a tab, a control character, a code point beyond the basic
    plane), and one whose user turn holds a lone surrogate. *)
Definition session : Chat.session :=
  {| Chat.bot :=
       {| Chat.conversation_history :=
            [ {| Chat.role := py "user";
                 Chat.content := py "caf" ++ [233; 32; 34; 92; 10; 9; 1] |};
              {| Chat.role := py "assistant";
                 Chat.content := py "ok " ++ [0x1F600; 0x20AC] |} ];
          Chat.mcp_enabled := true |};
     Chat.fs := ∅ |}.

Definition surrogate_session : Chat.session :=
  {| Chat.bot :=
       {| Chat.conversation_history :=
            [ {| Chat.role := py "user"; Chat.content := [0xD800] |} ];
          Chat.mcp_enabled := false |};
     Chat.fs := ∅ |}.

Definition always (filename : pystr) : bool := true.

(** Two servers of the registry and their children. *)
Definition server_A : MCPServer :=
  MCPServer_new (py "A") [py "good"] None None [].
Definition server_M : MCPServer :=
  MCPServer_new (py "M") [py "mute"] None None [].
Definition child_A : child :=
  {| c_stdout := reply_initialize ++ reply_tools ++ reply_call;
     c_stdin_broken := false |}.
Definition child_M : child := {| c_stdout := []; c_stdin_broken := false |}.

(** The registry after [A], and after [M], has been started once. *)
Definition started_A : state := after (start_server (py "A")) registry.
Definition started_M : state := after (start_server (py "M")) registry.

End Stub.

(** ** The rest of [MCPManager] *)

Module Lifecycle.

Import MCP.

(** The four servers of [add_default_servers]. *)
Definition filesystem_server : MCPServer :=
  MCPServer_new (py "filesystem")
    [py "npx"; py "-y"; py "@modelcontextprotocol/server-filesystem"]
    (Some [py "/path/to/allowed/directory"]) None
    (py "File system access for reading/writing files").

Definition sqlite_server : MCPServer :=
  MCPServer_new (py "sqlite")
    [py "npx"; py "-y"; py "@modelcontextprotocol/server-sqlite"]
    (Some [py "--db-path"; py "./database.sqlite"]) None
    (py "SQLite database access").

Definition brave_search_server : MCPServer :=
  MCPServer_new (py "brave-search")
    [py "npx"; py "-y"; py "@modelcontextprotocol/server-brave-search"]
    None (Some {[ py "BRAVE_API_KEY" := py "your-brave-api-key" ]})
    (py "Web search capabilities").

Definition github_server : MCPServer :=
  MCPServer_new (py "github")
    [py "npx"; py "-y"; py "@modelcontextprotocol/server-github"]
    None (Some {[ py "GITHUB_PERSONAL_ACCESS_TOKEN" := py "your-github-token" ]})
    (py "GitHub repository access").

Definition add_default_servers : SE state unit :=
  add_server filesystem_server;;
  add_server sqlite_server;;
  add_server brave_search_server;;
  add_server github_server.

(** [for server_name in names: self.stop_server(server_name)] *)
Fixpoint stop_each (names : list pystr) : SE state unit :=
  match names with
  | [] => mret tt
  | server_name :: rest => stop_server server_name;; stop_each rest
  end.

Section Keys.

(** [list(d.keys())]: the keys of a dict in the order they were inserted.
    The connections of this model are a map without that order, so the
    order is given from outside; [key_order] says what every such order
    satisfies. *)
Variable keys : gmap pystr nat → list pystr.

Definition stop_all_servers : SE state unit :=
  st ← get;
  stop_each (keys (active_connections st)).

End Keys.

Definition key_order (keys : gmap pystr nat → list pystr) : Prop :=
  ∀ m, keys m ≡ₚ (map_to_list m).*1.

(** One key order, for runs. *)
Definition sorted_keys (m : gmap pystr nat) : list pystr := (map_to_list m).*1.

(** The status [get_server_status] gives one name. *)
Definition status_of (st : state) (server_name : pystr) : pystr :=
  match active_connections st !! server_name with
  | Some process =>
      if is_running st process then py "running" else py "stopped"
  | None => py "not_started"
  end.

(** A registry as well-behaved servers leave it: every entry a list of
    dicts. *)
Definition is_dict (v : jvalue) : bool :=
  match v with JObj _ => true | _ => false end.

Definition tool_list (v : jvalue) : option (list jvalue) :=
  match v with
  | JArr l => if forallb is_dict l then Some l else None
  | _ => None
  end.

(** [tool_info = tool.copy(); tool_info["server"] = server_name] on a
    dict. *)
Definition tagged (server_name : pystr) (tool : jvalue) : jvalue :=
  match tool with
  | JObj d => JObj (dict_set (py "server") (JStr server_name) d)
  | _ => tool
  end.

(** What the aggregated list is for such a registry. *)
Definition catalog (registry : pydict jvalue) : list jvalue :=
  '(server_name, tools) ← registry;
  tagged server_name <$> default [] (tool_list tools).

(** The tools a decoded reply to [tools/list] carries at
    [data["result"]["tools"]], for a reply that is a dict with a dict
    under [result]. *)
Definition listed_tools (data : jvalue) : option jvalue :=
  match data with
  | JObj d =>
      match dict_get (py "result") d with
      | Some (JObj res) => dict_get (py "tools") res
      | _ => None
      end
  | _ => None
  end.

(** The handles the manager holds. *)
Definition handles (st : state) : list nat :=
  (map_to_list (active_connections st)).*2.

(** What holds of every manager reached from [MCPManager()]: each handle
    is a process that was spawned, and no process is held under two
    names. *)
Definition well_formed (st : state) : Prop :=
  Forall (λ pid, (pid < length (procs st))%nat) (handles st)
  ∧ NoDup (handles st).

(** [same_lifecycle], and the same tools. *)
Definition same_manager (st st' : state) : Prop :=
  same_lifecycle st st' ∧ available_tools st' = available_tools st.

(** [same_manager], and the same log: only what was written to and read
    from the children differs. *)
Definition only_pipes (st st' : state) : Prop :=
  same_manager st st' ∧ log st' = log st.

(** What [_get_tools] logs once it has stored [tools]: their number, or
    the failure of [len]. *)
Definition tools_entry (server_name : pystr) (tools : jvalue) : log_entry :=
  match py_len tools with
  | Ok n => GotTools n server_name
  | Raise e => FailedToGetTools server_name e
  end.

Section Launch.

Variable os_environ : gmap pystr pystr.
Variable popen : nat → list pystr → gmap pystr pystr → result child.

(** The three steps of [start_server] that can raise: the environment,
    the command line and the spawn. *)
Definition launch (st : state) (server : MCPServer)
    : result (list pystr * gmap pystr pystr * child) :=
  env ← child_env os_environ server;
  cmd ← child_cmd server;
  c ← popen (length (procs st)) cmd env;
  Ok (cmd, env, c).

End Launch.

End Lifecycle.

(** ** The rest of [LMStudioMCPChatbot] *)

Module Session.

Import MCP Chat Lifecycle.

(** What [enable_mcp] and [disable_mcp] log themselves.  They log to the
    logger of the manager; the order between the two kinds of entries is
    not kept. *)
Inductive notice :=
| ServerStarted (server_name : pystr)
| ServerFailed (server_name : pystr)
| McpEnabled
| McpDisabled.

(** The chatbot with its [mcp_manager]. *)
Record app := {
  self : chatbot;
  mcp_manager : state;
  notices : list notice
}.

Definition on_manager {A} (m : SE state A) : SE app A :=
  λ a, let '(r, st) := m (mcp_manager a) in
       (r, {| self := self a; mcp_manager := st; notices := notices a |}).

Definition on_chatbot {A} (m : SE chatbot A) : SE app A :=
  λ a, let '(r, b) := m (self a) in
       (r, {| self := b; mcp_manager := mcp_manager a; notices := notices a |}).

(** The note of one start: [logger.info] when it returned [True],
    [logger.error] when it returned [False]. *)
Definition noted (server_name : pystr) (success : bool) : notice :=
  if success then ServerStarted server_name else ServerFailed server_name.

Definition notify (n : notice) : SE app unit :=
  modify (λ a, {| self := self a; mcp_manager := mcp_manager a;
                  notices := notices a ++ [n] |}).

Definition set_mcp_enabled (b : bool) : SE app unit :=
  on_chatbot (modify (λ c, {| conversation_history := conversation_history c;
                              mcp_enabled := b |})).

(** [LMStudioMCPChatbot()]: an empty history, MCP disabled, a manager
    with the default servers. *)
Definition LMStudioMCPChatbot_init : app :=
  {| self := LMStudioMCPChatbot_new;
     mcp_manager := (add_default_servers MCPManager_new).2;
     notices := [] |}.

(** [str(v)], as an f-string formats [v], for the values whose text is
    fixed by their kind; floats and containers are left out. *)
Definition py_str (v : jvalue) : option pystr :=
  match v with
  | JStr s => Some s
  | JInt z => Some (py (pretty z))
  | JBool true => Some (py "True")
  | JBool false => Some (py "False")
  | JNull => Some (py "None")
  | _ => None
  end.

(** [v.get(key, default)] *)
Definition py_get (v : jvalue) (key : pystr) (default : jvalue) : result jvalue :=
  match v with
  | JObj d => Ok (from_option id default (dict_get key d))
  | _ => Raise (Exn AttributeError
                  (py (String.concat ""
                         ["'"; type_name v; "' object has no attribute 'get'"])))
  end.

(** The line of one tool in the system prompt:
    [f"- {tool['name']} ({tool['server']}): {tool.get('description', 'No description')}\n"];
    [None] when one of the three is a value [py_str] leaves out. *)
Definition tool_line (tool : jvalue) : result (option pystr) :=
  name ← py_getitem tool (py "name");
  server ← py_getitem tool (py "server");
  description ← py_get tool (py "description") (JStr (py "No description"));
  Ok (n ← py_str name; s ← py_str server; d ← py_str description;
      Some (py "- " ++ n ++ py " (" ++ s ++ py "): " ++ d ++ [10])).

Definition tools_header : pystr :=
  10 :: 10 :: py "You have access to the following tools via MCP:" ++ [10].

Definition tools_footer : pystr :=
  10 :: py "You can use these tools to help users with various tasks.".

(** The loop over the tools: the lines in order, [None] as for
    [tool_line]. *)
Fixpoint tool_lines (tools : list jvalue) : result (option pystr) :=
  match tools with
  | [] => Ok (Some [])
  | tool :: rest =>
      line ← tool_line tool;
      lines ← tool_lines rest;
      Ok (l ← line; ls ← lines; Some (l ++ ls))
  end.

(** What [add_system_prompt] did: appended the turn, or met a value whose
    text this model does not give (Python appends a turn then too). *)
Inductive prompted :=
| Prompted
| NotRendered.

Definition add_system_prompt (prompt : pystr) : SE app prompted :=
  a ← get;
  mcp_tools_info ←
    (if mcp_enabled (self a) then
       tools ← lift (get_available_tools_list (mcp_manager a));
       match tools with
       | [] => mret (Some [])
       | _ :: _ =>
           lines ← lift (tool_lines tools);
           mret (ls ← lines; Some (tools_header ++ ls ++ tools_footer))
       end
     else mret (Some []));
  match mcp_tools_info with
  | Some info =>
      on_chatbot (append_turn (py "system") (prompt ++ info));; mret Prompted
  | None => mret NotRendered
  end.

Definition default_servers : list pystr := [py "filesystem"; py "sqlite"].

Section App.

Variable os_environ : gmap pystr pystr.
Variable popen : nat → list pystr → gmap pystr pystr → result child.
Variable keys : gmap pystr nat → list pystr.

(** The loop of [enable_mcp]. *)
Fixpoint start_each (servers : list pystr) : SE app unit :=
  match servers with
  | [] => mret tt
  | server_name :: rest =>
      success ← on_manager (start_server os_environ popen server_name);
      notify (noted server_name success);;
      start_each rest
  end.

Definition enable_mcp (servers : option (list pystr)) : SE app unit :=
  start_each (from_option id default_servers servers);;
  set_mcp_enabled true;;
  notify McpEnabled.

Definition disable_mcp : SE app unit :=
  on_manager (stop_all_servers keys);;
  set_mcp_enabled false;;
  notify McpDisabled.

End App.

(** The dict [get_mcp_status] returns. *)
Record mcp_status := {
  enabled : bool;
  servers_status : gmap pystr pystr;
  tools : list jvalue
}.

Definition get_mcp_status (a : app) : result mcp_status :=
  tools ← get_available_tools_list (mcp_manager a);
  Ok {| enabled := mcp_enabled (self a);
        servers_status := get_server_status (mcp_manager a);
        tools := tools |}.

End Session.

(** ** More test doubles *)

Module Doubles.

Import MCP Chat Lifecycle Session.

(** What the replies of [Stub.popen]'s [good] child decode to. *)
Definition init_data : jvalue :=
  JObj [(py "jsonrpc", JStr (py "2.0")); (py "id", JInt 1);
        (py "result", JObj [])].

Definition echo_tools : jvalue :=
  JArr [JObj [(py "name", JStr (py "echo"));
              (py "description", JStr (py "Echo"))]].

Definition tools_data : jvalue :=
  JObj [(py "jsonrpc", JStr (py "2.0")); (py "id", JInt 2);
        (py "result", JObj [(py "tools", echo_tools)])].

Definition call_data : jvalue :=
  JObj [(py "jsonrpc", JStr (py "2.0")); (py "id", JInt 3);
        (py "result", JObj [(py "message", JStr (py "hi"))])].

(** A reply to [tools/list] whose [tools] is a number. *)
Definition odd_reply : pystr :=
  pyq "{'jsonrpc':'2.0','id':2,'result':{'tools':5}}" ++ [10].

Definition odd_data : jvalue :=
  JObj [(py "jsonrpc", JStr (py "2.0")); (py "id", JInt 2);
        (py "result", JObj [(py "tools", JInt 5)])].

(** The process of a server that has answered [initialize] and will write
    [out] next. *)
Definition awaiting_process (out : pystr) : process :=
  {| p_cmd := [py "server"]; p_env := ∅; p_status := Running;
     p_stdin := [init_request]; p_stdin_broken := false; p_stdout := out |}.

(** A manager with that server connected as [S]; it has tools of [S] from
    an earlier handshake, and the tools of a server [T]. *)
Definition awaiting (out : pystr) : state :=
  {| servers := ∅;
     active_connections := {[ py "S" := 0%nat ]};
     available_tools := [(py "S", JArr []); (py "T", echo_tools)];
     procs := [awaiting_process out];
     log := [] |}.

(** The process of [Stub.started_A]. *)
Definition process_A : process :=
  {| p_cmd := [py "good"]; p_env := ∅ ∪ Stub.os_environ;
     p_status := Running; p_stdin := [init_request; tools_request];
     p_stdin_broken := false; p_stdout := Stub.reply_call |}.

(** [A] and [M] started, in this order. *)
Definition started_A_M : state :=
  Stub.after (Stub.start_server (py "A");; Stub.start_server (py "M"))
    Stub.registry.

(** A model collaborator whose stream breaks after two chunks. *)
Definition connection_lost : exn := Exn OSError (py "Connection lost.").

Definition breaking : client :=
  {| models_list := Ok [py "model-1"];
     completion := λ _ _, Raise connection_lost;
     completion_stream := λ _ _,
       Ok ([Some (py "Hel"); None; Some (py "lo")], Some connection_lost) |}.

(** A chatbot with MCP enabled over the started [A]; one whose manager
    lists a tool without a name. *)
Definition enabled_A : app :=
  {| self := {| conversation_history := []; mcp_enabled := true |};
     mcp_manager := Stub.started_A; notices := [] |}.

Definition nameless_tool : list (pystr * jvalue) :=
  [(py "description", JStr (py "no name"))].

Definition nameless : app :=
  {| self := {| conversation_history := []; mcp_enabled := true |};
     mcp_manager :=
       {| servers := ∅; active_connections := ∅;
          available_tools := [(py "S", JArr [JObj nameless_tool])];
          procs := []; log := [] |};
     notices := [] |}.

(** A chatbot over the registry of [Stub], before and after it was
    asked to enable [A] and a name that is not registered. *)
Definition registered : app :=
  {| self := LMStudioMCPChatbot_new; mcp_manager := Stub.registry;
     notices := [] |}.

Definition enabled_A_nope : app :=
  (enable_mcp Stub.os_environ Stub.popen (Some [py "A"; py "nope"])
     registered).2.

Definition lone_surrogate : turn :=
  {| role := py "user"; content := [0xD800] |}.

End Doubles.

(** * Properties *)

(** ** Running monadic code *)

Ltac run_se :=
  repeat (unfold mbind, mret, SE_bind, SE_ret, result_bind, result_ret,
          StateExn.get, modify, lift, raise, try, when; cbn beta iota).

Section StateExnFacts.

Context {S : Type}.

(** One step of a run. *)
Lemma bind_ok {A B} (m : SE S A) (f : A → SE S B) st a st' :
  m st = (Ok a, st') → (m ≫= f) st = f a st'.
Proof. intros E. run_se. by rewrite E. Qed.

Lemma bind_raise {A B} (m : SE S A) (f : A → SE S B) st e st' :
  m st = (Raise e, st') → (m ≫= f) st = (Raise e, st').
Proof. intros E. run_se. by rewrite E. Qed.

Lemma bind_congr {A B} (m m' : SE S A) (f : A → SE S B) st st' :
  m st = m' st' → (m ≫= f) st = (m' ≫= f) st'.
Proof. intros E. run_se. by rewrite E. Qed.

Lemma try_ok {A} (body : SE S A) handler st a st' :
  body st = (Ok a, st') → try body handler st = (Ok a, st').
Proof. intros E. unfold try. by rewrite E. Qed.

Lemma try_raise {A} (body : SE S A) handler st e st' :
  body st = (Raise e, st') → try body handler st = handler e st'.
Proof. intros E. unfold try. by rewrite E. Qed.

Lemma never_raises_ret {A} (a : A) : never_raises (S:=S) (mret a).
Proof. intros st. by exists a, st. Qed.

Lemma never_raises_modify (f : S → S) : never_raises (modify f).
Proof. intros st. by exists tt, (f st). Qed.

Lemma never_raises_bind {A B} (m : SE S A) (f : A → SE S B) :
  never_raises m → (∀ a, never_raises (f a)) → never_raises (m ≫= f).
Proof.
  intros Hm Hf st. destruct (Hm st) as (a & st1 & E).
  destruct (Hf a st1) as (b & st2 & E2). exists b, st2.
  run_se. by rewrite E.
Qed.

(** Whatever the body does, a [try] whose handler does not raise does
    not raise. *)
Lemma never_raises_try {A} (body : SE S A) (handler : exn → SE S A) :
  (∀ e, never_raises (handler e)) → never_raises (try body handler).
Proof.
  intros Hh st. unfold try. destruct (body st) as [[a|e] st1].
  - by exists a, st1.
  - apply Hh.
Qed.

Context (R : relation S) `{!PreOrder R}.

Lemma stable_ret {A} (a : A) : stable R (mret a).
Proof. intros st. simpl. reflexivity. Qed.

Lemma stable_raise {A} (e : exn) : stable R (raise (A:=A) e).
Proof. intros st. simpl. reflexivity. Qed.

Lemma stable_lift {A} (r : result A) : stable R (lift r).
Proof. intros st. simpl. reflexivity. Qed.

Lemma stable_get : stable R StateExn.get.
Proof. intros st. simpl. reflexivity. Qed.

Lemma stable_modify (f : S → S) : (∀ st, R st (f st)) → stable R (modify f).
Proof. intros H st. apply H. Qed.

Lemma stable_bind {A B} (m : SE S A) (f : A → SE S B) :
  stable R m → (∀ a, stable R (f a)) → stable R (m ≫= f).
Proof.
  intros Hm Hf st. specialize (Hm st). run_se.
  destruct (m st) as [[a|e] st1]; simpl in *; [|done].
  etrans; [exact Hm|]. apply Hf.
Qed.

Lemma stable_try {A} (body : SE S A) (handler : exn → SE S A) :
  stable R body → (∀ e, stable R (handler e)) → stable R (try body handler).
Proof.
  intros Hb Hh st. specialize (Hb st). unfold try.
  destruct (body st) as [[a|e] st1]; simpl in *; [done|].
  etrans; [exact Hb|]. apply Hh.
Qed.

Lemma stable_when (b : bool) (body : SE S unit) :
  stable R body → stable R (when b body).
Proof. intros H. destruct b; [done|]. apply stable_ret. Qed.

End StateExnFacts.

(** ** JSON: decoding what the encoder writes *)

Section JsonFacts.

Lemma hexval_hexdigit d : d < 16 → hexval (hexdigit d) = Some d.
Proof.
  intros Hd. unfold hexdigit, hexval.
  destruct (d <? 10) eqn:E.
  - apply N.ltb_lt in E.
    assert (H1 : (48 <=? 48 + d) = true) by (apply N.leb_le; lia).
    assert (H2 : (48 + d <=? 57) = true) by (apply N.leb_le; lia).
    rewrite H1, H2. simpl. f_equal. lia.
  - apply N.ltb_ge in E.
    assert (H1 : (48 <=? 87 + d) = true) by (apply N.leb_le; lia).
    assert (H2 : (87 + d <=? 57) = false) by (apply N.leb_gt; lia).
    assert (H3 : (97 <=? 87 + d) = true) by (apply N.leb_le; lia).
    assert (H4 : (87 + d <=? 102) = true) by (apply N.leb_le; lia).
    rewrite H1, H2, H3, H4. simpl. f_equal. lia.
Qed.

Lemma decode_control c :
  c < 32 →
  decode_uXXXX 48 48 (hexdigit (c / 16)) (hexdigit (c mod 16)) = Some c.
Proof.
  intros Hc. unfold decode_uXXXX.
  assert (Hq : c / 16 < 16) by (apply N.Div0.div_lt_upper_bound; lia).
  assert (Hr : c mod 16 < 16) by (apply N.mod_lt; lia).
  change (hexval 48) with (Some 0). simpl.
  rewrite (hexval_hexdigit _ Hq), (hexval_hexdigit _ Hr). simpl.
  f_equal. pose proof (N.div_mod c 16). lia.
Qed.

(** [scanstring] undoes [escape_char], one code point at a time. *)
Lemma scanstring_escape_char c tail :
  scanstring (escape_char c ++ tail) = push c (scanstring tail).
Proof.
  unfold escape_char.
  repeat match goal with
  | |- context [if ?c =? ?k then _ else _] =>
      destruct (N.eqb_spec c k) as [->|?]; [reflexivity|]
  end.
  destruct (c <? 32) eqn:E.
  - apply N.ltb_lt in E.
    cbn [app scanstring]. change (92 =? 34) with false.
    change (92 =? 92) with true. change (117 =? 117) with true.
    cbn beta iota. rewrite (decode_control c E).
    assert (Hh : is_high c = false).
    { unfold is_high. apply andb_false_intro1. apply N.leb_gt. lia. }
    by rewrite Hh.
  - cbn [app scanstring].
    destruct (N.eqb_spec c 34); [done|]. destruct (N.eqb_spec c 92); [done|].
    by rewrite E.
Qed.

Lemma scanstring_escaped s tail :
  scanstring (flat_map escape_char s ++ 34 :: tail) = Ok (s, tail).
Proof.
  induction s as [|c s IH]; [done|].
  cbn [flat_map]. rewrite <-app_assoc, scanstring_escape_char, IH. done.
Qed.

End JsonFacts.

(** ** The scanner: progress and fuel *)

Section ScannerFacts.

Lemma length_skip_ws s : (length (skip_ws s) ≤ length s)%nat.
Proof.
  induction s as [|c s IH]; [done|]. simpl. destruct (is_ws c); simpl; lia.
Qed.

Lemma push_Ok c r k t :
  push c r = Ok (k, t) → ∃ k', r = Ok (k', t).
Proof.
  destruct r as [[k' t']|e]; [|done]. intros [= _ <-]. by exists k'.
Qed.

Lemma scanstring_progress_le n : ∀ s k t,
  (length s ≤ n)%nat → scanstring s = Ok (k, t) → (length t < length s)%nat.
Proof.
  induction n as [|n IH]; intros s k t Hlen H.
  { destruct s; [done|simpl in Hlen; lia]. }
  destruct s as [|c r]; [done|]. cbn [scanstring] in H.
  repeat (case_match; simplify_eq; try done);
    try (apply push_Ok in H as [k' H]; apply IH in H; simpl in *; lia).
  all: simpl; lia.
Qed.

(** A string that is scanned ends at its closing quote: text is consumed. *)
Lemma scanstring_progress s k t :
  scanstring s = Ok (k, t) → (length t < length s)%nat.
Proof. by apply (scanstring_progress_le (length s)). Qed.

Lemma span_digits_length s d t :
  span_digits s = (d, t) → (length t ≤ length s)%nat.
Proof.
  revert d t. induction s as [|c s IH]; intros d t; simpl.
  - by intros [= <- <-].
  - destruct (is_digit c).
    + destruct (span_digits s) as [d' t'] eqn:E. intros [= <- <-].
      specialize (IH _ _ eq_refl). lia.
    + intros [= <- <-]. simpl. lia.
Qed.

Lemma match_integer_progress s i t :
  match_integer s = Some (i, t) → (length t < length s)%nat.
Proof.
  unfold match_integer. intros H.
  repeat (case_match; simplify_eq; try done);
    repeat match goal with
    | E : span_digits _ = _ |- _ => apply span_digits_length in E
    end; simpl in *; lia.
Qed.

Lemma match_frac_length s f t :
  match_frac s = (f, t) → (length t ≤ length s)%nat.
Proof.
  unfold match_frac. intros H.
  repeat (case_match; simplify_eq; try done);
    repeat match goal with
    | E : span_digits _ = _ |- _ => apply span_digits_length in E
    end; simpl in *; lia.
Qed.

Lemma match_exp_length s e t :
  match_exp s = (e, t) → (length t ≤ length s)%nat.
Proof.
  unfold match_exp. intros H.
  repeat (case_match; simplify_eq; try done);
    repeat match goal with
    | E : span_digits _ = _ |- _ => apply span_digits_length in E
    end; simpl in *; lia.
Qed.

Lemma match_number_progress s v t :
  match_number s = Some (v, t) → (length t < length s)%nat.
Proof.
  unfold match_number. intros H.
  destruct (match_integer s) as [[i s1]|] eqn:Ei; [|done]. simpl in H.
  destruct (match_frac s1) as [f s2] eqn:Ef.
  destruct (match_exp s2) as [e s3] eqn:Ee.
  apply match_integer_progress in Ei. apply match_frac_length in Ef.
  apply match_exp_length in Ee.
  assert (t = s3) as -> by (destruct f, e; by simplify_eq). lia.
Qed.

(** What the equations of a case analysis say about lengths. *)
Ltac lengths :=
  repeat match goal with
  | E : scanstring _ = Ok _ |- _ => apply scanstring_progress in E
  | E : match_number _ = Some _ |- _ => apply match_number_progress in E
  | E : skip_ws ?s = _ |- _ =>
      let H := fresh in
      pose proof (length_skip_ws s) as H; rewrite E in H; clear E
  end.

(** Whatever the scanner returns, it has consumed text. *)
Lemma scan_progress n :
  (∀ s v t, scan_once n s = Scanned v t → (length t < length s)%nat)
  ∧ (∀ s vs v t, array_loop n s vs = Scanned v t → (length t < length s)%nat)
  ∧ (∀ s ps v t, object_loop n s ps = Scanned v t → (length t < length s)%nat).
Proof.
  induction n as [|n (IHs & IHa & IHo)]; [by split_and!|].
  split_and!.
  - intros s v t H. destruct s as [|c r]; [done|]. cbn [scan_once] in H.
    repeat (case_match; simplify_eq; try done);
      repeat match goal with
      | E : object_loop n _ _ = Scanned _ _ |- _ => apply IHo in E
      | E : array_loop n _ _ = Scanned _ _ |- _ => apply IHa in E
      end; lengths; rewrite ?length_drop; simpl in *; lia.
  - intros s vs v t H. cbn [array_loop] in H.
    repeat (case_match; simplify_eq; try done);
      repeat match goal with
      | E : scan_once n _ = Scanned _ _ |- _ => apply IHs in E
      | E : array_loop n _ _ = Scanned _ _ |- _ => apply IHa in E
      end; lengths; pose proof (length_skip_ws);
      repeat match goal with
      | E : context [length (skip_ws ?s)] |- _ =>
          lazymatch goal with
          | _ : (length (skip_ws s) ≤ length s)%nat |- _ => fail
          | _ => pose proof (length_skip_ws s)
          end
      end; simpl in *; lia.
  - intros s ps v t H. cbn [object_loop] in H.
    repeat (case_match; simplify_eq; try done);
      repeat match goal with
      | E : scan_once n _ = Scanned _ _ |- _ => apply IHs in E
      | E : object_loop n _ _ = Scanned _ _ |- _ => apply IHo in E
      end; lengths;
      repeat match goal with
      | E : context [length (skip_ws ?s)] |- _ =>
          lazymatch goal with
          | _ : (length (skip_ws s) ≤ length s)%nat |- _ => fail
          | _ => pose proof (length_skip_ws s)
          end
      end; simpl in *; lia.
Qed.

Ltac skip_lengths :=
  repeat match goal with
  | E : context [length (skip_ws ?s)] |- _ =>
      lazymatch goal with
      | _ : (length (skip_ws s) ≤ length s)%nat |- _ => fail
      | _ => pose proof (length_skip_ws s)
      end
  | |- context [length (skip_ws ?s)] =>
      lazymatch goal with
      | _ : (length (skip_ws s) ≤ length s)%nat |- _ => fail
      | _ => pose proof (length_skip_ws s)
      end
  end.

(** Fuel of twice the length of the text, and a little, is enough. *)
Lemma scan_fuel_enough n :
  (∀ s, (2 * length s + 2 ≤ n)%nat → scan_once n s ≠ OutOfFuel)
  ∧ (∀ s vs, (2 * length s + 3 ≤ n)%nat → array_loop n s vs ≠ OutOfFuel)
  ∧ (∀ s ps, (2 * length s + 1 ≤ n)%nat → object_loop n s ps ≠ OutOfFuel).
Proof.
  induction n as [|n (IHs & IHa & IHo)]; [split_and!; intros; lia|].
  destruct (scan_progress n) as (Ps & Pa & Po).
  split_and!.
  - intros s Hn H. destruct s as [|c r]; [done|]. cbn [scan_once] in H.
    repeat (case_match; simplify_eq; try done).
    + eapply IHo; [|exact H]. lengths. simpl in *. lia.
    + eapply IHa; [|exact H]. lengths. simpl in *. lia.
  - intros s vs Hn H. cbn [array_loop] in H.
    repeat (case_match; simplify_eq; try done).
    + eapply IHa; [|exact H].
      repeat match goal with
      | E : scan_once n _ = Scanned _ _ |- _ => apply Ps in E
      end. lengths. skip_lengths. simpl in *. lia.
    + eapply IHs; [|eassumption]. lia.
  - intros s ps Hn H. cbn [object_loop] in H.
    repeat (case_match; simplify_eq; try done).
    + eapply IHo; [|exact H].
      repeat match goal with
      | E : scan_once n _ = Scanned _ _ |- _ => apply Ps in E
      end. lengths. skip_lengths. simpl in *. lia.
    + eapply IHs; [|eassumption]. lengths. skip_lengths. simpl in *. lia.
Qed.

(** [loads] never runs out of fuel. *)
Lemma loads_fuel s : scan_once (scan_fuel s) (skip_ws s) ≠ OutOfFuel.
Proof.
  apply scan_fuel_enough. unfold scan_fuel. pose proof (length_skip_ws s). lia.
Qed.

Lemma push_Raise c r e : push c r = Raise e → r = Raise e.
Proof. by destruct r as [[k t]|e']; [|intros [= ->]]. Qed.

Lemma scanstring_raises_le n : ∀ s e,
  (length s ≤ n)%nat → scanstring s = Raise e →
  exn_class_of e = JSONDecodeError.
Proof.
  induction n as [|n IH]; intros s e Hlen H.
  { destruct s; [by simplify_eq/=|simpl in Hlen; lia]. }
  destruct s as [|c r]; [by simplify_eq/=|]. cbn [scanstring] in H.
  repeat (case_match; simplify_eq; try reflexivity);
    apply push_Raise in H; (eapply IH; [|exact H]); simpl in *; lia.
Qed.

Lemma scan_raises n :
  (∀ s e, scan_once n s = ScanError e → exn_class_of e = JSONDecodeError)
  ∧ (∀ s vs e, array_loop n s vs = ScanError e →
               exn_class_of e = JSONDecodeError)
  ∧ (∀ s ps e, object_loop n s ps = ScanError e →
               exn_class_of e = JSONDecodeError).
Proof.
  induction n as [|n (IHs & IHa & IHo)]; [by split_and!|].
  split_and!.
  - intros s e H. destruct s as [|c r]; [by simplify_eq/=|].
    cbn [scan_once] in H.
    repeat (case_match; simplify_eq; try reflexivity);
      eauto using scanstring_raises_le.
  - intros s vs e H. cbn [array_loop] in H.
    repeat (case_match; simplify_eq; try reflexivity); eauto.
  - intros s ps e H. cbn [object_loop] in H.
    repeat (case_match; simplify_eq; try reflexivity);
      eauto using scanstring_raises_le.
Qed.

(** Whatever [loads] raises is a [JSONDecodeError]. *)
Lemma loads_raises s e : loads s = Raise e → exn_class_of e = JSONDecodeError.
Proof.
  unfold loads. pose proof (loads_fuel s) as Hfuel.
  destruct (scan_raises (scan_fuel s)) as (Hs & _ & _). intros H.
  repeat (case_match; simplify_eq; try reflexivity); eauto.
Qed.

End ScannerFacts.

(** ** The manager *)

Section ManagerFacts.

Import MCP.

Variable os_environ : gmap pystr pystr.
Variable popen : nat → list pystr → gmap pystr pystr → result child.

#[local] Abbreviation start_server := (MCP.start_server os_environ popen).

#[local] Instance same_lifecycle_preorder : PreOrder same_lifecycle.
Proof.
  split.
  - by intros st.
  - intros s1 s2 s3 (?&?&?) (?&?&?). unfold same_lifecycle. split_and!; congruence.
Qed.

Lemma stable_logger (e : log_entry) : stable same_lifecycle (logger e).
Proof. by intros st. Qed.

Lemma status_alter (f : process → process) (pid : nat) (ps : list process) :
  (∀ p, p_status (f p) = p_status p) →
  p_status <$> alter f pid ps = p_status <$> ps.
Proof.
  intros Hf. rewrite (list_fmap_alter _ _ id).
  - by apply list_alter_id.
  - by apply Forall_forall.
Qed.

Lemma stable_stdin_write (pid : nat) (v : jvalue) :
  stable same_lifecycle (stdin_write pid v).
Proof.
  intros st. unfold stdin_write. run_se.
  destruct (procs st !! pid) as [p|]; [|done].
  destruct (p_stdin_broken p); [done|]. simpl.
  split_and!; [done..|]. by apply status_alter.
Qed.

Lemma stable_stdout_readline (pid : nat) :
  stable same_lifecycle (stdout_readline pid).
Proof.
  intros st. unfold stdout_readline. run_se.
  destruct (procs st !! pid) as [p|]; [|done].
  destruct (readline (p_stdout p)) as [line rest]. simpl.
  split_and!; [done..|]. by apply status_alter.
Qed.

Lemma stable_connection (server_name : pystr) :
  stable same_lifecycle (connection server_name).
Proof.
  intros st. unfold connection. run_se.
  by destruct (active_connections st !! server_name).
Qed.

Lemma stable_set_tools (f : pydict jvalue → pydict jvalue) :
  stable same_lifecycle (modify (set_tools f)).
Proof. by intros st. Qed.

Create HintDb stable discriminated.

#[local] Hint Resolve stable_logger stable_stdin_write stable_stdout_readline
  stable_connection stable_set_tools : stable.

(** One rule of the [stable] calculus, the instance of the preorder found
    by resolution. *)
Ltac stable_rule :=
  lazymatch goal with
  | |- stable _ (mbind _ _) => apply stable_bind; [apply _| |intro]
  | |- stable _ (try _ _) => apply stable_try; [apply _| |intro]
  | |- stable _ (when _ _) => apply stable_when; [apply _|]
  | |- stable _ (mret _) => apply stable_ret; apply _
  | |- stable _ (lift _) => apply stable_lift; apply _
  | |- stable _ (raise _) => apply stable_raise; apply _
  | |- stable _ (if ?b then _ else _) => destruct b
  | |- stable _ _ => solve [auto with stable]
  end.

Lemma stable_get_tools (server_name : pystr) :
  stable same_lifecycle (_get_tools server_name).
Proof.
  unfold _get_tools. repeat stable_rule.
Qed.

#[local] Hint Resolve stable_get_tools : stable.

Lemma stable_initialize_server (server_name : pystr) :
  stable same_lifecycle (_initialize_server server_name).
Proof.
  unfold _initialize_server. repeat stable_rule.
Qed.

(** The handshake is wrapped in a [try] that only logs: it never raises. *)
Lemma initialize_server_never_raises (server_name : pystr) :
  never_raises (_initialize_server server_name).
Proof.
  apply never_raises_try. intros e st. by eexists _, _.
Qed.

(** *** Single steps of the manager *)

Lemma Popen_ok cmd env st c :
  popen (length (procs st)) cmd env = Ok c →
  Popen popen cmd env st
  = (Ok (length (procs st)), set_procs (λ ps, ps ++ [spawned cmd env c]) st).
Proof. intros E. unfold Popen. run_se. by rewrite E. Qed.

Lemma Popen_raise cmd env st e :
  popen (length (procs st)) cmd env = Raise e →
  Popen popen cmd env st = (Raise e, st).
Proof. intros E. unfold Popen. run_se. by rewrite E. Qed.

Lemma connection_ok server_name st pid :
  active_connections st !! server_name = Some pid →
  connection server_name st = (Ok pid, st).
Proof. intros E. unfold connection. run_se. by rewrite E. Qed.

Lemma stdin_write_ok pid v st p :
  procs st !! pid = Some p → p_stdin_broken p = false →
  stdin_write pid v st = (Ok tt, set_procs (alter (sent v) pid) st).
Proof. intros E B. unfold stdin_write. run_se. by rewrite E, B. Qed.

Lemma stdin_write_broken pid v st p :
  procs st !! pid = Some p → p_stdin_broken p = true →
  stdin_write pid v st
  = (Raise (Exn BrokenPipeError (py "[Errno 32] Broken pipe")), st).
Proof. intros E B. unfold stdin_write. run_se. by rewrite E, B. Qed.

Lemma stdout_readline_ok pid st p :
  procs st !! pid = Some p →
  stdout_readline pid st
  = (Ok (readline (p_stdout p)).1,
     set_procs (alter (unread (readline (p_stdout p)).2) pid) st).
Proof.
  intros E. unfold stdout_readline. run_se. rewrite E.
  by destruct (readline (p_stdout p)).
Qed.

(** C7. [start] on a name that is not registered returns [False] after
    logging that the server was not found (the unknown-server failure);
    it spawns no process and leaves the running connections, and the rest
    of the manager, as they were. *)
Theorem start_server_unknown (server_name : pystr) (st : state) :
  servers st !! server_name = None →
  let '(r, st') := start_server server_name st in
  r = Ok false
  ∧ procs st' = procs st
  ∧ active_connections st' = active_connections st
  ∧ available_tools st' = available_tools st
  ∧ servers st' = servers st
  ∧ log st' = log st ++ [ServerNotFound server_name].
Proof.
  intros Hnone. unfold MCP.start_server. run_se. rewrite Hnone.
  unfold logger. run_se. simpl. done.
Qed.

(** What the handshake does when the reply to [initialize] is missing or
    cannot be decoded: the request is written, the line is consumed, and
    nothing else of the manager changes but the log. *)
Lemma initialize_server_no_reply server_name st pid p :
  active_connections st !! server_name = Some pid →
  procs st !! pid = Some p →
  p_stdin_broken p = false →
  truthy (readline (p_stdout p)).1 = false
  ∨ is_raise (loads (strip (readline (p_stdout p)).1)) = true →
  _initialize_server server_name st
  = (Ok tt,
     {| servers := servers st; active_connections := active_connections st;
        available_tools := available_tools st;
        procs := alter (unread (readline (p_stdout p)).2)
                   pid (alter (sent init_request) pid (procs st));
        log := log st ++ no_reply_log server_name (readline (p_stdout p)).1 |}).
Proof.
  intros Hc Hp Hb Hline. unfold _initialize_server.
  set (st1 := set_procs (alter (sent init_request) pid) st).
  assert (Hp1 : procs st1 !! pid = Some (sent init_request p)).
  { unfold st1. simpl. by rewrite list_lookup_alter_eq, Hp. }
  set (line := (readline (p_stdout p)).1) in *.
  set (rest := (readline (p_stdout p)).2) in *.
  set (st2 := set_procs (alter (unread rest) pid) st1).
  unfold no_reply_log. destruct (truthy line) eqn:Htr.
  - destruct Hline as [|Hraise]; [done|].
    destruct (loads (strip line)) as [|e] eqn:Hl; [done|].
    erewrite try_raise; cycle 1.
    { erewrite bind_ok by by apply connection_ok.
      erewrite bind_ok by by eapply stdin_write_ok.
      erewrite bind_ok by (by eapply (stdout_readline_ok _ st1)).
      simpl. fold line. rewrite Htr.
      erewrite bind_raise; [reflexivity|]. unfold lift. by rewrite Hl. }
    done.
  - rewrite app_nil_r.
    erewrite try_ok; cycle 1.
    { erewrite bind_ok by by apply connection_ok.
      erewrite bind_ok by by eapply stdin_write_ok.
      erewrite bind_ok by (by eapply (stdout_readline_ok _ st1)).
      simpl. fold line. by rewrite Htr. }
    done.
Qed.

(** Once the child is spawned, [start_server] returns [True] whatever the
    handshake does; it records the new handle under the name and changes
    the liveness of no earlier process. *)
Lemma start_server_spawned server_name st server env cmd c :
  servers st !! server_name = Some server →
  child_env os_environ server = Ok env →
  child_cmd server = Ok cmd →
  popen (length (procs st)) cmd env = Ok c →
  ∃ st',
    start_server server_name st = (Ok true, st')
    ∧ servers st' = servers st
    ∧ active_connections st'
      = <[server_name := length (procs st)]> (active_connections st)
    ∧ p_status <$> procs st' = (p_status <$> procs st) ++ [Running].
Proof.
  intros Hs He Hc Hp. unfold MCP.start_server.
  erewrite bind_ok by reflexivity. rewrite Hs.
  set (st1 := set_procs (λ ps, ps ++ [spawned cmd env c]) st).
  set (st2 := set_active <[server_name := length (procs st)]> st1).
  destruct (initialize_server_never_raises server_name
              ((logger (StartedServer server_name) st2).2)) as ([] & st4 & Hi).
  pose proof (stable_initialize_server server_name
                ((logger (StartedServer server_name) st2).2)) as Hst.
  rewrite Hi in Hst. destruct Hst as (Hst1 & Hst2 & Hst3). simpl in *.
  exists st4. split_and!; [|done|done|].
  - erewrite try_ok; [reflexivity|].
    erewrite bind_ok by (unfold lift; by rewrite He).
    erewrite bind_ok by (unfold lift; by rewrite Hc).
    erewrite bind_ok by by apply Popen_ok.
    erewrite bind_ok by reflexivity.
    erewrite bind_ok by reflexivity.
    erewrite bind_ok by exact Hi. done.
  - rewrite Hst3. by rewrite fmap_app.
Qed.

Lemma is_running_status st pid :
  is_running st pid
  = match (p_status <$> procs st) !! pid with
    | Some Running => true
    | _ => false
    end.
Proof.
  unfold is_running. rewrite list_lookup_fmap. by destruct (procs st !! pid).
Qed.

(** C1, as the code has it.  [start] on a name that already has a live
    process recorded spawns a new child and records it under the name in
    place of the earlier handle, so one handle is recorded under the name,
    the new one, and the earlier handle is recorded under it no more; it
    terminates no process: every earlier process, the one that was
    recorded under the name included, is as live as it was. *)
Theorem start_server_overwrites server_name st server env cmd c old :
  servers st !! server_name = Some server →
  child_env os_environ server = Ok env →
  child_cmd server = Ok cmd →
  popen (length (procs st)) cmd env = Ok c →
  active_connections st !! server_name = Some old →
  is_running st old = true →
  let '(r, st') := start_server server_name st in
  r = Ok true
  ∧ active_connections st'
    = <[server_name := length (procs st)]> (active_connections st)
  ∧ is_running st' (length (procs st)) = true
  ∧ (∀ pid, (pid < length (procs st))%nat →
            is_running st' pid = is_running st pid)
  ∧ is_running st' old = true
  ∧ active_connections st' !! server_name ≠ Some old.
Proof.
  intros Hs He Hc Hp Hold Hrun.
  assert (Hold_lt : (old < length (procs st))%nat).
  { unfold is_running in Hrun.
    destruct (procs st !! old) eqn:E; [|done]. by eapply lookup_lt_Some. }
  destruct (start_server_spawned _ _ _ _ _ _ Hs He Hc Hp)
    as (st' & -> & _ & Hact & Hstat).
  assert (Hkeep : ∀ pid, (pid < length (procs st))%nat →
                         is_running st' pid = is_running st pid).
  { intros pid Hlt. rewrite !is_running_status, Hstat.
    rewrite lookup_app_l; [done|]. by rewrite length_fmap. }
  split_and!; [done|done| |done| |].
  - rewrite is_running_status, Hstat.
    rewrite lookup_app_r by by rewrite length_fmap.
    by rewrite length_fmap, Nat.sub_diag.
  - by rewrite Hkeep.
  - rewrite Hact, lookup_insert_eq. intros [= E]. lia.
Qed.

(** C2, as the code has it.  When the reply to [initialize] is missing or
    cannot be decoded, the handshake stops there: no [tools/list] request
    is sent, the tools are left as they were and a reply that cannot be
    decoded is logged; [start] still returns [True] and keeps the new
    process recorded under the name. *)
Theorem start_server_ignores_handshake_failure
    server_name st server env cmd c :
  servers st !! server_name = Some server →
  child_env os_environ server = Ok env →
  child_cmd server = Ok cmd →
  popen (length (procs st)) cmd env = Ok c →
  c_stdin_broken c = false →
  truthy (readline (c_stdout c)).1 = false
  ∨ is_raise (loads (strip (readline (c_stdout c)).1)) = true →
  let '(r, st') := start_server server_name st in
  r = Ok true
  ∧ active_connections st' !! server_name = Some (length (procs st))
  ∧ available_tools st' = available_tools st
  ∧ p_stdin <$> procs st' !! length (procs st) = Some [init_request]
  ∧ log st'
    = log st ++ StartedServer server_name
        :: no_reply_log server_name (readline (c_stdout c)).1.
Proof.
  intros Hs He Hc Hp Hb Hline. unfold MCP.start_server.
  erewrite bind_ok by reflexivity. rewrite Hs.
  set (st1 := set_procs (λ ps, ps ++ [spawned cmd env c]) st).
  set (st2 := set_active <[server_name := length (procs st)]> st1).
  set (st3 := (logger (StartedServer server_name) st2).2).
  assert (Hi := initialize_server_no_reply server_name st3
                  (length (procs st)) (spawned cmd env c)).
  specialize (Hi (lookup_insert_eq _ _ _)).
  specialize (Hi (list_lookup_middle _ _ _ _ eq_refl) Hb Hline).
  erewrite try_ok; cycle 1.
  { erewrite bind_ok by (unfold lift; by rewrite He).
    erewrite bind_ok by (unfold lift; by rewrite Hc).
    erewrite bind_ok by by apply Popen_ok.
    erewrite bind_ok by reflexivity.
    erewrite bind_ok by reflexivity.
    erewrite bind_ok by exact Hi. reflexivity. }
  simpl. split_and!; [done| |done| |].
  - apply lookup_insert_eq.
  - rewrite !list_lookup_alter_eq.
    by rewrite list_lookup_middle.
  - by rewrite <-app_assoc.
Qed.

(** C3, where the code departs from it.  A call on a connected server
    whose stdout is at its end reads no line, skips the decoding and
    falls off the end of the function: it returns [None], no error. *)
Theorem call_tool_end_of_stream_returns_None
    server_name tool_name arguments st pid p :
  active_connections st !! server_name = Some pid →
  procs st !! pid = Some p →
  p_stdin_broken p = false →
  p_stdout p = [] →
  (call_tool server_name tool_name arguments st).1 = Ok PyNone.
Proof.
  intros Hc Hp Hb Hout. unfold call_tool.
  erewrite bind_ok by reflexivity. rewrite Hc.
  erewrite try_ok; [reflexivity|].
  erewrite bind_ok by by apply connection_ok.
  erewrite bind_ok by by eapply stdin_write_ok.
  erewrite bind_ok; cycle 1.
  { eapply stdout_readline_ok. simpl. by rewrite list_lookup_alter_eq, Hp. }
  simpl. rewrite Hout. reflexivity.
Qed.

(** The two parts of C3 the code does meet: a call on a name without a
    connection raises, and so does a call that reads an empty line. *)
Lemma call_tool_not_connected server_name tool_name arguments st :
  active_connections st !! server_name = None →
  call_tool server_name tool_name arguments st
  = (Raise (Exn Exception (py "Server " ++ server_name ++ py " not connected")),
     st).
Proof.
  intros Hc. unfold call_tool. erewrite bind_ok by reflexivity. by rewrite Hc.
Qed.

Lemma call_tool_undecodable server_name tool_name arguments st pid p e :
  active_connections st !! server_name = Some pid →
  procs st !! pid = Some p →
  p_stdin_broken p = false →
  truthy (readline (p_stdout p)).1 = true →
  loads (strip (readline (p_stdout p)).1) = Raise e →
  (call_tool server_name tool_name arguments st).1 = Raise e.
Proof.
  intros Hc Hp Hb Htr Hl. unfold call_tool.
  erewrite bind_ok by reflexivity. rewrite Hc.
  erewrite try_raise; cycle 1.
  { erewrite bind_ok by by apply connection_ok.
    erewrite bind_ok by by eapply stdin_write_ok.
    erewrite bind_ok; cycle 1.
    { eapply stdout_readline_ok. simpl. by rewrite list_lookup_alter_eq, Hp. }
    simpl. rewrite Htr.
    erewrite bind_raise; [reflexivity|]. unfold lift. by rewrite Hl. }
  reflexivity.
Qed.

(** C4, as the code has it.  [stop] terminates the process recorded under
    the name and forgets the connection, and it leaves the tools alone:
    the aggregated tool list after [stop] is the list from before, the
    tools of the stopped server included. *)
Theorem stop_server_keeps_tools server_name st :
  let '(r, st') := stop_server server_name st in
  r = Ok tt
  ∧ active_connections st' !! server_name = None
  ∧ (∀ pid, active_connections st !! server_name = Some pid →
            is_running st' pid = false)
  ∧ available_tools st' = available_tools st
  ∧ get_available_tools_list st' = get_available_tools_list st.
Proof.
  unfold stop_server. erewrite bind_ok by reflexivity.
  destruct (active_connections st !! server_name) as [pid|] eqn:Hc.
  - simpl. split_and!; [done| |intros ? [= <-]|done|done].
    + apply lookup_delete_eq.
    + unfold is_running. simpl. rewrite list_lookup_alter_eq.
      by destruct (procs st !! pid).
  - simpl. split_and!; done.
Qed.

End ManagerFacts.

(** C9. However [args] and [env] are given, [None] included, a constructed
    [MCPServer] has a list for [args] and a mapping for [env]; the command
    line and the environment [start_server] builds from it are defined. *)
Theorem MCPServer_args_env_not_None
    (os_environ : gmap pystr pystr)
    (name : pystr) (command : list pystr) (args : option (list pystr))
    (env : option (gmap pystr pystr)) (description : pystr) :
  let server := MCP.MCPServer_new name command args env description in
  MCP.args server = Some (default [] args)
  ∧ MCP.env server = Some (default ∅ env)
  ∧ MCP.child_cmd server = Ok (command ++ default [] args)
  ∧ MCP.child_env os_environ server = Ok (default ∅ env ∪ os_environ)
  ∧ MCP.name server = name ∧ MCP.command server = command
  ∧ MCP.description server = description.
Proof. by destruct args, env. Qed.


(** *** The manager on the test doubles *)

Section ManagerRuns.

Import MCP.

Lemma start_server_unknown_witness :
  servers Stub.registry !! py "nope" = None
  ∧ let '(r, st') := Stub.start_server (py "nope") Stub.registry in
    r = Ok false
    ∧ procs st' = procs Stub.registry
    ∧ active_connections st' = active_connections Stub.registry
    ∧ available_tools st' = available_tools Stub.registry
    ∧ servers st' = servers Stub.registry
    ∧ log st' = log Stub.registry ++ [ServerNotFound (py "nope")].
Proof.
  split; [vm_compute; reflexivity|].
  apply (start_server_unknown Stub.os_environ Stub.popen (py "nope")
           Stub.registry).
  vm_compute; reflexivity.
Defined.

Lemma start_server_overwrites_witness :
  let '(r, st') := Stub.start_server (py "A") Stub.started_A in
  r = Ok true
  ∧ active_connections st'
    = <[py "A" := length (procs Stub.started_A)]> (active_connections Stub.started_A)
  ∧ is_running st' (length (procs Stub.started_A)) = true
  ∧ (∀ pid, (pid < length (procs Stub.started_A))%nat →
            is_running st' pid = is_running Stub.started_A pid)
  ∧ is_running st' 0%nat = true
  ∧ active_connections st' !! py "A" ≠ Some 0%nat.
Proof.
  apply (start_server_overwrites Stub.os_environ Stub.popen (py "A") Stub.started_A
           Stub.server_A (∅ ∪ Stub.os_environ) [py "good"] Stub.child_A 0%nat);
    vm_compute; reflexivity.
Defined.

(** C1 fails on the code: a second [start] of [A] leaves the first child
    running and held by nobody. *)
Lemma restart_leaks_process :
  let st1 := Stub.started_A in
  let st2 := Stub.after (Stub.start_server (py "A")) st1 in
  active_connections st1 !! py "A" = Some 0%nat
  ∧ is_running st1 0 = true
  ∧ leaked st1 = []
  ∧ (Stub.start_server (py "A") st1).1 = Ok true
  ∧ active_connections st2 !! py "A" = Some 1%nat
  ∧ is_running st2 0 = true
  ∧ is_running st2 1 = true
  ∧ leaked st2 = [0%nat].
Proof. vm_compute. split_and!; reflexivity. Qed.

Lemma start_server_ignores_handshake_failure_witness :
  let '(r, st') := Stub.start_server (py "M") Stub.registry in
  r = Ok true
  ∧ active_connections st' !! py "M" = Some (length (procs Stub.registry))
  ∧ available_tools st' = available_tools Stub.registry
  ∧ p_stdin <$> procs st' !! length (procs Stub.registry) = Some [init_request]
  ∧ log st'
    = log Stub.registry ++ StartedServer (py "M")
        :: no_reply_log (py "M") (readline (c_stdout Stub.child_M)).1.
Proof.
  apply (start_server_ignores_handshake_failure Stub.os_environ Stub.popen
           (py "M") Stub.registry Stub.server_M (∅ ∪ Stub.os_environ) [py "mute"]
           Stub.child_M);
    try (vm_compute; reflexivity).
  left. vm_compute; reflexivity.
Defined.

(** C2 fails on the code: [M] never answers [initialize] and [G] answers
    with a line that is no JSON; both starts return [True]. *)
Lemma start_succeeds_without_handshake :
  Stub.popen 0 [py "mute"] (∅ ∪ Stub.os_environ) = Ok Stub.child_M
  ∧ (readline (c_stdout Stub.child_M)).1 = []
  ∧ (Stub.start_server (py "M") Stub.registry).1 = Ok true
  ∧ is_raise (loads (strip (py "ready" ++ [10]))) = true
  ∧ (Stub.start_server (py "G") Stub.registry).1 = Ok true
  ∧ log (Stub.after (Stub.start_server (py "G")) Stub.registry)
    = log Stub.registry
      ++ [StartedServer (py "G");
          FailedToInitialize (py "G") (decode_error "Expecting value")].
Proof. vm_compute. split_and!; reflexivity. Qed.

Lemma call_tool_end_of_stream_returns_None_witness :
  (call_tool (py "M") (py "echo") (JObj [(py "message", JStr (py "hi"))])
     Stub.started_M).1 = Ok PyNone.
Proof.
  apply (call_tool_end_of_stream_returns_None (py "M") (py "echo")
           (JObj [(py "message", JStr (py "hi"))]) Stub.started_M 0%nat
           {| p_cmd := [py "mute"]; p_env := ∅ ∪ Stub.os_environ;
              p_status := Running; p_stdin := [init_request];
              p_stdin_broken := false; p_stdout := [] |});
    vm_compute; reflexivity.
Defined.

(** The call of the specification: [echo] on the started [A] returns the
    decoded reply. *)
Lemma call_tool_echo :
  (call_tool (py "A") (py "echo") (JObj [(py "message", JStr (py "hi"))])
     Stub.started_A).1
  = Ok (JObj [(py "jsonrpc", JStr (py "2.0")); (py "id", JInt 3);
              (py "result", JObj [(py "message", JStr (py "hi"))])]).
Proof. vm_compute. reflexivity. Qed.

(** A call that reads an empty line raises the decoding error, and a call
    on a name that was never started raises too. *)
Lemma call_tool_blank_line :
  (call_tool (py "E") (py "echo") (JObj [])
     (Stub.after (Stub.start_server (py "E")) Stub.registry)).1
  = Raise (decode_error "Expecting value")
  ∧ (call_tool (py "B") (py "echo") (JObj []) Stub.registry).1
    = Raise (Exn Exception (py "Server B not connected")).
Proof. vm_compute. split; reflexivity. Qed.

(** C4 fails on the code: [A] is started and stopped, its process is
    terminated and its connection gone, and its tool is still listed. *)
Lemma stopped_server_tools_still_listed :
  let st := Stub.after (Stub.start_server (py "A");; stop_server (py "A"))
              Stub.registry in
  active_connections st !! py "A" = None
  ∧ is_running st 0 = false
  ∧ get_available_tools_list st
    = Ok [JObj [(py "name", JStr (py "echo"));
                (py "description", JStr (py "Echo"));
                (py "server", JStr (py "A"))]].
Proof. vm_compute. split_and!; reflexivity. Qed.

End ManagerRuns.

(** ** The chat session *)

Section ChatFacts.

Import Chat.

Variable cl : client.

Lemma get_available_models_listing self :
  get_available_models cl self = (Ok (listing cl), self).
Proof.
  unfold get_available_models, listing, try, lift.
  by destruct (models_list cl).
Qed.

Lemma error_text_marker exc : startswith (py "Error:") (error_text exc) = true.
Proof. reflexivity. Qed.

Lemma unavailable_spec available :
  unavailable available = true
  ↔ available = []
    ∨ ∃ first rest, available = first :: rest
                    ∧ startswith (py "Error") first = true.
Proof.
  destruct available as [|first rest]; unfold unavailable.
  - naive_solver.
  - split; [eauto|]. by intros [|(?&?&[= <- <-]&?)].
Qed.

Lemma resolve_model_chosen model_name self :
  resolve_model cl model_name self
  = (match chosen_model cl model_name with
     | Some model => Ok model
     | None => Raise no_models
     end, self).
Proof.
  unfold resolve_model, chosen_model.
  destruct (no_name model_name) eqn:Hn.
  - erewrite bind_ok by apply get_available_models_listing.
    destruct (listing cl) as [|first rest]; [done|].
    unfold unavailable. by destruct (startswith (py "Error") first).
  - destruct model_name as [given|]; [|done]. done.
Qed.

(** [chat] from the model that was chosen on. *)
Lemma chat_chosen message model_name self :
  chat cl message model_name self
  = match chosen_model cl model_name with
    | None => (Ok (error_text no_models), asked message self)
    | Some model =>
        match completion cl model (conversation_history (asked message self)) with
        | Ok text => (Ok text, answered message text self)
        | Raise exc => (Ok (error_text exc), asked message self)
        end
    end.
Proof.
  unfold chat. erewrite bind_ok by reflexivity. fold (asked message self).
  unfold try. run_se. rewrite resolve_model_chosen.
  destruct (chosen_model cl model_name) as [model|]; [|done].
  destruct (completion cl model _) as [text|exc]; [|done].
  unfold append_turn, answered. simpl. by rewrite <-app_assoc.
Qed.

(** The first [next] of [stream_chat] from the model that was chosen on. *)
Lemma next_created_chosen message model_name self :
  next cl (stream_chat message model_name) self
  = match chosen_model cl model_name with
    | None => (Ok (Some (error_text no_models), AtYieldError), asked message self)
    | Some model =>
        match completion_stream cl model
                (conversation_history (asked message self)) with
        | Ok (chunks, fin) => resume_loop [] chunks fin (asked message self)
        | Raise exc =>
            (Ok (Some (error_text exc), AtYieldError), asked message self)
        end
    end.
Proof.
  unfold stream_chat, next. erewrite bind_ok by reflexivity.
  fold (asked message self). unfold try. run_se. rewrite resolve_model_chosen.
  destruct (chosen_model cl model_name) as [model|]; [|done].
  destruct (completion_stream cl model _) as [[chunks fin]|exc]; [|done].
  assert (H : ∀ full st, ∃ r st', resume_loop full chunks fin st = (Ok r, st')).
  { clear. induction chunks as [|[d|] rest IH]; intros full st; simpl.
    - destruct fin; by eexists _, _.
    - destruct (truthy d); [by eexists _, _|apply IH].
    - apply IH. }
  destruct (H [] (asked message self)) as (r & st' & E). by rewrite E.
Qed.

(** C5. With no model name given and a model listing that is empty or
    fails, [chat] returns the text of the no-model error; the history is
    the earlier history with the user turn appended and nothing after
    it. *)
Theorem chat_no_model_available message model_name self :
  no_name model_name = true →
  models_list cl = Ok [] ∨ (∃ exc, models_list cl = Raise exc) →
  chat cl message model_name self
  = (Ok (py "Error: No models available in LM Studio"),
     {| conversation_history :=
          conversation_history self
          ++ [{| role := py "user"; content := message |}];
        mcp_enabled := mcp_enabled self |}).
Proof.
  intros Hn Hl. rewrite chat_chosen. unfold chosen_model, listing. rewrite Hn.
  by destruct Hl as [->|[exc ->]].
Qed.

Lemma startswith_prefix (p s : pystr) :
  startswith p s = true ↔ ∃ tail, s = p ++ tail.
Proof.
  revert s. induction p as [|a p IH]; intros s; simpl.
  - split; [by exists s|done].
  - destruct s as [|b s].
    + split; [done|]. by intros [tail ?].
    + rewrite andb_true_iff, N.eqb_eq, IH. split.
      * intros [-> [tail ->]]. by exists tail.
      * intros [tail [= -> ->]]. split; [done|by exists tail].
Qed.

(** C10. [get_available_models] never raises: it returns the identifiers
    listed or, when the listing fails, the one-element list of a string
    that begins with [Error:].  With no model name given, [chat] and
    [stream_chat] take the no-model path exactly when that list is empty
    or its first element begins with [Error]: in these two cases they
    give the no-model error, and when the first element does not begin
    with [Error] they send the request to it. *)
Theorem get_available_models_in_band message model_name self :
  no_name model_name = true →
  get_available_models cl self = (Ok (listing cl), self)
  ∧ (∀ exc, models_list cl = Raise exc →
            listing cl = [py "Error: " ++ exn_str exc]
            ∧ ∃ tail, py "Error: " ++ exn_str exc = py "Error:" ++ tail)
  ∧ (∀ ids, models_list cl = Ok ids → listing cl = ids)
  ∧ (listing cl = []
     ∨ (∃ tail rest, listing cl = (py "Error" ++ tail) :: rest) →
     chat cl message model_name self
     = (Ok (py "Error: No models available in LM Studio"), asked message self)
     ∧ next cl (stream_chat message model_name) self
       = (Ok (Some (py "Error: No models available in LM Studio"),
              AtYieldError),
          asked message self))
  ∧ (∀ first rest,
       listing cl = first :: rest →
       (∀ tail, first ≠ py "Error" ++ tail) →
       chat cl message model_name self
       = match completion cl first
                 (conversation_history (asked message self)) with
         | Ok text => (Ok text, answered message text self)
         | Raise exc => (Ok (py "Error: " ++ exn_str exc), asked message self)
         end
       ∧ next cl (stream_chat message model_name) self
         = match completion_stream cl first
                   (conversation_history (asked message self)) with
           | Ok (chunks, fin) => resume_loop [] chunks fin (asked message self)
           | Raise exc =>
               (Ok (Some (py "Error: " ++ exn_str exc), AtYieldError),
                asked message self)
           end).
Proof.
  intros Hn. split_and!.
  - apply get_available_models_listing.
  - intros exc E. unfold listing. rewrite E. split; [done|].
    by exists (32 :: exn_str exc).
  - intros ids E. unfold listing. by rewrite E.
  - intros Hl. rewrite chat_chosen, next_created_chosen.
    unfold chosen_model. rewrite Hn.
    destruct Hl as [->|(tail & rest & ->)]; [done|].
    unfold unavailable.
    rewrite (proj2 (startswith_prefix _ _)) by by exists tail. done.
  - intros first rest Hl Hno.
    assert (Hs : startswith (py "Error") first = false).
    { destruct (startswith (py "Error") first) eqn:E; [|done].
      apply startswith_prefix in E as [tail ->]. by destruct (Hno tail). }
    rewrite chat_chosen, next_created_chosen.
    unfold chosen_model. rewrite Hn, Hl. unfold unavailable. rewrite Hs.
    done.
Qed.

(** *** Draining the generator *)

Lemma fragments_cons_skip (d : option pystr) chunks :
  match d with Some d' => truthy d' = false | None => True end →
  fragments (d :: chunks) = fragments chunks.
Proof.
  unfold fragments. destruct d as [d'|]; simpl; [|done].
  intros E. rewrite filter_cons. by rewrite E.
Qed.

Lemma fragments_cons_keep d chunks :
  truthy d = true → fragments (Some d :: chunks) = d :: fragments chunks.
Proof.
  unfold fragments. simpl. intros E. rewrite filter_cons. by rewrite E.
Qed.

Lemma concat_fragments chunks : concat (fragments chunks) = stream_text chunks.
Proof.
  unfold stream_text. induction chunks as [|[d|] rest IH]; [done| |done].
  destruct (truthy d) eqn:E.
  - rewrite fragments_cons_keep by done. simpl. by rewrite IH.
  - rewrite fragments_cons_skip by done. destruct d; [|done]. by rewrite IH.
Qed.

(** A consumer that asks for more than there is gets every fragment, and
    the assistant turn is appended with their concatenation. *)
Lemma take_fragments_drain chunks : ∀ full n st,
  (length (fragments chunks) < n)%nat →
  take_fragments cl n (AtYieldDelta full chunks None) st
  = (Ok (fragments chunks, Finished),
     commit (full ++ concat (fragments chunks)) st).
Proof.
  induction chunks as [|[d|] rest IH]; intros full n st Hn.
  - destruct n as [|n]; [simpl in Hn; lia|]. simpl.
    by rewrite app_nil_r.
  - destruct (truthy d) eqn:E.
    + rewrite fragments_cons_keep in * by done. simpl in Hn.
      destruct n as [|n]; [lia|].
      cbn [take_fragments next resume_loop]. rewrite E.
      erewrite bind_ok by reflexivity. cbn beta iota.
      erewrite bind_ok by (apply IH; lia). simpl. by rewrite <-app_assoc.
    + rewrite fragments_cons_skip in * by done.
      destruct n as [|n]; [lia|].
      specialize (IH full (S n) st Hn).
      cbn [take_fragments next resume_loop] in *. by rewrite E.
  - rewrite fragments_cons_skip in * by done.
    destruct n as [|n]; [lia|].
    specialize (IH full (S n) st Hn).
    by cbn [take_fragments next resume_loop] in *.
Qed.

(** A consumer that stops earlier has its fragments and a generator that
    is suspended at a [yield]; the history is as it was. *)
Lemma take_fragments_early chunks : ∀ full n st,
  (n ≤ length (fragments chunks))%nat →
  ∃ full' chunks',
    take_fragments cl n (AtYieldDelta full chunks None) st
    = (Ok (take n (fragments chunks), AtYieldDelta full' chunks' None), st).
Proof.
  induction chunks as [|[d|] rest IH]; intros full n st Hn.
  - destruct n as [|n]; [|simpl in Hn; lia]. by eexists _, _.
  - destruct n as [|n]; [by eexists _, _|].
    destruct (truthy d) eqn:E.
    + rewrite fragments_cons_keep in * by done. simpl in Hn.
      destruct (IH (full ++ d) n st) as (full' & chunks' & IH'); [lia|].
      exists full', chunks'.
      cbn [take_fragments next resume_loop]. rewrite E.
      erewrite bind_ok by reflexivity. cbn beta iota.
      erewrite bind_ok by exact IH'. done.
    + rewrite fragments_cons_skip in * by done.
      destruct (IH full (S n) st Hn) as (full' & chunks' & IH').
      exists full', chunks'.
      cbn [take_fragments next resume_loop] in *. by rewrite E.
  - rewrite fragments_cons_skip in * by done.
    destruct n as [|n]; [by eexists _, _|].
    destruct (IH full (S n) st Hn) as (full' & chunks' & IH').
    exists full', chunks'. by cbn [take_fragments next resume_loop] in *.
Qed.

(** C6. Against a model collaborator that answers a request with a text
    and, when streaming, with chunks that carry this text: [chat] returns
    the text; the fragments [stream_chat] yields concatenate to it; a
    consumer that drains the generator leaves one assistant turn, whose
    content is this concatenation, after the user turn; a consumer that
    stops after any number of fragments, and closes the generator, leaves
    no assistant turn. *)
Theorem stream_chat_agrees_with_chat message model_name self model text chunks :
  chosen_model cl model_name = Some model →
  completion cl model (conversation_history (asked message self)) = Ok text →
  completion_stream cl model (conversation_history (asked message self))
  = Ok (chunks, None) →
  stream_text chunks = text →
  chat cl message model_name self = (Ok text, answered message text self)
  ∧ concat (fragments chunks) = text
  ∧ (∀ n, (length (fragments chunks) < n)%nat →
       take_fragments cl n (stream_chat message model_name) self
       = (Ok (fragments chunks, Finished),
          answered message (concat (fragments chunks)) self))
  ∧ (∀ n, (n ≤ length (fragments chunks))%nat →
       ∃ gen,
         take_fragments cl n (stream_chat message model_name) self
         = (Ok (take n (fragments chunks), gen),
            match n with O => self | S _ => asked message self end)
         ∧ gen ≠ Finished
         ∧ ∀ st, close gen st = (Ok Finished, st)).
Proof.
  intros Hm Hc Hs Ht.
  assert (Hnext : next cl (stream_chat message model_name) self
                  = next cl (AtYieldDelta [] chunks None) (asked message self)).
  { rewrite next_created_chosen, Hm, Hs. done. }
  unfold stream_chat in *. split_and!.
  - by rewrite chat_chosen, Hm, Hc.
  - by rewrite concat_fragments.
  - intros [|n] Hn; [lia|].
    pose proof (take_fragments_drain chunks [] (S n) (asked message self) Hn)
      as Hd.
    cbn [take_fragments] in *. rewrite (bind_congr _ _ _ _ _ Hnext), Hd.
    unfold commit, answered, asked. simpl. by rewrite <-app_assoc.
  - intros [|n] Hn.
    + exists (Created message model_name). by split_and!.
    + destruct (take_fragments_early chunks [] (S n) (asked message self) Hn)
        as (full' & chunks' & He).
      exists (AtYieldDelta full' chunks' None).
      cbn [take_fragments] in *. rewrite (bind_congr _ _ _ _ _ Hnext), He.
      by split_and!.
Qed.

End ChatFacts.

(** *** The chat session on the test doubles *)

Section ChatRuns.

Import Chat.

Lemma chat_no_model_available_witness :
  chat Stub.offline (py "hello") None LMStudioMCPChatbot_new
  = (Ok (py "Error: No models available in LM Studio"),
     {| conversation_history :=
          conversation_history LMStudioMCPChatbot_new
          ++ [{| role := py "user"; content := py "hello" |}];
        mcp_enabled := mcp_enabled LMStudioMCPChatbot_new |}).
Proof.
  apply (chat_no_model_available Stub.offline (py "hello") None
           LMStudioMCPChatbot_new).
  - reflexivity.
  - right. eexists. reflexivity.
Defined.

Lemma get_available_models_in_band_witness :
  get_available_models Stub.offline LMStudioMCPChatbot_new
  = (Ok [py "Error: Connection error."], LMStudioMCPChatbot_new)
  ∧ chat Stub.offline (py "hello") None LMStudioMCPChatbot_new
    = (Ok (py "Error: No models available in LM Studio"),
       asked (py "hello") LMStudioMCPChatbot_new)
  ∧ next Stub.offline (stream_chat (py "hello") None) LMStudioMCPChatbot_new
    = (Ok (Some (py "Error: No models available in LM Studio"), AtYieldError),
       asked (py "hello") LMStudioMCPChatbot_new)
  ∧ chat Stub.answering (py "hello") None LMStudioMCPChatbot_new
    = (Ok (py "Hello there"),
       answered (py "hello") (py "Hello there") LMStudioMCPChatbot_new).
Proof.
  destruct (get_available_models_in_band Stub.offline (py "hello") None
              LMStudioMCPChatbot_new) as (H1 & _ & _ & H2 & _).
  - reflexivity.
  - destruct H2 as [H2 H3].
    + right. exists (py ": Connection error."), []. reflexivity.
    + destruct (get_available_models_in_band Stub.answering (py "hello") None
                  LMStudioMCPChatbot_new) as (_ & _ & _ & _ & H4).
      * reflexivity.
      * destruct (H4 (py "model-1") [py "model-2"]) as [H5 _].
        -- reflexivity.
        -- intros tail. vm_compute. discriminate.
        -- split_and!; [exact H1|exact H2|exact H3|exact H5].
Defined.

Lemma stream_chat_agrees_with_chat_witness :
  chat Stub.answering (py "hi") None LMStudioMCPChatbot_new
  = (Ok (py "Hello there"),
     answered (py "hi") (py "Hello there") LMStudioMCPChatbot_new)
  ∧ take_fragments Stub.answering 4 (stream_chat (py "hi") None)
      LMStudioMCPChatbot_new
    = (Ok ([py "Hel"; py "lo "; py "there"], Finished),
       answered (py "hi") (py "Hello there") LMStudioMCPChatbot_new)
  ∧ ∃ gen,
      take_fragments Stub.answering 2 (stream_chat (py "hi") None)
        LMStudioMCPChatbot_new
      = (Ok ([py "Hel"; py "lo "], gen), asked (py "hi") LMStudioMCPChatbot_new)
      ∧ gen ≠ Finished.
Proof.
  destruct (stream_chat_agrees_with_chat Stub.answering (py "hi") None
              LMStudioMCPChatbot_new (py "model-1") (py "Hello there")
              [Some (py "Hel"); None; Some []; Some (py "lo "); Some (py "there")])
    as (H1 & _ & H2 & H3); try (vm_compute; reflexivity).
  split_and!.
  - exact H1.
  - apply (H2 4%nat). vm_compute. lia.
  - destruct (H3 2%nat) as (gen & E & Hg & _); [vm_compute; lia|].
    exists gen. split; [exact E|exact Hg].
Defined.

End ChatRuns.

(** ** Text files: reading what was written *)

Ltac n_arith := zify; Z.to_euclidean_division_equations; lia.

Ltac n_tests :=
  repeat match goal with
  | |- context [?a <? ?b] => destruct (N.ltb_spec a b); try n_arith
  | |- context [?a <=? ?b] => destruct (N.leb_spec a b); try n_arith
  end.

(** Literal strings as the lists they are. *)
Ltac py_literals :=
  repeat match goal with
  | |- context [py ?s] =>
      let v := eval vm_compute in (py s) in change (py s) with v
  end.

Section TextFileFacts.

Import TextFile.

Lemma utf8_decode_encode_char c bs rest :
  utf8_encode_char c = Some bs →
  utf8_decode (bs ++ rest) = cons c <$> utf8_decode rest.
Proof.
  unfold utf8_encode_char, is_surrogate.
  destruct (N.ltb_spec c 0x80).
  { intros [= <-]. cbn [app utf8_decode]. by destruct (N.ltb_spec c 0x80); [|lia]. }
  destruct (N.ltb_spec c 0x800).
  { intros [= <-]. cbn [app utf8_decode]. unfold is_cont. n_tests.
    cbn. do 2 f_equal. n_arith. }
  destruct (N.leb_spec 0xD800 c); destruct (N.leb_spec c 0xDFFF);
    cbn [andb]; try done.
  all: destruct (N.ltb_spec c 0x10000).
  all: try (intros [= <-]; cbn [app utf8_decode]; unfold is_cont, is_surrogate;
            cbv zeta; n_tests; cbn; do 2 f_equal; n_arith).
  all: destruct (N.ltb_spec c 0x110000); try done.
  all: intros [= <-]; cbn [app utf8_decode]; unfold is_cont, is_surrogate;
       cbv zeta; n_tests; cbn; do 2 f_equal; n_arith.
Qed.

Lemma utf8_decode_encode s bs :
  utf8_encode s = Some bs → utf8_decode bs = Some s.
Proof.
  revert bs. induction s as [|c s IH]; intros bs; simpl.
  - by intros [= <-].
  - destruct (utf8_encode_char c) as [b|] eqn:Ec; [|done]. simpl.
    destruct (utf8_encode s) as [bs'|]; [|done]. simpl. intros [= <-].
    rewrite (utf8_decode_encode_char _ _ _ Ec), (IH bs'); done.
Qed.

Lemma utf8_encode_app s1 s2 bs1 bs2 :
  utf8_encode s1 = Some bs1 → utf8_encode s2 = Some bs2 →
  utf8_encode (s1 ++ s2) = Some (bs1 ++ bs2).
Proof.
  revert bs1. induction s1 as [|c s1 IH]; intros bs1; simpl.
  - by intros [= <-].
  - destruct (utf8_encode_char c) as [b|]; [|done]. simpl.
    destruct (utf8_encode s1) as [bs'|]; [|done]. simpl. intros [= <-] E2.
    rewrite (IH bs') by done. simpl. by rewrite <-app_assoc.
Qed.

Lemma utf8_encode_encodable s :
  encodable s = true → is_Some (utf8_encode s).
Proof.
  induction s as [|c s IH]; simpl; [by eexists|].
  intros [Hc Hs]%andb_prop. destruct (IH Hs) as [bs ->].
  unfold utf8_ok, is_code_point in Hc. apply andb_prop in Hc as [H1 H2].
  unfold utf8_encode_char. rewrite H1.
  destruct (is_surrogate c); [done|].
  repeat match goal with |- context [if ?b then _ else _] => destruct b end;
    by eexists.
Qed.

(** For a Python [str], the codec can write it exactly when it holds no
    surrogate. *)
Lemma encodable_no_surrogate s :
  is_str s = true →
  encodable s = forallb (λ c, negb (is_surrogate c)) s.
Proof.
  induction s as [|c s IH]; [done|]. simpl.
  intros [Hc Hs]%andb_prop. rewrite <-IH by done.
  unfold encodable, utf8_ok. simpl. by rewrite Hc.
Qed.

Lemma utf8_encode_surrogate c s :
  is_surrogate c = true → c ∈ s → utf8_encode s = None.
Proof.
  intros Hc. induction s as [|d s IH]; intros Hin.
  { by apply elem_of_nil in Hin. }
  apply elem_of_cons in Hin as [<-|Hin]; simpl.
  - unfold utf8_encode_char. rewrite Hc. unfold is_surrogate in Hc.
    apply andb_prop in Hc as [H1%N.leb_le H2%N.leb_le].
    by destruct (N.ltb_spec c 128); [lia|]; destruct (N.ltb_spec c 2048); [lia|].
  - rewrite IH by done. by destruct (utf8_encode_char d).
Qed.

Lemma universal_newlines_no_cr s :
  forallb (λ c, negb (c =? 13)) s = true → universal_newlines s = s.
Proof.
  induction s as [|c s IH]; [done|]. simpl.
  intros [Hc Hs]%andb_prop. destruct (c =? 13); [done|]. by rewrite IH.
Qed.

End TextFileFacts.

(** ** Saving and loading the history *)

Section PersistenceFacts.

Import Chat TextFile.

Lemma turn_text t tail :
  concat (turn_chunks t) ++ tail
  = 123 :: 10 :: 32 :: 32 :: 32 :: 32 :: 34 :: 114 :: 111 :: 108 :: 101 :: 34
    :: 58 :: 32 :: 34 :: flat_map escape_char (role t)
    ++ 34 :: 44 :: 10 :: 32 :: 32 :: 32 :: 32 :: 34 :: 99 :: 111 :: 110 :: 116
    :: 101 :: 110 :: 116 :: 34 :: 58 :: 32 :: 34
    :: flat_map escape_char (content t) ++ 34 :: 10 :: 32 :: 32 :: 125 :: tail.
Proof.
  unfold turn_chunks, encode_basestring. py_literals. simpl.
  repeat (rewrite <-app_assoc; simpl). reflexivity.
Qed.

(** The scanner reads the text of a turn back as the dict of the turn. *)
Lemma scan_once_turn t n tail :
  scan_once (4 + n) (concat (turn_chunks t) ++ tail)
  = Scanned (turn_json t) tail.
Proof.
  rewrite turn_text. simpl. rewrite scanstring_escaped. simpl.
  rewrite scanstring_escaped. reflexivity.
Qed.

Lemma skip_ws_turn t tail :
  skip_ws (concat (turn_chunks t) ++ tail) = concat (turn_chunks t) ++ tail.
Proof. rewrite turn_text. reflexivity. Qed.

Lemma array_loop_S n s values :
  array_loop (S n) s values
  = match scan_once n s with
    | Scanned v t =>
        match skip_ws t with
        | c :: r =>
            if c =? 93 then Scanned (JArr (values ++ [v])) r
            else if c =? 44 then array_loop n (skip_ws r) (values ++ [v])
            else ScanError expecting_comma
        | [] => ScanError expecting_comma
        end
    | ScanError e => ScanError e
    | OutOfFuel => OutOfFuel
    end.
Proof. reflexivity. Qed.

Lemma items_text buf t h :
  concat (items_chunks buf (t :: h))
  = buf ++ concat (turn_chunks t) ++ concat (items_chunks separator h).
Proof. cbn [items_chunks concat]. by rewrite concat_app. Qed.

Lemma array_loop_items h : ∀ t n values tail,
  (length h + 5 ≤ n)%nat →
  array_loop n
    (concat (turn_chunks t)
     ++ concat (items_chunks separator h) ++ 10 :: 93 :: tail) values
  = Scanned (JArr (values ++ turn_json t :: (turn_json <$> h))) tail.
Proof.
  induction h as [|t' h IH]; intros t n values tail Hn.
  - destruct n as [|n]; [simpl in Hn; lia|].
    rewrite array_loop_S.
    replace n with (4 + (n - 4))%nat by (simpl in Hn; lia).
    rewrite scan_once_turn. reflexivity.
  - destruct n as [|n]; [simpl in Hn; lia|].
    rewrite array_loop_S.
    replace n with (4 + (n - 4))%nat at 1 by (simpl in Hn; lia).
    rewrite scan_once_turn, items_text, <-!app_assoc.
    change (skip_ws (separator ++ ?x)) with (44 :: 10 :: 32 :: 32 :: x).
    cbn beta iota.
    change (44 =? 93) with false. change (44 =? 44) with true. cbn beta iota.
    change (skip_ws (10 :: 32 :: 32 :: ?x)) with (skip_ws x).
    rewrite skip_ws_turn, IH by (simpl in Hn; lia).
    by rewrite <-app_assoc.
Qed.

Lemma length_items_chunks h :
  (length h ≤ length (concat (items_chunks separator h)))%nat.
Proof.
  induction h as [|t h IH]; [done|].
  rewrite items_text, !length_app. simpl. lia.
Qed.

(** [json.loads] reads the text of a history back as the list of its
    dicts. *)
Lemma loads_history h :
  loads (concat (iterencode h)) = Ok (JArr (turn_json <$> h)).
Proof.
  destruct h as [|t h]; [reflexivity|].
  unfold iterencode. rewrite concat_app, items_text.
  change (concat [[10]; py "]"]) with [10; 93].
  change (91 :: 10 :: py "  ") with [91; 10; 32; 32].
  rewrite <-!app_assoc.
  set (body := concat (turn_chunks t) ++ _).
  unfold loads. change (startswith [65279] ([91; 10; 32; 32] ++ body)) with false.
  cbn iota.
  assert (Hfuel : ∃ n, scan_fuel ([91; 10; 32; 32] ++ body) = S n
                       ∧ (length h + 5 ≤ n)%nat).
  { unfold scan_fuel. eexists. split; [by rewrite Nat.add_succ_r|].
    unfold body. rewrite !length_app. pose proof (length_items_chunks h).
    simpl. lia. }
  destruct Hfuel as (n & -> & Hn).
  change (skip_ws ([91; 10; 32; 32] ++ body)) with (91 :: 10 :: 32 :: 32 :: body).
  change (scan_once (S n) (91 :: 10 :: 32 :: 32 :: body))
    with (match skip_ws body with
          | c1 :: r1 =>
              if c1 =? 93 then Scanned (JArr []) r1
              else array_loop n (c1 :: r1) []
          | [] => ScanError expecting_value
          end).
  unfold body at 1. rewrite skip_ws_turn. rewrite turn_text at 1.
  cbn iota. change (123 =? 93) with false. cbn iota.
  rewrite <-turn_text. fold body. unfold body.
  rewrite array_loop_items by done. reflexivity.
Qed.

Lemma as_history_turn_json h : as_history (JArr (turn_json <$> h)) = Some h.
Proof.
  unfold as_history. induction h as [|t h IH]; [done|].
  cbn [fmap list_fmap mapM]. fold (fmap turn_json h). rewrite IH.
  by destruct t.
Qed.

Lemma plain_hexdigit d : d < 16 → plain (hexdigit d) = true.
Proof.
  intros Hd. unfold plain, utf8_ok, is_code_point, is_surrogate, hexdigit.
  destruct (N.ltb_spec d 10); n_tests;
    repeat match goal with
    | |- context [?a =? ?b] => destruct (N.eqb_spec a b); try lia
    end; done.
Qed.

Lemma plain_escape_char c :
  utf8_ok c = true → forallb plain (escape_char c) = true.
Proof.
  intros Hc. unfold escape_char.
  repeat match goal with
  | |- context [if ?c =? ?k then _ else _] =>
      destruct (N.eqb_spec c k) as [->|?]; [reflexivity|]
  end.
  destruct (N.ltb_spec c 32).
  - cbn [forallb]. rewrite !plain_hexdigit; [done|n_arith|n_arith].
  - cbn [forallb]. unfold plain. rewrite Hc.
    by destruct (N.eqb_spec c 13); [lia|].
Qed.

Lemma plain_encode_basestring s :
  encodable s = true → forallb plain (encode_basestring s) = true.
Proof.
  intros Hs. unfold encode_basestring. cbn [forallb].
  rewrite forallb_app. change (plain 34) with true. cbn.
  rewrite andb_true_r.
  induction s as [|c s IH]; [done|]. simpl in *.
  apply andb_prop in Hs as [Hc Hs].
  by rewrite forallb_app, plain_escape_char, IH.
Qed.

Lemma plain_iterencode h :
  history_encodable h = true →
  Forall (λ chunk, forallb plain chunk = true) (iterencode h).
Proof.
  intros Hh.
  assert (Hitems : ∀ buf, forallb plain buf = true →
            Forall (λ chunk, forallb plain chunk = true) (items_chunks buf h)).
  { induction h as [|t h IH]; intros buf Hbuf; [constructor|].
    simpl in Hh. apply andb_prop in Hh as [[Hr Hc]%andb_prop Hh].
    cbn [items_chunks]. constructor; [done|]. apply Forall_app. split.
    - unfold turn_chunks.
      repeat (constructor;
              [first [reflexivity | by apply plain_encode_basestring]|]).
      constructor.
    - by apply IH. }
  destruct h as [|t h]; unfold iterencode.
  - by constructor.
  - apply Forall_app. split; [by apply Hitems|].
    by repeat constructor.
Qed.

Lemma plain_encodable s :
  forallb plain s = true →
  encodable s = true ∧ forallb (λ c, negb (c =? 13)) s = true.
Proof.
  induction s as [|c s IH]; [done|]. simpl.
  intros [[Hc Hn]%andb_prop Hs]%andb_prop. destruct (IH Hs) as [-> ->].
  unfold encodable in *. by rewrite Hc, Hn.
Qed.

Lemma plain_concat chunks :
  Forall (λ chunk, forallb plain chunk = true) chunks →
  forallb plain (concat chunks) = true.
Proof.
  induction 1 as [|chunk chunks Hc _ IH]; [done|].
  simpl. by rewrite forallb_app, Hc, IH.
Qed.

Variable writable : pystr → bool.

(** Writing chunks the codec accepts appends the encoding of their
    concatenation. *)
Lemma write_chunks_plain filename chunks : ∀ s old,
  Forall (λ chunk, forallb plain chunk = true) chunks →
  fs s !! filename = Some old →
  ∃ bytes,
    utf8_encode (concat chunks) = Some bytes
    ∧ write_chunks filename chunks s
      = (Ok tt, {| bot := bot s; fs := <[filename := old ++ bytes]> (fs s) |}).
Proof.
  induction chunks as [|chunk chunks IH]; intros s old Hall Hold.
  - exists []. split; [done|]. cbn [write_chunks]. unfold mret, SE_ret.
    rewrite app_nil_r, insert_id by done. by destruct s.
  - apply Forall_cons in Hall as [Hc Hall].
    destruct (utf8_encode_encodable chunk) as [b Hb];
      [by apply plain_encodable|].
    set (s1 := {| bot := bot s; fs := <[filename := old ++ b]> (fs s) |}).
    destruct (IH s1 (old ++ b) Hall) as (bytes & Hbytes & Hw).
    { apply lookup_insert_eq. }
    exists (b ++ bytes). split.
    + simpl. by apply utf8_encode_app.
    + cbn [write_chunks]. erewrite bind_ok; cycle 1.
      { unfold on_files, write. rewrite Hb. unfold modify. rewrite Hold.
        reflexivity. }
      change (default [] (Some old)) with old. fold s1.
      rewrite Hw. unfold s1. simpl.
      by rewrite insert_insert_eq, app_assoc.
Qed.

(** A chunk the codec refuses makes the loop raise, at that chunk or at an
    earlier one. *)
Lemma write_chunks_unencodable filename chunks : ∀ s,
  Exists (λ chunk, utf8_encode chunk = None) chunks →
  is_raise (write_chunks filename chunks s).1 = true.
Proof.
  induction chunks as [|chunk chunks IH]; intros s Hex.
  { by apply Exists_nil in Hex. }
  cbn [write_chunks]. destruct (utf8_encode chunk) as [b|] eqn:Hb.
  - apply Exists_cons in Hex as [Hex|Hex]; [congruence|].
    erewrite bind_ok; [by apply IH|].
    unfold on_files, write. rewrite Hb. reflexivity.
  - erewrite bind_raise; [reflexivity|].
    unfold on_files, write. rewrite Hb. reflexivity.
Qed.

Lemma escape_char_surrogate c : is_surrogate c = true → escape_char c = [c].
Proof.
  unfold is_surrogate. intros [H1%N.leb_le H2%N.leb_le]%andb_prop.
  unfold escape_char.
  repeat match goal with
  | |- context [if ?c =? ?k then _ else _] =>
      destruct (N.eqb_spec c k); [lia|]
  end.
  by destruct (N.ltb_spec c 32); [lia|].
Qed.

Lemma encode_basestring_surrogate c s :
  is_surrogate c = true → c ∈ s → utf8_encode (encode_basestring s) = None.
Proof.
  intros Hc Hin. apply (utf8_encode_surrogate c); [done|].
  unfold encode_basestring. apply elem_of_cons. right.
  apply elem_of_app. left. apply list_elem_of_In, in_flat_map.
  exists c. split; [by apply list_elem_of_In|].
  rewrite escape_char_surrogate by done. by left.
Qed.

Lemma iterencode_turn t h :
  t ∈ h →
  encode_basestring (role t) ∈ iterencode h
  ∧ encode_basestring (content t) ∈ iterencode h.
Proof.
  intros Hin.
  assert (Hitems : ∀ buf,
            encode_basestring (role t) ∈ items_chunks buf h
            ∧ encode_basestring (content t) ∈ items_chunks buf h).
  { induction h as [|t' h IH]; intros buf; [by apply elem_of_nil in Hin|].
    cbn [items_chunks]. apply elem_of_cons in Hin as [<-|Hin].
    - unfold turn_chunks.
      split; apply list_elem_of_further, elem_of_app; left;
        repeat first [apply list_elem_of_here | apply list_elem_of_further].
    - destruct (IH Hin separator).
      split; by apply list_elem_of_further, elem_of_app; right. }
  destruct h as [|t' h]; [by apply elem_of_nil in Hin|].
  unfold iterencode. destruct (Hitems (91 :: 10 :: py "  ")).
  split; by apply elem_of_app; left.
Qed.

(** A surrogate anywhere in the history makes [save_conversation] raise:
    the condition of the theorem below cannot be dropped. *)
Lemma save_conversation_surrogate filename s t c :
  t ∈ conversation_history (bot s) →
  is_surrogate c = true →
  c ∈ role t ∨ c ∈ content t →
  is_raise (save_conversation writable filename s).1 = true.
Proof.
  intros Ht Hc Hin. unfold save_conversation, open_w.
  destruct (writable filename); [|done].
  erewrite bind_ok by reflexivity. erewrite bind_ok by reflexivity.
  apply write_chunks_unencodable, Exists_exists.
  destruct (iterencode_turn t _ Ht) as [Hr Hco].
  destruct Hin as [Hin|Hin].
  - exists (encode_basestring (role t)).
    split; [done|by eapply encode_basestring_surrogate].
  - exists (encode_basestring (content t)).
    split; [done|by eapply encode_basestring_surrogate].
Qed.

(** C8, as the code has it.  For a history whose strings the [utf-8]
    codec can write (no surrogate code points) and a file that can be
    opened for writing, [save_conversation] succeeds and leaves the
    chatbot as it was, and [load_conversation] on the saved file, from
    whatever history, sets the history to the turns that were saved, in
    their order. *)
Theorem save_load_conversation filename s :
  writable filename = true →
  history_encodable (conversation_history (bot s)) = true →
  ∃ saved,
    save_conversation writable filename s = (Ok tt, saved)
    ∧ bot saved = bot s
    ∧ ∀ other,
        load_conversation filename {| bot := other; fs := fs saved |}
        = (Ok Loaded,
           {| bot := {| conversation_history := conversation_history (bot s);
                        mcp_enabled := mcp_enabled other |};
              fs := fs saved |}).
Proof.
  intros Hw Hh. set (h := conversation_history (bot s)) in *.
  pose proof (plain_iterencode h Hh) as Hplain.
  set (s0 := {| bot := bot s; fs := <[filename := []]> (fs s) |}).
  destruct (write_chunks_plain filename (iterencode h) s0 [] Hplain)
    as (bytes & Hbytes & Hwrite).
  { apply lookup_insert_eq. }
  exists {| bot := bot s; fs := <[filename := bytes]> (fs s) |}. split_and!.
  - unfold save_conversation, open_w. rewrite Hw.
    erewrite bind_ok by reflexivity. fold s0.
    erewrite bind_ok by reflexivity.
    etrans; [exact Hwrite|]. unfold s0. simpl. by rewrite insert_insert_eq.
  - done.
  - intros other. unfold load_conversation.
    destruct (plain_encodable _ (plain_concat _ Hplain)) as [_ Hcr].
    erewrite bind_ok; cycle 1.
    { unfold on_files, read. erewrite bind_ok by reflexivity. simpl.
      rewrite lookup_insert_eq.
      rewrite (utf8_decode_encode _ _ Hbytes). simpl.
      rewrite (universal_newlines_no_cr _ Hcr). reflexivity. }
    erewrite bind_ok by (unfold lift; rewrite loads_history; reflexivity).
    rewrite as_history_turn_json. reflexivity.
Qed.

End PersistenceFacts.

(** *** Saving and loading on the test doubles *)

Section PersistenceRuns.

Import Chat.

Lemma save_load_conversation_witness :
  ∃ saved,
    save_conversation Stub.always (py "chat.json") Stub.session = (Ok tt, saved)
    ∧ bot saved = bot Stub.session
    ∧ ∀ other,
        load_conversation (py "chat.json") {| bot := other; fs := fs saved |}
        = (Ok Loaded,
           {| bot := {| conversation_history :=
                          conversation_history (bot Stub.session);
                        mcp_enabled := mcp_enabled other |};
              fs := fs saved |}).
Proof.
  apply (save_load_conversation Stub.always (py "chat.json") Stub.session);
    vm_compute; reflexivity.
Defined.

(** C8 fails on the code: a history with a lone surrogate, which a Python
    [str] can hold, cannot be written; [save_conversation] raises in the
    middle of the file and what it leaves cannot be loaded. *)
Lemma save_conversation_lone_surrogate :
  is_str [0xD800] = true
  ∧ (save_conversation Stub.always (py "chat.json") Stub.surrogate_session).1
    = Raise (Exn UnicodeEncodeError
               (py "'utf-8' codec can't encode character: surrogates not allowed"))
  ∧ ((save_conversation Stub.always (py "chat.json");;
      load_conversation (py "chat.json")) Stub.surrogate_session).1
    = Raise (Exn UnicodeEncodeError
               (py "'utf-8' codec can't encode character: surrogates not allowed"))
  ∧ (load_conversation (py "chat.json")
       (save_conversation Stub.always (py "chat.json")
          Stub.surrogate_session).2).1
    = Raise (decode_error "Expecting value").
Proof. vm_compute. split_and!; reflexivity. Qed.

End PersistenceRuns.

(** * Further properties of the manager *)

Section LifecycleFacts.

Import MCP Lifecycle.

Variable os_environ : gmap pystr pystr.
Variable popen : nat → list pystr → gmap pystr pystr → result child.

#[local] Abbreviation start_server := (MCP.start_server os_environ popen).
#[local] Abbreviation launch := (Lifecycle.launch os_environ popen).

Lemma launch_Ok st server cmd env c :
  launch st server = Ok (cmd, env, c) ↔
  child_env os_environ server = Ok env ∧ child_cmd server = Ok cmd
  ∧ popen (length (procs st)) cmd env = Ok c.
Proof.
  unfold Lifecycle.launch.
  destruct (child_env os_environ server) as [env'|]; simpl.
  2:{ split; [done|]. by intros (? & _). }
  destruct (child_cmd server) as [cmd'|]; simpl.
  2:{ split; [done|]. by intros (_ & ? & _). }
  destruct (popen _ cmd' env') as [c'|] eqn:E; simpl.
  - split.
    + by intros [= -> -> ->].
    + intros ([= ->] & [= ->] & Hp). rewrite E in Hp. by simplify_eq.
  - split; [done|]. intros ([= ->] & [= ->] & Hp). congruence.
Qed.

(** A failed launch: [start_server] returns [False] and only logs. *)
Lemma start_server_launch_failed server_name st server e :
  servers st !! server_name = Some server →
  launch st server = Raise e →
  start_server server_name st
  = (Ok false, (logger (FailedToStart server_name e) st).2).
Proof.
  intros Hs Hl. unfold MCP.start_server.
  erewrite bind_ok by reflexivity. rewrite Hs.
  unfold Lifecycle.launch in Hl.
  erewrite try_raise; [reflexivity|].
  destruct (child_env os_environ server) as [env|e1]; simpl in Hl.
  2:{ simplify_eq. by erewrite bind_raise. }
  erewrite bind_ok by reflexivity.
  destruct (child_cmd server) as [cmd|e2]; simpl in Hl.
  2:{ simplify_eq. by erewrite bind_raise. }
  erewrite bind_ok by reflexivity.
  destruct (popen (length (procs st)) cmd env) as [c|e3] eqn:Hp; simpl in Hl;
    [done|]. simplify_eq.
  erewrite bind_raise; [reflexivity|]. by apply Popen_raise.
Qed.

Lemma start_server_not_found server_name st :
  servers st !! server_name = None →
  start_server server_name st
  = (Ok false, (logger (ServerNotFound server_name) st).2).
Proof.
  intros Hs. unfold MCP.start_server.
  erewrite bind_ok by reflexivity. by rewrite Hs.
Qed.

(** Where every read of a child returns, [start_server] ends, with a
    boolean. *)
Lemma start_server_cases server_name st :
  ∃ b st',
    start_server server_name st = (Ok b, st')
    ∧ (b = true ↔ ∃ server l, servers st !! server_name = Some server
                              ∧ launch st server = Ok l)
    ∧ (b = false →
       procs st' = procs st
       ∧ active_connections st' = active_connections st
       ∧ available_tools st' = available_tools st
       ∧ servers st' = servers st
       ∧ ∃ entry, log st' = log st ++ [entry]).
Proof.
  destruct (servers st !! server_name) as [server|] eqn:Hs.
  - destruct (launch st server) as [[[cmd env] c]|e] eqn:Hl.
    + apply launch_Ok in Hl as Hl'. destruct Hl' as (He & Hc & Hp).
      destruct (start_server_spawned os_environ popen _ _ _ _ _ _ Hs He Hc Hp)
        as (st' & E & _).
      exists true, st'. split_and!; [done| |done]. split; [|done]. intros _. by exists server, (cmd, env, c).
    + eexists false, _. split_and!.
      * by eapply start_server_launch_failed.
      * split; [done|]. intros (server' & l & ? & ?). congruence.
      * intros _. simpl. split_and!; eauto.
  - eexists false, _. split_and!.
    + by apply start_server_not_found.
    + split; [done|]. intros (server' & l & ? & ?). congruence.
    + intros _. simpl. split_and!; eauto.
Qed.

(** X1. Whenever [start_server] ends, it has returned and not raised.
    It has returned [True] exactly when the name is registered and the
    child could be launched; when it has returned [False] it has spawned
    nothing and changed nothing but the log, to which it has added one
    entry. *)
Theorem start_server_outcome server_name st r st' :
  start_server server_name st = (r, st') →
  ∃ b,
    r = Ok b
    ∧ (b = true ↔ ∃ server l, servers st !! server_name = Some server
                              ∧ launch st server = Ok l)
    ∧ (b = false →
       procs st' = procs st
       ∧ active_connections st' = active_connections st
       ∧ available_tools st' = available_tools st
       ∧ servers st' = servers st
       ∧ ∃ entry, log st' = log st ++ [entry]).
Proof.
  intros E. destruct (start_server_cases server_name st)
    as (b & st0 & E0 & Hb & Hf).
  rewrite E in E0. injection E0 as -> ->. by exists b.
Qed.

(** *** The connections and the process table *)

Lemma handles_lookup st pid :
  pid ∈ handles st ↔ ∃ n, active_connections st !! n = Some pid.
Proof.
  unfold handles. rewrite list_elem_of_fmap. split.
  - intros ([n pid'] & -> & Hin). exists n. by apply elem_of_map_to_list in Hin.
  - intros (n & Hn). exists (n, pid). split; [done|]. by apply elem_of_map_to_list.
Qed.

Lemma held_spec st pid :
  held st pid = true ↔ ∃ n, active_connections st !! n = Some pid.
Proof. unfold held. rewrite bool_decide_eq_true. apply handles_lookup. Qed.

Lemma NoDup_values (m : gmap pystr nat) :
  NoDup (map_to_list m).*2
  ↔ ∀ n1 n2 pid, m !! n1 = Some pid → m !! n2 = Some pid → n1 = n2.
Proof.
  split.
  - intros Hnd n1 n2 pid H1 H2.
    apply elem_of_map_to_list, list_elem_of_lookup in H1 as [i Hi].
    apply elem_of_map_to_list, list_elem_of_lookup in H2 as [j Hj].
    assert (i = j) as ->.
    { eapply NoDup_lookup; [exact Hnd| |]; rewrite list_lookup_fmap.
      - by rewrite Hi.
      - by rewrite Hj. }
    congruence.
  - intros Hinj. apply NoDup_fmap_2_strong; [|apply NoDup_map_to_list].
    intros [n1 p1] [n2 p2] H1%elem_of_map_to_list H2%elem_of_map_to_list ?.
    simplify_eq/=. f_equal. eauto.
Qed.

Lemma well_formed_alt st :
  well_formed st ↔
  (∀ n pid, active_connections st !! n = Some pid →
            (pid < length (procs st))%nat)
  ∧ (∀ n1 n2 pid, active_connections st !! n1 = Some pid →
                  active_connections st !! n2 = Some pid → n1 = n2).
Proof.
  unfold well_formed. unfold handles at 2. rewrite NoDup_values, Forall_forall.
  split; intros [Hv Hi]; (split; [|done]).
  - intros n pid Hn. apply Hv, handles_lookup. eauto.
  - intros pid [n Hn]%handles_lookup. eauto.
Qed.

Lemma well_formed_same st st' :
  well_formed st →
  active_connections st' = active_connections st →
  length (procs st') = length (procs st) →
  well_formed st'.
Proof.
  rewrite !well_formed_alt. intros [Hv Hi] Ha Hl. rewrite Ha, Hl. done.
Qed.

Lemma well_formed_delete st st' n :
  well_formed st →
  active_connections st' = delete n (active_connections st) →
  length (procs st') = length (procs st) →
  well_formed st'.
Proof.
  rewrite !well_formed_alt. intros [Hv Hi] Ha Hl. rewrite Ha, Hl. split.
  - intros k pid [_ Hk]%lookup_delete_Some. eauto.
  - intros n1 n2 pid [_ H1]%lookup_delete_Some [_ H2]%lookup_delete_Some. eauto.
Qed.

Lemma well_formed_insert st st' n :
  well_formed st →
  active_connections st' = <[n := length (procs st)]> (active_connections st) →
  length (procs st') = Datatypes.S (length (procs st)) →
  well_formed st'.
Proof.
  rewrite !well_formed_alt. intros [Hv Hi] Ha Hl. rewrite Ha, Hl. split.
  - intros k pid [[_ <-]|[_ Hk]]%lookup_insert_Some; [lia|].
    apply Hv in Hk. lia.
  - intros n1 n2 pid [[<- <-]|[? H1]]%lookup_insert_Some
                     [[<- E]|[? H2]]%lookup_insert_Some; try done.
    + apply Hv in H2. lia.
    + apply Hv in H1. lia.
    + eauto.
Qed.

#[local] Existing Instance same_lifecycle_preorder.

Ltac lifecycle_rule :=
  lazymatch goal with
  | |- stable _ (mbind _ _) => apply stable_bind; [apply _| |intro]
  | |- stable _ (try _ _) => apply stable_try; [apply _| |intro]
  | |- stable _ (when _ _) => apply stable_when; [apply _|]
  | |- stable _ (mret _) => apply stable_ret; apply _
  | |- stable _ (lift _) => apply stable_lift; apply _
  | |- stable _ (raise _) => apply stable_raise; apply _
  | |- stable _ StateExn.get => apply stable_get; apply _
  | |- stable _ (if ?b then _ else _) => destruct b
  | |- stable _ (logger _) => apply stable_logger
  | |- stable _ (stdin_write _ _) => apply stable_stdin_write
  | |- stable _ (stdout_readline _) => apply stable_stdout_readline
  | |- stable _ (connection _) => apply stable_connection
  end.

Lemma stable_call_tool server_name tool_name arguments :
  stable same_lifecycle (call_tool server_name tool_name arguments).
Proof.
  unfold call_tool. lifecycle_rule; [lifecycle_rule|].
  destruct (active_connections a !! server_name); repeat lifecycle_rule.
Qed.

Lemma same_lifecycle_length st st' :
  same_lifecycle st st' → length (procs st') = length (procs st).
Proof.
  intros (_ & _ & H). apply (f_equal length) in H. by rewrite !length_fmap in H.
Qed.

Lemma stop_server_absent server_name st :
  active_connections st !! server_name = None →
  stop_server server_name st = (Ok tt, st).
Proof.
  intros H. unfold stop_server. erewrite bind_ok by reflexivity. by rewrite H.
Qed.

Lemma stop_server_connected server_name st pid :
  active_connections st !! server_name = Some pid →
  stop_server server_name st
  = (Ok tt,
     {| servers := servers st;
        active_connections := delete server_name (active_connections st);
        available_tools := available_tools st;
        procs := alter (set_status Terminated) pid (procs st);
        log := log st ++ [StoppedServer server_name] |}).
Proof.
  intros H. unfold stop_server. erewrite bind_ok by reflexivity. by rewrite H.
Qed.

Lemma is_running_terminated st st' pid pid' :
  procs st' = alter (set_status Terminated) pid (procs st) →
  is_running st' pid' = if decide (pid' = pid) then false else is_running st pid'.
Proof.
  intros E. unfold is_running. rewrite E. case_decide as H.
  - subst. rewrite list_lookup_alter_eq. by destruct (procs st !! pid).
  - by rewrite list_lookup_alter_ne by auto.
Qed.

Lemma well_formed_stop_server server_name st :
  well_formed st → well_formed (stop_server server_name st).2.
Proof.
  intros Hwf. destruct (active_connections st !! server_name) as [pid|] eqn:Hn.
  - rewrite (stop_server_connected _ _ pid) by done.
    eapply well_formed_delete; [done|done|]. simpl. apply length_alter.
  - by rewrite stop_server_absent.
Qed.

Lemma well_formed_stop_each names st :
  well_formed st → well_formed (stop_each names st).2.
Proof.
  revert st. induction names as [|n names IH]; intros st Hwf; [done|].
  cbn [stop_each].
  pose proof (well_formed_stop_server n st Hwf) as H1.
  assert (∃ st1, stop_server n st = (Ok tt, st1)) as [st1 E].
  { destruct (active_connections st !! n) eqn:Hn.
    - eexists. by apply stop_server_connected.
    - eexists. by apply stop_server_absent. }
  erewrite bind_ok by exact E. rewrite E in H1. by apply IH.
Qed.

Lemma well_formed_start_server server_name st :
  well_formed st → well_formed (start_server server_name st).2.
Proof.
  intros Hwf. destruct (servers st !! server_name) as [server|] eqn:Hs.
  - destruct (launch st server) as [[[cmd env] c]|e] eqn:Hl.
    + apply launch_Ok in Hl as (He & Hc & Hp).
      destruct (start_server_spawned os_environ popen _ _ _ _ _ _ Hs He Hc Hp)
        as (st' & -> & _ & Ha & Hst).
      eapply well_formed_insert; [done|done|]. simpl.
      apply (f_equal length) in Hst.
      rewrite length_app, !length_fmap in Hst. simpl in Hst. lia.
    + erewrite start_server_launch_failed by done. by eapply well_formed_same.
  - rewrite start_server_not_found by done. by eapply well_formed_same.
Qed.

(** X2. In a manager reached from [MCPManager()] every handle is a
    process that was spawned and no process is held under two names:
    [add_server], [start_server], [stop_server], [stop_all_servers] and
    [call_tool] keep that, however they end. *)
Theorem well_formed_preserved st :
  well_formed st →
  (∀ server, well_formed (add_server server st).2)
  ∧ (∀ server_name, well_formed (start_server server_name st).2)
  ∧ (∀ server_name, well_formed (stop_server server_name st).2)
  ∧ (∀ keys, well_formed (stop_all_servers keys st).2)
  ∧ (∀ server_name tool_name arguments,
       well_formed (call_tool server_name tool_name arguments st).2).
Proof.
  intros Hwf. split_and!.
  - intros server. by eapply well_formed_same.
  - intros n. by apply well_formed_start_server.
  - intros n. by apply well_formed_stop_server.
  - intros keys. unfold stop_all_servers. erewrite bind_ok by reflexivity.
    by apply well_formed_stop_each.
  - intros n t a.
    pose proof (stable_call_tool n t a st) as Hst.
    eapply well_formed_same; [done|apply Hst|].
    by apply same_lifecycle_length.
Qed.

Lemma well_formed_new : well_formed MCPManager_new.
Proof. split; [apply Forall_nil_2|apply NoDup_nil_2]. Qed.

(** *** Status *)

Lemma get_server_status_lookup st k :
  get_server_status st !! k = (λ _, status_of st k) <$> servers st !! k.
Proof.
  unfold get_server_status, status_of. rewrite map_lookup_imap.
  by destruct (servers st !! k).
Qed.

(** X25. [add_server] registers the server under its name, in place of
    an earlier server of that name, and touches no connection, process or
    tool: the status of the name is what its connection gives,
    [not_started] when it has none, and a process launched for the
    earlier server stays connected under the name. *)
Theorem add_server_registers server st :
  let '(r, st') := add_server server st in
  r = Ok tt
  ∧ servers st' = <[name server := server]> (servers st)
  ∧ active_connections st' = active_connections st
  ∧ procs st' = procs st
  ∧ available_tools st' = available_tools st
  ∧ get_server_status st'
    = <[name server := status_of st (name server)]> (get_server_status st).
Proof.
  simpl. split_and!; try done.
  apply map_eq. intros k. rewrite get_server_status_lookup. simpl.
  destruct (decide (k = name server)) as [->|Hne].
  - by rewrite !lookup_insert_eq.
  - rewrite !lookup_insert_ne by done. by rewrite get_server_status_lookup.
Qed.


(** X4. [stop_server] makes the status of the server [not_started] (never
    [stopped]) and changes the status of no other server; on a name
    without a connection it changes nothing at all. *)
Theorem stop_server_status server_name st :
  well_formed st →
  get_server_status (stop_server server_name st).2
  = alter (λ _, py "not_started") server_name (get_server_status st)
  ∧ (active_connections st !! server_name = None →
     stop_server server_name st = (Ok tt, st)).
Proof.
  intros Hwf. split; [|apply stop_server_absent].
  apply map_eq. intros k.
  destruct (active_connections st !! server_name) as [pid|] eqn:Hn.
  - rewrite (stop_server_connected _ _ pid) by done. simpl.
    rewrite get_server_status_lookup. simpl.
    destruct (decide (k = server_name)) as [->|Hne].
    + rewrite lookup_alter_eq, get_server_status_lookup.
      destruct (servers st !! server_name); simpl; [|done]. f_equal.
      unfold status_of. simpl. by rewrite lookup_delete_eq.
    + rewrite lookup_alter_ne by done. rewrite get_server_status_lookup.
      destruct (servers st !! k); simpl; [|done]. f_equal.
      unfold status_of. simpl. rewrite lookup_delete_ne by done.
      destruct (active_connections st !! k) as [pid'|] eqn:Hk; [|done].
      erewrite (is_running_terminated st _ pid pid') by reflexivity.
      case_decide; [|done]. subst.
      apply well_formed_alt in Hwf as [_ Hi]. destruct Hne. eauto.
  - rewrite stop_server_absent by done. simpl.
    destruct (decide (k = server_name)) as [->|Hne].
    + rewrite lookup_alter_eq, get_server_status_lookup.
      destruct (servers st !! server_name); simpl; [|done]. f_equal.
      unfold status_of. by rewrite Hn.
    + by rewrite lookup_alter_ne.
Qed.

(** X5. Stopping a server twice is stopping it once. *)
Theorem stop_server_idempotent server_name st :
  (stop_server server_name;; stop_server server_name) st
  = stop_server server_name st.
Proof.
  destruct (active_connections st !! server_name) as [pid|] eqn:Hn.
  - erewrite bind_ok by by apply stop_server_connected.
    rewrite stop_server_absent by apply lookup_delete_eq.
    by rewrite (stop_server_connected _ _ pid).
  - erewrite bind_ok by by apply stop_server_absent.
    done.
Qed.

(** *** Stopping every server *)

Lemma stop_each_spec names : ∀ st, ∃ st',
  stop_each names st = (Ok tt, st')
  ∧ servers st' = servers st
  ∧ available_tools st' = available_tools st
  ∧ (∀ k, active_connections st' !! k
          = if decide (k ∈ names) then None else active_connections st !! k)
  ∧ (∀ pid, is_running st' pid = true
            ↔ is_running st pid = true
              ∧ ∀ n, n ∈ names → active_connections st !! n ≠ Some pid).
Proof.
  induction names as [|n names IH]; intros st.
  - exists st. split_and!; try done.
    intros pid. split; [|by intros [? _]]. intros ?. split; [done|].
    intros n Hin. by apply elem_of_nil in Hin.
  - cbn [stop_each].
    destruct (active_connections st !! n) as [p|] eqn:Hn.
    + pose proof (stop_server_connected n st p Hn) as E1.
      set (st1 := {| servers := servers st;
                     active_connections := delete n (active_connections st) |})
        in E1.
      destruct (IH st1) as (st' & E & Hs & Ht & Ha & Hr).
      exists st'. split_and!.
      * erewrite bind_ok by exact E1. exact E.
      * by rewrite Hs.
      * by rewrite Ht.
      * intros k. rewrite Ha. simpl.
        destruct (decide (k = n)) as [->|Hne].
        -- rewrite lookup_delete_eq, (decide_True _ _ (list_elem_of_here _ _)).
           by case_decide.
        -- rewrite lookup_delete_ne by done.
           destruct (decide (k ∈ names)) as [Hin|Hnin].
           ++ by rewrite decide_True by by apply list_elem_of_further.
           ++ rewrite decide_False; [done|].
              rewrite elem_of_cons. by intros [?|?].
      * intros pid. rewrite Hr.
        rewrite (is_running_terminated st st1 p pid) by reflexivity.
        simpl. split.
        -- intros [Hrun Hrest]. case_decide as Hp; [done|].
           split; [done|]. intros m [->|Hm]%elem_of_cons.
           ++ rewrite Hn. congruence.
           ++ destruct (decide (m = n)) as [->|Hmn]; [rewrite Hn; congruence|].
              specialize (Hrest m Hm). by rewrite lookup_delete_ne in Hrest.
        -- intros [Hrun Hall]. split.
           ++ rewrite decide_False; [done|]. intros ->.
              by apply (Hall n (list_elem_of_here _ _)).
           ++ intros m Hm. destruct (decide (m = n)) as [->|Hmn].
              ** by rewrite lookup_delete_eq.
              ** rewrite lookup_delete_ne by done.
                 by apply Hall, list_elem_of_further.
    + destruct (IH st) as (st' & E & Hs & Ht & Ha & Hr).
      exists st'. split_and!; [|done|done| |].
      * erewrite bind_ok by by apply stop_server_absent. exact E.
      * intros k. rewrite Ha.
        destruct (decide (k ∈ names)) as [Hin|Hnin].
        -- by rewrite decide_True by by apply list_elem_of_further.
        -- destruct (decide (k = n)) as [->|Hne].
           ++ rewrite Hn. by case_decide.
           ++ rewrite decide_False; [done|].
              rewrite elem_of_cons. by intros [?|?].
      * intros pid. rewrite Hr. split; intros [Hrun Hall]; (split; [done|]).
        -- intros m [->|Hm]%elem_of_cons; [by rewrite Hn|by apply Hall].
        -- intros m Hm. by apply Hall, list_elem_of_further.
Qed.

Lemma key_order_elem_of (keys : gmap pystr nat → list pystr)
    (m : gmap pystr nat) (k : pystr) :
  key_order keys → k ∈ keys m ↔ is_Some (m !! k).
Proof.
  intros Hk. rewrite (Hk m), list_elem_of_fmap. split.
  - intros ([k' x] & -> & Hin%elem_of_map_to_list). by exists x.
  - intros [x Hx]. exists (k, x). split; [done|]. by apply elem_of_map_to_list.
Qed.

(** X6. Whatever the order of the keys, [stop_all_servers] does not
    raise and leaves no connection; a process keeps running exactly when
    it ran before and the manager did not hold it (a child runs until it
    is terminated).  The servers and the
    tools stay, every registered server reports [not_started], and a
    second call changes nothing. *)
Theorem stop_all_servers_spec (keys : gmap pystr nat → list pystr) st :
  key_order keys →
  ∃ st',
    stop_all_servers keys st = (Ok tt, st')
    ∧ active_connections st' = ∅
    ∧ servers st' = servers st
    ∧ available_tools st' = available_tools st
    ∧ (∀ pid, is_running st' pid = is_running st pid && negb (held st pid))
    ∧ get_server_status st'
      = (λ _, py "not_started") <$> get_server_status st
    ∧ stop_all_servers keys st' = (Ok tt, st').
Proof.
  intros Hk. unfold stop_all_servers at 1. erewrite bind_ok by reflexivity.
  destruct (stop_each_spec (keys (active_connections st)) st)
    as (st' & E & Hs & Ht & Ha & Hr).
  assert (Hempty : active_connections st' = ∅).
  { apply map_empty. intros k. rewrite Ha. case_decide as Hin; [done|].
    rewrite key_order_elem_of in Hin by done.
    by apply eq_None_not_Some. }
  exists st'. split_and!; try done.
  - intros pid. apply Bool.eq_iff_eq_true.
    rewrite Hr, andb_true_iff, negb_true_iff. split; intros [H1 H2].
    + split; [done|]. destruct (held st pid) eqn:Hh; [|done].
      apply held_spec in Hh as [n Hn]. destruct (H2 n); [|done].
      apply key_order_elem_of; [done|]. by exists pid.
    + split; [done|]. intros n _ Hn.
      assert (held st pid = true) by (apply held_spec; eauto). congruence.
  - apply map_eq. intros k.
    rewrite lookup_fmap, !get_server_status_lookup, Hs.
    destruct (servers st !! k); simpl; [|done]. f_equal.
    unfold status_of. by rewrite Hempty, lookup_empty.
  - unfold stop_all_servers. erewrite bind_ok by reflexivity.
    rewrite Hempty.
    assert (keys ∅ = []) as ->; [|done].
    apply Permutation_nil_r. by rewrite (Hk ∅), map_to_list_empty.
Qed.

(** *** Dicts *)

Lemma dict_get_set_eq {V} (k : pystr) (v : V) (d : pydict V) :
  dict_get k (dict_set k v d) = Some v.
Proof.
  induction d as [|[k' v'] d IH]; simpl.
  - unfold str_eqb. by rewrite bool_decide_eq_true_2.
  - destruct (str_eqb k k') eqn:E; simpl; by rewrite E.
Qed.

Lemma dict_get_set_ne {V} (k k0 : pystr) (v : V) (d : pydict V) :
  k ≠ k0 → dict_get k0 (dict_set k v d) = dict_get k0 d.
Proof.
  intros Hne. induction d as [|[k' v'] d IH]; simpl.
  - unfold str_eqb. by rewrite bool_decide_eq_false_2.
  - destruct (str_eqb k k') eqn:E; simpl.
    + apply bool_decide_eq_true in E as <-.
      unfold str_eqb. by rewrite bool_decide_eq_false_2.
    + by rewrite IH.
Qed.

(** *** The tools of a server *)

Lemma listed_tools_Some data tools :
  listed_tools data = Some tools →
  ∃ d res, data = JObj d ∧ dict_get (py "result") d = Some (JObj res)
           ∧ dict_get (py "tools") res = Some tools.
Proof.
  unfold listed_tools. destruct data as [| | | | | |d]; try done.
  destruct (dict_get (py "result") d) as [[| | | | | |res]|] eqn:E; try done.
  intros H. by exists d, res.
Qed.

Lemma get_tools_listed server_name st pid p data tools :
  active_connections st !! server_name = Some pid →
  procs st !! pid = Some p →
  p_stdin_broken p = false →
  truthy (readline (p_stdout p)).1 = true →
  loads (strip (readline (p_stdout p)).1) = Ok data →
  listed_tools data = Some tools →
  _get_tools server_name st
  = (Ok tt,
     {| servers := servers st; active_connections := active_connections st;
        available_tools := dict_set server_name tools (available_tools st);
        procs := alter (unread (readline (p_stdout p)).2) pid
                   (alter (sent tools_request) pid (procs st));
        log := log st ++ [tools_entry server_name tools] |}).
Proof.
  intros Hc Hp Hb Htr Hl Hlt.
  apply listed_tools_Some in Hlt as (d & res & -> & Hres & Htools).
  unfold _get_tools, tools_entry.
  set (st1 := set_procs (alter (sent tools_request) pid) st).
  assert (Hp1 : procs st1 !! pid = Some (sent tools_request p)).
  { unfold st1. simpl. by rewrite list_lookup_alter_eq, Hp. }
  set (line := (readline (p_stdout p)).1) in *.
  set (rest := (readline (p_stdout p)).2) in *.
  assert (Hin1 : py_in (py "result") (JObj d) = Ok true).
  { unfold py_in, dict_has. by rewrite Hres. }
  assert (Hin2 : py_in (py "tools") (JObj res) = Ok true).
  { unfold py_in, dict_has. by rewrite Htools. }
  assert (Hget1 : py_getitem (JObj d) (py "result") = Ok (JObj res)).
  { unfold py_getitem. by rewrite Hres. }
  assert (Hget2 : py_getitem (JObj res) (py "tools") = Ok tools).
  { unfold py_getitem. by rewrite Htools. }
  destruct (py_len tools) as [n|e] eqn:Hn.
  - erewrite try_ok; [reflexivity|].
    erewrite bind_ok by by apply connection_ok.
    erewrite bind_ok by by eapply stdin_write_ok.
    erewrite bind_ok by (by eapply (stdout_readline_ok _ st1)).
    simpl. fold line. rewrite Htr.
    erewrite bind_ok by (unfold lift; by rewrite Hl).
    erewrite bind_ok by (unfold lift; by rewrite Hin1).
    unfold when.
    erewrite bind_ok by (unfold lift; by rewrite Hget1).
    erewrite bind_ok by (unfold lift; by rewrite Hin2).
    cbv beta iota.
    erewrite bind_ok by (unfold lift; by rewrite Hget2).
    erewrite bind_ok by reflexivity.
    erewrite bind_ok by (unfold lift; by rewrite Hn).
    reflexivity.
  - erewrite try_raise; cycle 1.
    { erewrite bind_ok by by apply connection_ok.
      erewrite bind_ok by by eapply stdin_write_ok.
      erewrite bind_ok by (by eapply (stdout_readline_ok _ st1)).
      simpl. fold line. rewrite Htr.
      erewrite bind_ok by (unfold lift; by rewrite Hl).
      erewrite bind_ok by (unfold lift; by rewrite Hin1).
      unfold when.
      erewrite bind_ok by (unfold lift; by rewrite Hget1).
      erewrite bind_ok by (unfold lift; by rewrite Hin2).
      cbv beta iota.
      erewrite bind_ok by (unfold lift; by rewrite Hget2).
      erewrite bind_ok by reflexivity.
      erewrite bind_raise; [reflexivity|]. unfold lift. by rewrite Hn. }
    reflexivity.
Qed.

(** X7. Whatever value a reply to [tools/list] carries under
    [result.tools], a list or not, [_get_tools] stores it as the tools of
    the server in place of the earlier ones, and leaves the tools of every
    other server alone; it does not raise, and logs the number of tools
    or why they have none. *)
Theorem get_tools_replaces server_name st pid p data tools :
  active_connections st !! server_name = Some pid →
  procs st !! pid = Some p →
  p_stdin_broken p = false →
  truthy (readline (p_stdout p)).1 = true →
  loads (strip (readline (p_stdout p)).1) = Ok data →
  listed_tools data = Some tools →
  let '(r, st') := _get_tools server_name st in
  r = Ok tt
  ∧ dict_get server_name (available_tools st') = Some tools
  ∧ (∀ other, other ≠ server_name →
       dict_get other (available_tools st')
       = dict_get other (available_tools st))
  ∧ log st' = log st ++ [tools_entry server_name tools].
Proof.
  intros Hc Hp Hb Htr Hl Hlt.
  rewrite (get_tools_listed _ _ _ _ _ _ Hc Hp Hb Htr Hl Hlt). simpl.
  split_and!; [done| |intros other Hne|done].
  - apply dict_get_set_eq.
  - apply dict_get_set_ne. auto.
Qed.

Lemma listing_raises (registry : pydict jvalue) server_name tools :
  dict_get server_name registry = Some tools →
  is_raise (tagged_tools server_name tools) = true →
  is_raise (mapM (λ '(server_name, tools), tagged_tools server_name tools)
                 registry) = true.
Proof.
  induction registry as [|[k v] registry IH]; [done|]. simpl.
  destruct (str_eqb server_name k) eqn:E.
  - apply bool_decide_eq_true in E as <-. intros [= ->] Hr.
    by destruct (tagged_tools server_name tools).
  - intros Hg Hr. specialize (IH Hg Hr).
    destruct (tagged_tools k v); [|done]. simpl.
    by destruct (mapM _ registry).
Qed.

(** X8. A reply to [tools/list] whose [tools] is not iterable, a number
    say, is stored all the same, and from then on
    [get_available_tools_list] raises, whatever the other servers
    offer. *)
Theorem get_tools_poisons_listing server_name st pid p data tools e :
  active_connections st !! server_name = Some pid →
  procs st !! pid = Some p →
  p_stdin_broken p = false →
  truthy (readline (p_stdout p)).1 = true →
  loads (strip (readline (p_stdout p)).1) = Ok data →
  listed_tools data = Some tools →
  py_iter tools = Raise e →
  is_raise (get_available_tools_list (_get_tools server_name st).2) = true.
Proof.
  intros Hc Hp Hb Htr Hl Hlt Hit.
  rewrite (get_tools_listed _ _ _ _ _ _ Hc Hp Hb Htr Hl Hlt). simpl.
  unfold get_available_tools_list. simpl.
  pose proof (listing_raises (dict_set server_name tools (available_tools st))
                server_name tools (dict_get_set_eq _ _ _)) as H.
  destruct (mapM _ _); [|done]. apply H.
  unfold tagged_tools. by rewrite Hit.
Qed.

Lemma tagged_tools_list server_name l :
  forallb is_dict l = true →
  tagged_tools server_name (JArr l) = Ok (tagged server_name <$> l).
Proof.
  unfold tagged_tools. simpl. induction l as [|t l IH]; intros H; [done|].
  simpl in H. apply andb_true_iff in H as [Ht Hl].
  destruct t as [| | | | | |d]; try done.
  cbn. cbn in IH. by rewrite IH.
Qed.

Lemma tool_list_Some v l :
  tool_list v = Some l → v = JArr l ∧ forallb is_dict l = true.
Proof.
  unfold tool_list. destruct v as [| | | | |l'|]; try done.
  destruct (forallb is_dict l') eqn:E; [|done]. by intros [= ->].
Qed.

Lemma listing_catalog st :
  Forall (λ kv, is_Some (tool_list kv.2)) (available_tools st) →
  get_available_tools_list st = Ok (catalog (available_tools st)).
Proof.
  unfold get_available_tools_list, catalog.
  generalize (available_tools st). clear st. intros registry Hwf.
  induction Hwf as [|[k v] registry [l Hl] Hwf IH]; [done|].
  simpl in Hl. apply tool_list_Some in Hl as Hv. destruct Hv as [-> Hd].
  cbn [mapM]. rewrite tagged_tools_list by done. simpl.
  rewrite Hd. destruct (mapM _ registry) as [all|]; cbn in IH |- *; [|done].
  injection IH as IH. by rewrite IH.
Qed.

Lemma elem_of_catalog (registry : pydict jvalue) tool :
  Forall (λ kv, is_Some (tool_list kv.2)) registry →
  tool ∈ catalog registry
  ↔ ∃ server_name l d,
      (server_name, JArr l) ∈ registry ∧ JObj d ∈ l
      ∧ tool = JObj (dict_set (py "server") (JStr server_name) d).
Proof.
  intros Hwf. unfold catalog. rewrite list_elem_of_bind. split.
  - intros ([k v] & Hin & Hkv).
    rewrite Forall_forall in Hwf. destruct (Hwf _ Hkv) as [l Hl].
    change (tool_list v = Some l) in Hl. rewrite Hl in Hin. simpl in Hin.
    apply tool_list_Some in Hl as [-> Hd].
    apply list_elem_of_fmap in Hin as (t & -> & Ht).
    rewrite forallb_forall in Hd.
    specialize (Hd t (proj1 (list_elem_of_In _ _) Ht)).
    destruct t as [| | | | | |d]; try done. by exists k, l, d.
  - intros (k & l & d & Hkv & Hd & ->). exists (k, JArr l). split; [|done].
    rewrite Forall_forall in Hwf. destruct (Hwf _ Hkv) as [l' Hl].
    change (tool_list (JArr l) = Some l') in Hl. rewrite Hl. simpl.
    apply tool_list_Some in Hl as [[= <-] _].
    apply list_elem_of_fmap. by exists (JObj d).
Qed.

(** X9. When every server's tools are a list of dicts,
    [get_available_tools_list] does not raise: it returns, server after
    server, each descriptor with the name of its server under [server]
    (in place of what the descriptor had there), so as many descriptors
    as the servers offer together. *)
Theorem get_available_tools_list_catalog st :
  Forall (λ kv, is_Some (tool_list kv.2)) (available_tools st) →
  get_available_tools_list st = Ok (catalog (available_tools st))
  ∧ (∀ tool, tool ∈ catalog (available_tools st)
       ↔ ∃ server_name l d,
           (server_name, JArr l) ∈ available_tools st ∧ JObj d ∈ l
           ∧ tool = JObj (dict_set (py "server") (JStr server_name) d))
  ∧ length (catalog (available_tools st))
    = sum_list_with (λ kv, length (default [] (tool_list kv.2)))
        (available_tools st).
Proof.
  intros Hwf. split_and!.
  - by apply listing_catalog.
  - intros tool. by apply elem_of_catalog.
  - unfold catalog. clear -Hwf.
    induction Hwf as [|[k v] registry [l Hl] Hwf IH]; [done|].
    rewrite bind_cons, length_app, IH. cbn [sum_list_with snd].
    by rewrite length_fmap.
Qed.

(** *** The handshake and a call, on a child that answers *)

Lemma alter_last {A} (f : A → A) (l : list A) (x : A) :
  alter f (length l) (l ++ [x]) = l ++ [f x].
Proof. induction l as [|y l IH]; [done|]. cbn. f_equal. exact IH. Qed.

Lemma initialize_server_listed
    server_name st pid p line1 rest1 data1 line2 rest2 data2 tools :
  active_connections st !! server_name = Some pid →
  procs st !! pid = Some p →
  p_stdin_broken p = false →
  readline (p_stdout p) = (line1, rest1) →
  truthy line1 = true →
  loads (strip line1) = Ok data1 →
  readline rest1 = (line2, rest2) →
  truthy line2 = true →
  loads (strip line2) = Ok data2 →
  listed_tools data2 = Some tools →
  _initialize_server server_name st
  = (Ok tt,
     {| servers := servers st; active_connections := active_connections st;
        available_tools := dict_set server_name tools (available_tools st);
        procs := alter (unread rest2) pid
                   (alter (sent tools_request) pid
                      (alter (unread rest1) pid
                         (alter (sent init_request) pid (procs st))));
        log := log st ++ [ServerInitialized server_name data1;
                          tools_entry server_name tools] |}).
Proof.
  intros Hc Hp Hb Hr1 Htr1 Hl1 Hr2 Htr2 Hl2 Hlt. unfold _initialize_server.
  set (st1 := set_procs (alter (sent init_request) pid) st).
  assert (Hp1 : procs st1 !! pid = Some (sent init_request p)).
  { unfold st1. simpl. by rewrite list_lookup_alter_eq, Hp. }
  set (st2 := set_procs (alter (unread rest1) pid) st1).
  set (st3 := (logger (ServerInitialized server_name data1) st2).2).
  assert (Hp3 : procs st3 !! pid = Some (unread rest1 (sent init_request p))).
  { unfold st3, st2. simpl. by rewrite !list_lookup_alter_eq, Hp. }
  assert (Hg := get_tools_listed server_name st3 pid _ data2 tools Hc Hp3 Hb).
  simpl in Hg. rewrite Hr2 in Hg. specialize (Hg Htr2 Hl2 Hlt).
  erewrite try_ok; cycle 1.
  { erewrite bind_ok by by apply connection_ok.
    erewrite bind_ok by by eapply stdin_write_ok.
    erewrite bind_ok by (by eapply (stdout_readline_ok _ st1)).
    simpl. rewrite Hr1. simpl. rewrite Htr1.
    erewrite bind_ok by (unfold lift; by rewrite Hl1).
    erewrite bind_ok by reflexivity.
    exact Hg. }
  simpl. by rewrite <-app_assoc.
Qed.

(** X10. A start whose child is launched and answers the two requests of
    the handshake returns [True] with the child recorded under the name,
    the two requests written to it in order, the two reply lines
    consumed, the tools of the second reply stored under the name, and
    the start, the first reply and the tools logged. *)
Theorem start_server_handshake
    server_name st server cmd env c line1 rest1 data1 line2 rest2 data2 tools :
  servers st !! server_name = Some server →
  launch st server = Ok (cmd, env, c) →
  c_stdin_broken c = false →
  readline (c_stdout c) = (line1, rest1) →
  truthy line1 = true →
  loads (strip line1) = Ok data1 →
  readline rest1 = (line2, rest2) →
  truthy line2 = true →
  loads (strip line2) = Ok data2 →
  listed_tools data2 = Some tools →
  ∃ p,
    start_server server_name st
    = (Ok true,
       {| servers := servers st;
          active_connections
            := <[server_name := length (procs st)]> (active_connections st);
          available_tools := dict_set server_name tools (available_tools st);
          procs := procs st ++ [p];
          log := log st ++ [StartedServer server_name;
                            ServerInitialized server_name data1;
                            tools_entry server_name tools] |})
    ∧ p_cmd p = cmd
    ∧ p_env p = env
    ∧ p_stdin p = [init_request; tools_request]
    ∧ p_stdout p = rest2.
Proof.
  intros Hs Hl Hb Hr1 Htr1 Hl1 Hr2 Htr2 Hl2 Hlt.
  apply launch_Ok in Hl as (He & Hc & Hp).
  exists (unread rest2
            (sent tools_request
               (unread rest1 (sent init_request (spawned cmd env c))))).
  split; [|done].
  unfold MCP.start_server.
  erewrite bind_ok by reflexivity. rewrite Hs.
  set (st1 := set_procs (λ ps, ps ++ [spawned cmd env c]) st).
  set (st2 := set_active <[server_name := length (procs st)]> st1).
  set (st3 := (logger (StartedServer server_name) st2).2).
  assert (Hi := initialize_server_listed server_name st3
                  (length (procs st)) (spawned cmd env c)
                  line1 rest1 data1 line2 rest2 data2 tools).
  specialize (Hi (lookup_insert_eq _ _ _)).
  specialize (Hi (list_lookup_middle _ _ _ _ eq_refl) Hb Hr1 Htr1 Hl1
                 Hr2 Htr2 Hl2 Hlt).
  erewrite try_ok; cycle 1.
  { erewrite bind_ok by (unfold lift; by rewrite He).
    erewrite bind_ok by (unfold lift; by rewrite Hc).
    erewrite bind_ok by by apply Popen_ok.
    erewrite bind_ok by reflexivity.
    erewrite bind_ok by reflexivity.
    erewrite bind_ok by exact Hi. reflexivity. }
  simpl. by rewrite !alter_last, <-app_assoc.
Qed.

(** X11. A call on a connected server that answers with a line of JSON
    returns the decoded line as it is, an error reply or a reply to
    another request included; it writes the one request, consumes the one
    line, and logs nothing. *)
Theorem call_tool_returns_reply
    server_name tool_name arguments st pid p line rest data :
  active_connections st !! server_name = Some pid →
  procs st !! pid = Some p →
  p_stdin_broken p = false →
  readline (p_stdout p) = (line, rest) →
  truthy line = true →
  loads (strip line) = Ok data →
  call_tool server_name tool_name arguments st
  = (Ok data,
     set_procs
       (alter (λ p, unread rest (sent (tool_request tool_name arguments) p))
              pid) st).
Proof.
  intros Hc Hp Hb Hr Htr Hl. unfold call_tool.
  erewrite bind_ok by reflexivity. rewrite Hc.
  erewrite try_ok; cycle 1.
  { erewrite bind_ok by by apply connection_ok.
    erewrite bind_ok by by eapply stdin_write_ok.
    erewrite bind_ok; cycle 1.
    { eapply stdout_readline_ok. simpl. by rewrite list_lookup_alter_eq, Hp. }
    simpl. rewrite Hr. simpl. rewrite Htr.
    erewrite bind_ok by (unfold lift; by rewrite Hl). reflexivity. }
  unfold set_procs. simpl. by rewrite list_alter_alter_eq.
Qed.

#[local] Instance only_pipes_preorder : PreOrder only_pipes.
Proof.
  split.
  - intros st. by repeat split.
  - intros s1 s2 s3 [[H1 T1] L1] [[H2 T2] L2].
    split; [split|]; [by etrans|congruence..].
Qed.

Lemma pipes_stdin_write (pid : nat) (v : jvalue) :
  stable only_pipes (stdin_write pid v).
Proof.
  intros st. pose proof (stable_stdin_write pid v st) as H.
  split; [split; [exact H|]|]; unfold stdin_write; run_se;
    (destruct (procs st !! pid) as [p|]; [|done]);
    by destruct (p_stdin_broken p).
Qed.

Lemma pipes_stdout_readline (pid : nat) :
  stable only_pipes (stdout_readline pid).
Proof.
  intros st. pose proof (stable_stdout_readline pid st) as H.
  split; [split; [exact H|]|]; unfold stdout_readline; run_se;
    (destruct (procs st !! pid) as [p|]; [|done]);
    by destruct (readline (p_stdout p)).
Qed.

Lemma pipes_connection (server_name : pystr) :
  stable only_pipes (connection server_name).
Proof.
  intros st. unfold connection. run_se.
  by destruct (active_connections st !! server_name).
Qed.

Ltac pipes_rule :=
  lazymatch goal with
  | |- stable _ (stdin_write _ _) => apply pipes_stdin_write
  | |- stable _ (stdout_readline _) => apply pipes_stdout_readline
  | |- stable _ (connection _) => apply pipes_connection
  | |- _ => lifecycle_rule
  end.

(** X12. However a call ends, it leaves the servers, the connections,
    the liveness of every process and the tools as they were: a call that
    fails does not disconnect or stop the server.  A call that returns
    logs nothing; one that raises on a connected server has logged the
    exception it raises, and one on a name without a connection has
    changed nothing. *)
Theorem call_tool_outcome server_name tool_name arguments st :
  ∃ r st',
    call_tool server_name tool_name arguments st = (r, st')
    ∧ same_manager st st'
    ∧ match r with
      | Ok _ =>
          is_Some (active_connections st !! server_name) ∧ log st' = log st
      | Raise e =>
          (active_connections st !! server_name = None ∧ st' = st)
          ∨ (is_Some (active_connections st !! server_name)
             ∧ log st' = log st ++ [FailedToCallTool tool_name server_name e])
      end.
Proof.
  destruct (active_connections st !! server_name) as [pid|] eqn:Hc.
  - unfold call_tool. erewrite bind_ok by reflexivity. rewrite Hc.
    match goal with |- context [try ?b _] => set (body := b) end.
    assert (Hb : stable only_pipes body).
    { unfold body. repeat pipes_rule. }
    specialize (Hb st). unfold try.
    destruct (body st) as [[v|e] st1]; simpl in Hb;
      destruct Hb as [[Hlc Ht] Hlog].
    + eexists _, _. split; [done|]. split; [done|]. split; [by eexists|done].
    + eexists _, _. split; [reflexivity|]. simpl. split; [done|].
      right. split; [by eexists|]. simpl. by rewrite Hlog.
  - rewrite call_tool_not_connected by done.
    eexists _, _. split; [done|]. split; [done|]. by left.
Qed.

(** *** What the chatbot needs of the manager *)

Lemma start_server_frame server_name st :
  ∃ b st',
    start_server server_name st = (Ok b, st')
    ∧ servers st' = servers st
    ∧ ∀ k, k ≠ server_name →
           active_connections st' !! k = active_connections st !! k.
Proof.
  destruct (servers st !! server_name) as [server|] eqn:Hs.
  - destruct (launch st server) as [[[cmd env] c]|e] eqn:Hl.
    + apply launch_Ok in Hl as (He & Hc & Hp).
      destruct (start_server_spawned os_environ popen _ _ _ _ _ _ Hs He Hc Hp)
        as (st' & E & Hserv & Ha & _).
      exists true, st'. split_and!; [done|done|].
      intros k Hk. rewrite Ha. by apply lookup_insert_ne.
    + eexists false, _. split_and!; [by eapply start_server_launch_failed|..];
        done.
  - eexists false, _. split_and!; [by apply start_server_not_found|..]; done.
Qed.

Lemma stop_all_servers_run (keys : gmap pystr nat → list pystr) st :
  key_order keys →
  ∃ st',
    stop_all_servers keys st = (Ok tt, st')
    ∧ active_connections st' = ∅
    ∧ servers st' = servers st
    ∧ available_tools st' = available_tools st.
Proof.
  intros Hk. unfold stop_all_servers. erewrite bind_ok by reflexivity.
  destruct (stop_each_spec (keys (active_connections st)) st)
    as (st' & E & Hs & Ht & Ha & _).
  exists st'. split_and!; try done.
  apply map_empty. intros k. rewrite Ha. case_decide as Hin; [done|].
  rewrite key_order_elem_of in Hin by done.
  by apply eq_None_not_Some.
Qed.

End LifecycleFacts.

(** * Further properties of the chat session *)

Section ConversationFacts.

Import Chat.

Variable cl : client.

(** X13. [chat] never raises, and it returns either the text of a
    completion that succeeded, which it has recorded as the assistant
    turn after the user turn, or a text that starts with [Error: ], and
    then the user turn is the only one it has added: an error text is
    never recorded as an assistant turn. *)
Theorem chat_outcome message model_name self :
  ∃ text,
    (chat cl message model_name self = (Ok text, answered message text self)
     ∧ ∃ model, chosen_model cl model_name = Some model
                ∧ completion cl model (conversation_history (asked message self))
                  = Ok text)
    ∨ (chat cl message model_name self = (Ok text, asked message self)
       ∧ startswith (py "Error: ") text = true).
Proof.
  rewrite chat_chosen.
  destruct (chosen_model cl model_name) as [model|] eqn:Hm.
  - destruct (completion cl model _) as [text|exc] eqn:Hc.
    + exists text. left. split; [done|]. by exists model.
    + exists (error_text exc). by right.
  - exists (error_text no_models). by right.
Qed.

(** X14. With a model name that is not empty, [chat] sends the request
    to that model whatever the model listing is, a listing that fails
    included; when the request fails the text of its exception is
    returned after [Error: ]. *)
Theorem chat_named_model message given self :
  truthy given = true →
  chat cl message (Some given) self
  = match completion cl given (conversation_history (asked message self)) with
    | Ok text => (Ok text, answered message text self)
    | Raise exc => (Ok (py "Error: " ++ exn_str exc), asked message self)
    end.
Proof.
  intros Hg. rewrite chat_chosen. unfold chosen_model, no_name. by rewrite Hg.
Qed.

(** X15. An empty model name is no model name: [chat] and [stream_chat]
    treat it as they treat [None]. *)
Theorem empty_model_name_is_None message self :
  chat cl message (Some []) self = chat cl message None self
  ∧ next cl (stream_chat message (Some [])) self
    = next cl (stream_chat message None) self.
Proof. by rewrite !chat_chosen, !next_created_chosen. Qed.

(** *** A stream that fails on the way *)

Lemma take_fragments_error n st :
  ∃ gen, take_fragments cl n AtYieldError st = (Ok ([], gen), st).
Proof. destruct n; by eexists. Qed.

Lemma take_fragments_drain_error chunks exc : ∀ full n st,
  (Datatypes.S (length (fragments chunks)) < n)%nat →
  take_fragments cl n (AtYieldDelta full chunks (Some exc)) st
  = (Ok (fragments chunks ++ [error_text exc], Finished), st).
Proof.
  induction chunks as [|[d|] rest IH]; intros full n st Hn.
  - destruct n as [|[|n]]; [simpl in Hn; lia..|]. done.
  - destruct (truthy d) eqn:E.
    + rewrite fragments_cons_keep in * by done. simpl in Hn.
      destruct n as [|n]; [lia|].
      cbn [take_fragments next resume_loop]. rewrite E.
      erewrite bind_ok by reflexivity. cbn beta iota.
      erewrite bind_ok by (apply IH; lia). done.
    + rewrite fragments_cons_skip in * by done.
      destruct n as [|n]; [lia|].
      specialize (IH full (Datatypes.S n) st Hn).
      cbn [take_fragments next resume_loop] in *. by rewrite E.
  - rewrite fragments_cons_skip in * by done.
    destruct n as [|n]; [lia|].
    specialize (IH full (Datatypes.S n) st Hn).
    by cbn [take_fragments next resume_loop] in *.
Qed.

(** X16. When the stream of a completion breaks after some chunks, the
    consumer of [stream_chat] is handed the fragments that came, then the
    text of the exception after [Error: ], and the generator ends; the
    user turn is the only turn added, the text that came is not
    recorded. *)
Theorem stream_chat_broken_stream message model_name self model chunks exc n :
  chosen_model cl model_name = Some model →
  completion_stream cl model (conversation_history (asked message self))
  = Ok (chunks, Some exc) →
  (Datatypes.S (length (fragments chunks)) < n)%nat →
  take_fragments cl n (stream_chat message model_name) self
  = (Ok (fragments chunks ++ [py "Error: " ++ exn_str exc], Finished),
     asked message self).
Proof.
  intros Hm Hs Hn.
  assert (Hnext : next cl (stream_chat message model_name) self
                  = next cl (AtYieldDelta [] chunks (Some exc))
                      (asked message self)).
  { rewrite next_created_chosen, Hm, Hs. done. }
  destruct n as [|n]; [lia|].
  pose proof (take_fragments_drain_error chunks exc []
                (Datatypes.S n) (asked message self) Hn) as Hd.
  unfold stream_chat in *. cbn [take_fragments] in *.
  by rewrite (bind_congr _ _ _ _ _ Hnext), Hd.
Qed.

Lemma take_fragments_suspended chunks fin : ∀ full n st,
  ∃ frags gen st',
    take_fragments cl n (AtYieldDelta full chunks fin) st = (Ok (frags, gen), st')
    ∧ (st' = st ∨ (st' = commit (full ++ concat frags) st ∧ gen = Finished)).
Proof.
  induction chunks as [|[d|] rest IH]; intros full n st.
  - destruct n as [|n]; [eexists _, _, _; split; [done|by left]|].
    destruct fin as [exc|].
    + cbn [take_fragments next resume_loop].
      erewrite bind_ok by reflexivity. cbn beta iota.
      destruct (take_fragments_error n st) as [gen E].
      erewrite bind_ok by exact E.
      eexists _, _, _. split; [done|by left].
    + eexists _, _, _. split; [done|]. right. simpl. by rewrite app_nil_r.
  - destruct n as [|n]; [eexists _, _, _; split; [done|by left]|].
    destruct (truthy d) eqn:E.
    + destruct (IH (full ++ d) n st) as (frags & gen & st' & E' & Hst).
      cbn [take_fragments next resume_loop]. rewrite E.
      erewrite bind_ok by reflexivity. cbn beta iota.
      erewrite bind_ok by exact E'.
      eexists _, _, _. split; [done|].
      destruct Hst as [->|[-> ->]]; [by left|right].
      simpl. by rewrite <-app_assoc.
    + destruct (IH full (Datatypes.S n) st) as (frags & gen & st' & E' & Hst).
      exists frags, gen, st'. split; [|done].
      cbn [take_fragments next resume_loop] in *. by rewrite E.
  - destruct n as [|n]; [eexists _, _, _; split; [done|by left]|].
    destruct (IH full (Datatypes.S n) st) as (frags & gen & st' & E' & Hst).
    exists frags, gen, st'. split; [|done].
    by cbn [take_fragments next resume_loop] in *.
Qed.

(** X17. Whatever the model collaborator does and however many fragments
    the consumer of [stream_chat] takes, no [next] raises, and the history
    afterwards is the earlier one; or that with the user turn; or that
    with the user turn and one assistant turn, and then the generator is
    finished and the content of the assistant turn is the fragments
    handed out, concatenated. *)
Theorem stream_chat_outcome message model_name self n :
  ∃ frags gen st',
    take_fragments cl n (stream_chat message model_name) self
    = (Ok (frags, gen), st')
    ∧ (st' = self
       ∨ st' = asked message self
       ∨ (st' = answered message (concat frags) self ∧ gen = Finished)).
Proof.
  destruct n as [|n]; [eexists _, _, _; split; [done|by left]|].
  assert (Herr : ∀ text,
    next cl (stream_chat message model_name) self
    = (Ok (Some text, AtYieldError), asked message self) →
    ∃ frags gen st',
      take_fragments cl (Datatypes.S n) (stream_chat message model_name) self
      = (Ok (frags, gen), st')
      ∧ (st' = self
         ∨ st' = asked message self
         ∨ (st' = answered message (concat frags) self ∧ gen = Finished))).
  { intros text Hnext. cbn [take_fragments].
    erewrite bind_ok by exact Hnext. cbn beta iota.
    destruct (take_fragments_error n (asked message self)) as [gen E].
    erewrite bind_ok by exact E.
    eexists _, _, _. split; [done|]. right. by left. }
  pose proof (next_created_chosen cl message model_name self) as Hnext.
  destruct (chosen_model cl model_name) as [model|]; [|by eapply Herr].
  destruct (completion_stream cl model _) as [[chunks fin]|exc];
    [|by eapply Herr].
  change (resume_loop [] chunks fin (asked message self))
    with (next cl (AtYieldDelta [] chunks fin) (asked message self)) in Hnext.
  destruct (take_fragments_suspended chunks fin [] (Datatypes.S n)
              (asked message self)) as (frags & gen & st' & E & Hst).
  exists frags, gen, st'. split.
  - unfold stream_chat in *. cbn [take_fragments] in *.
    by rewrite (bind_congr _ _ _ _ _ Hnext).
  - destruct Hst as [->|[-> ->]]; [right; by left|].
    right. right. split; [|done].
    unfold commit, answered, asked. simpl. by rewrite <-app_assoc.
Qed.

End ConversationFacts.

(** * Further properties of the chatbot with its manager *)

Section SessionFacts.

Import MCP Chat Lifecycle Session.

Variable os_environ : gmap pystr pystr.
Variable popen : nat → list pystr → gmap pystr pystr → result child.
Variable keys : gmap pystr nat → list pystr.

#[local] Abbreviation start_server := (MCP.start_server os_environ popen).
#[local] Abbreviation enable_mcp := (Session.enable_mcp os_environ popen).
#[local] Abbreviation start_each := (Session.start_each os_environ popen).
#[local] Abbreviation disable_mcp := (Session.disable_mcp keys).

(** The chatbot with the system turn appended. *)
Lemma add_system_prompt_no_tools prompt a :
  mcp_enabled (self a) = false
  ∨ get_available_tools_list (mcp_manager a) = Ok [] →
  add_system_prompt prompt a
  = (Ok Prompted,
     {| self := {| conversation_history :=
                     conversation_history (self a)
                     ++ [{| role := py "system"; content := prompt |}];
                   mcp_enabled := mcp_enabled (self a) |};
        mcp_manager := mcp_manager a; notices := notices a |}).
Proof.
  intros H. unfold add_system_prompt. erewrite bind_ok by reflexivity.
  assert (E : (if mcp_enabled (self a)
               then tools ← lift (get_available_tools_list (mcp_manager a));
                    match tools with
                    | [] => mret (Some [])
                    | _ :: _ =>
                        lines ← lift (tool_lines tools);
                        mret (ls ← lines;
                              Some (tools_header ++ ls ++ tools_footer))
                    end
               else mret (Some [])) a = (Ok (Some []), a)).
  { destruct (mcp_enabled (self a)); [|done].
    destruct H as [|H]; [done|].
    erewrite bind_ok by (unfold lift; by rewrite H). done. }
  erewrite bind_ok by exact E. cbn beta iota.
  erewrite bind_ok by reflexivity. by rewrite app_nil_r.
Qed.

(** X18. With MCP disabled, or enabled with no tool to list,
    [add_system_prompt] appends one system turn whose content is the
    prompt as it was given, and changes nothing else. *)
Theorem add_system_prompt_plain prompt a :
  mcp_enabled (self a) = false
  ∨ get_available_tools_list (mcp_manager a) = Ok [] →
  add_system_prompt prompt a
  = (Ok Prompted,
     {| self := {| conversation_history :=
                     conversation_history (self a)
                     ++ [{| role := py "system"; content := prompt |}];
                   mcp_enabled := mcp_enabled (self a) |};
        mcp_manager := mcp_manager a; notices := notices a |}).
Proof. apply add_system_prompt_no_tools. Qed.

Lemma tool_lines_KeyError tools :
  (∀ tool, tool ∈ tools →
     ∃ d, tool = JObj d ∧ is_Some (dict_get (py "server") d)) →
  (∃ d, JObj d ∈ tools ∧ dict_get (py "name") d = None) →
  tool_lines tools = Raise (Exn KeyError (py "'name'")).
Proof.
  induction tools as [|tool tools IH]; intros Hall (d & Hin & Hd).
  - by apply elem_of_nil in Hin.
  - cbn [tool_lines].
    destruct (Hall tool (list_elem_of_here _ _)) as (d0 & -> & [sv Hsv]).
    unfold tool_line, py_getitem.
    destruct (dict_get (py "name") d0) as [nm|] eqn:Hn; [|done].
    rewrite Hsv. cbn.
    rewrite IH; [done| |].
    + intros t Ht. by apply Hall, list_elem_of_further.
    + apply elem_of_cons in Hin as [[= ->]|Hin]; [congruence|by exists d].
Qed.

(** X19. With MCP enabled, one tool descriptor without a [name] makes
    [add_system_prompt] raise [KeyError]; no system turn is appended. *)
Theorem add_system_prompt_nameless_tool prompt a server_name l d :
  mcp_enabled (self a) = true →
  Forall (λ kv, is_Some (tool_list kv.2)) (available_tools (mcp_manager a)) →
  (server_name, JArr l) ∈ available_tools (mcp_manager a) →
  JObj d ∈ l →
  dict_get (py "name") d = None →
  add_system_prompt prompt a = (Raise (Exn KeyError (py "'name'")), a).
Proof.
  intros Hen Hwf Hkv Hd Hname. unfold add_system_prompt.
  erewrite bind_ok by reflexivity. rewrite Hen.
  set (tools := catalog (available_tools (mcp_manager a))).
  assert (Hin : JObj (dict_set (py "server") (JStr server_name) d) ∈ tools).
  { apply elem_of_catalog; [done|]. by exists server_name, l, d. }
  assert (Hlines : tool_lines tools = Raise (Exn KeyError (py "'name'"))).
  { apply tool_lines_KeyError.
    - intros tool (k & l' & d' & _ & _ & ->)%elem_of_catalog; [|done].
      eexists. split; [done|]. by rewrite dict_get_set_eq.
    - eexists. split; [exact Hin|].
      by rewrite dict_get_set_ne. }
  erewrite bind_raise; [reflexivity|].
  erewrite bind_ok by (unfold lift; by rewrite listing_catalog).
  fold tools. destruct tools as [|t ts]; [by apply elem_of_nil in Hin|].
  erewrite bind_raise; [reflexivity|]. unfold lift. by rewrite Hlines.
Qed.

(** *** Enabling and disabling *)

Lemma on_manager_run {A} (m : SE state A) a r st :
  m (mcp_manager a) = (r, st) →
  on_manager m a
  = (r, {| self := self a; mcp_manager := st; notices := notices a |}).
Proof. intros E. unfold on_manager. by rewrite E. Qed.

(** The note of one start. *)
Lemma start_each_run names : ∀ a, ∃ results st',
  mapM (M:=SE state) start_server names (mcp_manager a) = (Ok results, st')
  ∧ start_each names a
    = (Ok tt,
       {| self := self a; mcp_manager := st';
          notices := notices a ++ zip_with noted names results |})
  ∧ servers st' = servers (mcp_manager a)
  ∧ ∀ k, k ∉ names →
         active_connections st' !! k
         = active_connections (mcp_manager a) !! k.
Proof.
  induction names as [|n names IH]; intros a.
  - exists [], (mcp_manager a). split_and!; try done.
    simpl. rewrite app_nil_r. by destruct a.
  - destruct (start_server_frame os_environ popen n (mcp_manager a))
      as (b & st1 & E & Hs & Hf).
    set (a1 := {| self := self a; mcp_manager := st1;
                  notices := notices a ++ [noted n b] |}).
    destruct (IH a1) as (results & st' & Em & Ee & Hserv & Hk).
    exists (b :: results), st'. split_and!.
    + cbn [mapM]. erewrite bind_ok by exact E.
      simpl in Em. erewrite bind_ok by exact Em. done.
    + cbn [Session.start_each].
      erewrite bind_ok by (by apply on_manager_run).
      erewrite bind_ok by reflexivity. refine (eq_trans Ee _).
      simpl. by rewrite <-app_assoc.
    + by rewrite Hserv.
    + intros k [Hkn Hkin]%not_elem_of_cons. rewrite Hk by done. simpl.
      by apply Hf.
Qed.


(** X21. [disable_mcp] leaves no server connected and MCP disabled, and
    the tools stay: [get_mcp_status] then reports [enabled] false, every
    registered server [not_started] and the tools it reported before,
    while [add_system_prompt] no longer mentions them. *)
Theorem disable_mcp_outcome a prompt :
  key_order keys →
  ∃ a',
    disable_mcp a = (Ok tt, a')
    ∧ mcp_enabled (self a') = false
    ∧ active_connections (mcp_manager a') = ∅
    ∧ get_mcp_status a'
      = (s ← get_mcp_status a;
         Ok {| enabled := false;
               servers_status := (λ _, py "not_started") <$> servers_status s;
               tools := tools s |})
    ∧ ∃ a'', add_system_prompt prompt a' = (Ok Prompted, a'')
             ∧ conversation_history (self a'')
               = conversation_history (self a)
                 ++ [{| role := py "system"; content := prompt |}].
Proof.
  intros Hk.
  destruct (stop_all_servers_run keys (mcp_manager a) Hk)
    as (st' & E & Hempty & Hs & Ht).
  eexists. split_and!.
  - unfold Session.disable_mcp.
    erewrite bind_ok by (by apply on_manager_run).
    erewrite bind_ok by reflexivity. reflexivity.
  - done.
  - done.
  - unfold get_mcp_status, get_available_tools_list. simpl. rewrite Ht.
    destruct (mapM _ (available_tools (mcp_manager a))) as [all|]; [|done].
    simpl. f_equal. f_equal. apply map_eq. intros k.
    rewrite lookup_fmap, !get_server_status_lookup, Hs.
    destruct (servers (mcp_manager a) !! k); simpl; [|done]. f_equal.
    unfold status_of. by rewrite Hempty, lookup_empty.
  - eexists. split; [by apply add_system_prompt_no_tools; left|done].
Qed.

End SessionFacts.

(** * Further properties of saving and loading *)

Section FileFacts.

Import Chat TextFile.

Variable writable : pystr → bool.

#[local] Abbreviation save_conversation := (Chat.save_conversation writable).

Lemma read_run filename s :
  on_files (read filename) s
  = (match fs s !! filename with
     | None =>
         Raise (Exn FileNotFoundError (py "[Errno 2] No such file or directory"))
     | Some bytes =>
         match utf8_decode bytes with
         | None =>
             Raise (Exn UnicodeDecodeError (py "'utf-8' codec can't decode byte"))
         | Some text => Ok (universal_newlines text)
         end
     end, s).
Proof.
  unfold on_files, read. run_se. destruct s as [b f]. simpl.
  destruct (f !! filename) as [bytes|]; [|done].
  by destruct (utf8_decode bytes).
Qed.

(** X22. A load that raises leaves the history, and all else, as it was:
    a missing file raises [FileNotFoundError], bytes that are no UTF-8
    raise [UnicodeDecodeError], a text that is no JSON raises what
    [json.loads] raises for it.  No load changes a file. *)
Theorem load_conversation_failure filename s :
  match load_conversation filename s with
  | (Ok _, s') => fs s' = fs s ∧ mcp_enabled (bot s') = mcp_enabled (bot s)
  | (Raise e, s') =>
      s' = s
      ∧ match fs s !! filename with
        | None => exn_class_of e = FileNotFoundError
        | Some bytes =>
            match utf8_decode bytes with
            | None => exn_class_of e = UnicodeDecodeError
            | Some text => loads (universal_newlines text) = Raise e
            end
        end
  end.
Proof.
  unfold load_conversation. pose proof (read_run filename s) as Hr.
  destruct (fs s !! filename) as [bytes|] eqn:Hf.
  - destruct (utf8_decode bytes) as [text|] eqn:Hd.
    + erewrite bind_ok by exact Hr.
      destruct (loads (universal_newlines text)) as [v|e] eqn:Hl.
      * erewrite bind_ok by reflexivity.
        by destruct (as_history v).
      * by erewrite bind_raise by reflexivity.
    + by erewrite bind_raise by exact Hr.
  - by erewrite bind_raise by exact Hr.
Qed.

Lemma write_run filename chunk s :
  on_files (write filename chunk) s
  = match utf8_encode chunk with
    | None =>
        (Raise (Exn UnicodeEncodeError
                  (py "'utf-8' codec can't encode character: surrogates not allowed")),
         s)
    | Some bytes =>
        (Ok tt,
         {| bot := bot s;
            fs := <[filename := default [] (fs s !! filename) ++ bytes]> (fs s) |})
    end.
Proof.
  unfold on_files, write. destruct s as [b f].
  by destruct (utf8_encode chunk).
Qed.

Lemma write_chunks_frame filename chunks : ∀ s,
  bot (write_chunks filename chunks s).2 = bot s
  ∧ ∀ other, other ≠ filename →
      fs (write_chunks filename chunks s).2 !! other = fs s !! other.
Proof.
  induction chunks as [|chunk chunks IH]; intros s; [done|].
  cbn [write_chunks]. pose proof (write_run filename chunk s) as Hw.
  destruct (utf8_encode chunk) as [b|].
  - erewrite bind_ok by exact Hw.
    destruct (IH {| bot := bot s;
                    fs := <[filename := default [] (fs s !! filename) ++ b]>
                            (fs s) |}) as [Hb Hf].
    split; [done|]. intros other Hne. rewrite Hf by done. simpl.
    by rewrite lookup_insert_ne.
  - by erewrite bind_raise by exact Hw.
Qed.

(** X23. [save_conversation] changes no file but the one it is given and
    never the conversation, also when it fails; when the file cannot be
    opened for writing it raises with nothing changed. *)
Theorem save_conversation_frame filename s :
  let '(r, s') := save_conversation filename s in
  bot s' = bot s
  ∧ (∀ other, other ≠ filename → fs s' !! other = fs s !! other)
  ∧ (writable filename = false → is_raise r = true ∧ s' = s).
Proof.
  unfold Chat.save_conversation, open_w.
  destruct (writable filename).
  - erewrite bind_ok by reflexivity. erewrite bind_ok by reflexivity.
    match goal with |- context [write_chunks _ ?c ?s0] =>
      pose proof (write_chunks_frame filename c s0) as [Hb Hf];
      destruct (write_chunks filename c s0) as [r s'] end.
    simpl in *. split_and!; [done| |done].
    intros other Hne. rewrite Hf by done. by rewrite lookup_insert_ne.
  - by erewrite bind_raise by reflexivity.
Qed.

Lemma write_chunks_stops filename chunks : ∀ s old,
  fs s !! filename = Some old →
  Exists (λ chunk, utf8_encode chunk = None) chunks →
  ∃ written rest bytes,
    chunks = written ++ rest ∧ rest ≠ []
    ∧ utf8_encode (concat written) = Some bytes
    ∧ write_chunks filename chunks s
      = (Raise (Exn UnicodeEncodeError
                  (py "'utf-8' codec can't encode character: surrogates not allowed")),
         {| bot := bot s; fs := <[filename := old ++ bytes]> (fs s) |}).
Proof.
  induction chunks as [|chunk chunks IH]; intros s old Hold Hex.
  { by apply Exists_nil in Hex. }
  cbn [write_chunks]. pose proof (write_run filename chunk s) as Hw.
  destruct (utf8_encode chunk) as [b|] eqn:Hb.
  - apply Exists_cons in Hex as [Hex|Hex]; [congruence|].
    rewrite Hold in Hw. simpl in Hw.
    destruct (IH {| bot := bot s; fs := <[filename := old ++ b]> (fs s) |}
                 (old ++ b)) as (written & rest & bytes & -> & Hrest & Hby & E);
      [apply lookup_insert_eq|done|].
    exists (chunk :: written), rest, (b ++ bytes). split_and!; [done|done| |].
    + simpl. by apply utf8_encode_app.
    + erewrite bind_ok by exact Hw. rewrite E. simpl.
      by rewrite insert_insert_eq, app_assoc.
  - exists [], (chunk :: chunks), []. split_and!; [done|done|done|].
    erewrite bind_raise by exact Hw.
    rewrite app_nil_r, insert_id by done. by destruct s.
Qed.

(** X24. A save of a history with a lone surrogate in a turn raises
    [UnicodeEncodeError] after the file was opened and the chunks before
    the surrogate were written: what the file held before is gone, and
    the file is left with the first part of the JSON text, not all of
    it. *)
Theorem save_conversation_failure_truncates filename s t c :
  writable filename = true →
  t ∈ conversation_history (bot s) →
  is_surrogate c = true →
  c ∈ role t ∨ c ∈ content t →
  ∃ written rest bytes,
    save_conversation filename s
    = (Raise (Exn UnicodeEncodeError
                (py "'utf-8' codec can't encode character: surrogates not allowed")),
       {| bot := bot s; fs := <[filename := bytes]> (fs s) |})
    ∧ iterencode (conversation_history (bot s)) = written ++ rest
    ∧ rest ≠ []
    ∧ utf8_encode (concat written) = Some bytes.
Proof.
  intros Hw Ht Hc Hin.
  assert (Hex : Exists (λ chunk, utf8_encode chunk = None)
                  (iterencode (conversation_history (bot s)))).
  { apply Exists_exists. destruct (iterencode_turn t _ Ht) as [Hr Hco].
    destruct Hin as [Hin|Hin].
    - exists (encode_basestring (role t)).
      split; [done|by eapply encode_basestring_surrogate].
    - exists (encode_basestring (content t)).
      split; [done|by eapply encode_basestring_surrogate]. }
  set (s0 := {| bot := bot s; fs := <[filename := []]> (fs s) |}).
  destruct (write_chunks_stops filename _ s0 [] (lookup_insert_eq _ _ _) Hex)
    as (written & rest & bytes & Hsplit & Hrest & Hby & E).
  exists written, rest, bytes. split_and!; [|done..].
  unfold Chat.save_conversation, open_w. rewrite Hw.
  erewrite bind_ok by reflexivity. fold s0.
  erewrite bind_ok by reflexivity.
  etrans; [exact E|]. unfold s0. simpl. by rewrite insert_insert_eq.
Qed.

End FileFacts.

(** * The further properties on the test doubles *)

Section FurtherRuns.

Import MCP Chat Lifecycle Session.

Lemma well_formed_preserved_witness :
  (∀ server, well_formed (add_server server Stub.started_A).2)
  ∧ (∀ server_name, well_formed (Stub.start_server server_name Stub.started_A).2)
  ∧ (∀ server_name, well_formed (stop_server server_name Stub.started_A).2)
  ∧ (∀ keys, well_formed (stop_all_servers keys Stub.started_A).2)
  ∧ (∀ server_name tool_name arguments,
       well_formed (call_tool server_name tool_name arguments Stub.started_A).2).
Proof.
  apply (well_formed_preserved Stub.os_environ Stub.popen Stub.started_A).
  compute_done.
Defined.

Lemma start_server_outcome_witness :
  ∃ b,
    Ok true = Ok b
    ∧ (b = true
       ↔ ∃ server l,
           servers Stub.registry !! py "A" = Some server
           ∧ launch Stub.os_environ Stub.popen Stub.registry server = Ok l)
    ∧ (b = false →
       procs Stub.started_A = procs Stub.registry
       ∧ active_connections Stub.started_A = active_connections Stub.registry
       ∧ available_tools Stub.started_A = available_tools Stub.registry
       ∧ servers Stub.started_A = servers Stub.registry
       ∧ ∃ entry, log Stub.started_A = log Stub.registry ++ [entry]).
Proof.
  apply (start_server_outcome Stub.os_environ Stub.popen (py "A")
           Stub.registry (Ok true) Stub.started_A).
  vm_compute; reflexivity.
Defined.


Lemma stop_server_status_witness :
  get_server_status (stop_server (py "A") Doubles.started_A_M).2
  = alter (λ _, py "not_started") (py "A")
      (get_server_status Doubles.started_A_M)
  ∧ (active_connections Doubles.started_A_M !! py "A" = None →
     stop_server (py "A") Doubles.started_A_M = (Ok tt, Doubles.started_A_M)).
Proof.
  apply (stop_server_status (py "A") Doubles.started_A_M). compute_done.
Defined.

Lemma stop_all_servers_spec_witness :
  ∃ st',
    stop_all_servers sorted_keys Doubles.started_A_M = (Ok tt, st')
    ∧ active_connections st' = ∅
    ∧ servers st' = servers Doubles.started_A_M
    ∧ available_tools st' = available_tools Doubles.started_A_M
    ∧ (∀ pid, is_running st' pid
              = is_running Doubles.started_A_M pid
                && negb (held Doubles.started_A_M pid))
    ∧ get_server_status st'
      = (λ _, py "not_started") <$> get_server_status Doubles.started_A_M
    ∧ stop_all_servers sorted_keys st' = (Ok tt, st').
Proof.
  apply (stop_all_servers_spec sorted_keys Doubles.started_A_M).
  intros m. reflexivity.
Defined.

Lemma get_tools_replaces_witness :
  let '(r, st') := _get_tools (py "S") (Doubles.awaiting Stub.reply_tools) in
  r = Ok tt
  ∧ dict_get (py "S") (available_tools st') = Some Doubles.echo_tools
  ∧ (∀ other, other ≠ py "S" →
       dict_get other (available_tools st')
       = dict_get other (available_tools (Doubles.awaiting Stub.reply_tools)))
  ∧ log st'
    = log (Doubles.awaiting Stub.reply_tools)
      ++ [tools_entry (py "S") Doubles.echo_tools].
Proof.
  apply (get_tools_replaces (py "S") (Doubles.awaiting Stub.reply_tools) 0%nat
           (Doubles.awaiting_process Stub.reply_tools)
           Doubles.tools_data Doubles.echo_tools);
    vm_compute; reflexivity.
Defined.

Lemma get_tools_poisons_listing_witness :
  is_raise (get_available_tools_list
              (_get_tools (py "S") (Doubles.awaiting Doubles.odd_reply)).2)
  = true.
Proof.
  apply (get_tools_poisons_listing (py "S") (Doubles.awaiting Doubles.odd_reply)
           0%nat (Doubles.awaiting_process Doubles.odd_reply)
           Doubles.odd_data (JInt 5)
           (type_error ["'"; type_name (JInt 5); "' object is not iterable"]));
    vm_compute; reflexivity.
Defined.

Lemma get_available_tools_list_catalog_witness :
  get_available_tools_list Stub.started_A
  = Ok (catalog (available_tools Stub.started_A))
  ∧ (∀ tool, tool ∈ catalog (available_tools Stub.started_A)
       ↔ ∃ server_name l d,
           (server_name, JArr l) ∈ available_tools Stub.started_A ∧ JObj d ∈ l
           ∧ tool = JObj (dict_set (py "server") (JStr server_name) d))
  ∧ length (catalog (available_tools Stub.started_A))
    = sum_list_with (λ kv, length (default [] (tool_list kv.2)))
        (available_tools Stub.started_A).
Proof.
  apply (get_available_tools_list_catalog Stub.started_A). compute_done.
Defined.

Lemma start_server_handshake_witness :
  ∃ p,
    Stub.start_server (py "A") Stub.registry
    = (Ok true,
       {| servers := servers Stub.registry;
          active_connections
            := <[py "A" := length (procs Stub.registry)]>
                 (active_connections Stub.registry);
          available_tools
            := dict_set (py "A") Doubles.echo_tools
                 (available_tools Stub.registry);
          procs := procs Stub.registry ++ [p];
          log := log Stub.registry
                 ++ [StartedServer (py "A");
                     ServerInitialized (py "A") Doubles.init_data;
                     tools_entry (py "A") Doubles.echo_tools] |})
    ∧ p_cmd p = [py "good"]
    ∧ p_env p = ∅ ∪ Stub.os_environ
    ∧ p_stdin p = [init_request; tools_request]
    ∧ p_stdout p = Stub.reply_call.
Proof.
  apply (start_server_handshake Stub.os_environ Stub.popen (py "A")
           Stub.registry Stub.server_A [py "good"] (∅ ∪ Stub.os_environ)
           Stub.child_A
           Stub.reply_initialize (Stub.reply_tools ++ Stub.reply_call)
           Doubles.init_data
           Stub.reply_tools Stub.reply_call Doubles.tools_data
           Doubles.echo_tools);
    vm_compute; reflexivity.
Defined.

Lemma call_tool_returns_reply_witness :
  call_tool (py "A") (py "echo") (JObj [(py "message", JStr (py "hi"))])
    Stub.started_A
  = (Ok Doubles.call_data,
     set_procs
       (alter (λ p, unread []
                      (sent (tool_request (py "echo")
                               (JObj [(py "message", JStr (py "hi"))])) p))
              0%nat) Stub.started_A).
Proof.
  apply (call_tool_returns_reply (py "A") (py "echo")
           (JObj [(py "message", JStr (py "hi"))]) Stub.started_A 0%nat
           Doubles.process_A Stub.reply_call [] Doubles.call_data);
    vm_compute; reflexivity.
Defined.

Lemma chat_named_model_witness :
  chat Stub.offline (py "hello") (Some (py "model-x")) LMStudioMCPChatbot_new
  = match completion Stub.offline (py "model-x")
            (conversation_history (asked (py "hello") LMStudioMCPChatbot_new))
    with
    | Ok text => (Ok text, answered (py "hello") text LMStudioMCPChatbot_new)
    | Raise exc =>
        (Ok (py "Error: " ++ exn_str exc),
         asked (py "hello") LMStudioMCPChatbot_new)
    end.
Proof.
  apply (chat_named_model Stub.offline (py "hello") (py "model-x")
           LMStudioMCPChatbot_new).
  reflexivity.
Defined.

Lemma stream_chat_broken_stream_witness :
  take_fragments Doubles.breaking 4 (stream_chat (py "hi") None)
    LMStudioMCPChatbot_new
  = (Ok (fragments [Some (py "Hel"); None; Some (py "lo")]
         ++ [py "Error: " ++ exn_str Doubles.connection_lost], Finished),
     asked (py "hi") LMStudioMCPChatbot_new).
Proof.
  apply (stream_chat_broken_stream Doubles.breaking (py "hi") None
           LMStudioMCPChatbot_new (py "model-1")
           [Some (py "Hel"); None; Some (py "lo")] Doubles.connection_lost
           4%nat).
  - vm_compute; reflexivity.
  - vm_compute; reflexivity.
  - vm_compute; lia.
Defined.

Lemma add_system_prompt_plain_witness :
  add_system_prompt (py "Be brief.") LMStudioMCPChatbot_init
  = (Ok Prompted,
     {| self := {| conversation_history :=
                     conversation_history (self LMStudioMCPChatbot_init)
                     ++ [{| role := py "system"; content := py "Be brief." |}];
                   mcp_enabled := mcp_enabled (self LMStudioMCPChatbot_init) |};
        mcp_manager := mcp_manager LMStudioMCPChatbot_init;
        notices := notices LMStudioMCPChatbot_init |}).
Proof.
  apply (add_system_prompt_plain (py "Be brief.") LMStudioMCPChatbot_init).
  left. reflexivity.
Defined.

Lemma add_system_prompt_nameless_tool_witness :
  add_system_prompt (py "Be brief.") Doubles.nameless
  = (Raise (Exn KeyError (py "'name'")), Doubles.nameless).
Proof.
  apply (add_system_prompt_nameless_tool (py "Be brief.") Doubles.nameless
           (py "S") [JObj Doubles.nameless_tool] Doubles.nameless_tool).
  - reflexivity.
  - compute_done.
  - simpl. left.
  - left.
  - vm_compute; reflexivity.
Defined.


Lemma disable_mcp_outcome_witness :
  ∃ a',
    disable_mcp sorted_keys Doubles.enabled_A = (Ok tt, a')
    ∧ mcp_enabled (self a') = false
    ∧ active_connections (mcp_manager a') = ∅
    ∧ get_mcp_status a'
      = (s ← get_mcp_status Doubles.enabled_A;
         Ok {| enabled := false;
               servers_status := (λ _, py "not_started") <$> servers_status s;
               tools := tools s |})
    ∧ ∃ a'', add_system_prompt (py "Be brief.") a' = (Ok Prompted, a'')
             ∧ conversation_history (self a'')
               = conversation_history (self Doubles.enabled_A)
                 ++ [{| role := py "system"; content := py "Be brief." |}].
Proof.
  apply (disable_mcp_outcome sorted_keys Doubles.enabled_A (py "Be brief.")).
  intros m. reflexivity.
Defined.

Lemma save_conversation_failure_truncates_witness :
  ∃ written rest bytes,
    save_conversation Stub.always (py "chat.json") Stub.surrogate_session
    = (Raise (Exn UnicodeEncodeError
                (py "'utf-8' codec can't encode character: surrogates not allowed")),
       {| bot := bot Stub.surrogate_session;
          fs := <[py "chat.json" := bytes]> (fs Stub.surrogate_session) |})
    ∧ iterencode (conversation_history (bot Stub.surrogate_session))
      = written ++ rest
    ∧ rest ≠ []
    ∧ TextFile.utf8_encode (concat written) = Some bytes.
Proof.
  apply (save_conversation_failure_truncates Stub.always (py "chat.json")
           Stub.surrogate_session Doubles.lone_surrogate 0xD800).
  - reflexivity.
  - simpl. left.
  - reflexivity.
  - right. simpl. left.
Defined.

End FurtherRuns.
